(** * Azguard wallet client: session store, event registry, version check,
      detection poll and the ShieldSwap adapter

    A shallow embedding of [src/version.ts], [src/client.ts],
    [src/event-handlers.ts] and [src/providers/shieldswap/provider.ts].
    JavaScript values are modelled by the types the TypeScript sources give
    them; [undefined] is [None]; a thrown exception or a rejected promise is
    the [Throw] completion. *)

From Stdlib Require Import ZArith Lia Bool List String Ascii.
From Stdlib Require SpecFloat.
From stdpp Require Import gmap strings list.
Import ListNotations.

Local Open Scope string_scope.
Local Open Scope list_scope.
Local Open Scope nat_scope.

(** ** JavaScript primitives used by the sources *)

Module Js.

(** What a [throw] (or a rejected promise) carries. *)
Inductive Exn :=
| Error (message : string)      (* new Error(message) *)
| TypeError                     (* property access on undefined *)
| Rejected (reason : string).   (* a rejection raised by the RPC channel *)

(** Completion of a call: it returns a value or throws. *)
Inductive Completion (A : Type) :=
| Normal (a : A)
| Throw (e : Exn).
Arguments Normal {A} a.
Arguments Throw {A} e.

(** [s.split(sep)] for a one-character separator: the segments between the
    occurrences of [sep]; there is always at least one segment. *)
Fixpoint split (sep : ascii) (s : string) : list string :=
  match s with
  | EmptyString => [EmptyString]
  | String c rest =>
      if Ascii.eqb c sep then EmptyString :: split sep rest
      else match split sep rest with
           | seg :: segs => String c seg :: segs
           | [] => [String c EmptyString]
           end
  end.

(** [segs.join(sep)], the inverse of [split] on separator-free segments. *)
Fixpoint join (sep : ascii) (segs : list string) : string :=
  match segs with
  | [] => EmptyString
  | [seg] => seg
  | seg :: rest => seg +:+ String sep (join sep rest)
  end.

(** The character [sep] does not occur in [s]. *)
Fixpoint free_of (sep : ascii) (s : string) : bool :=
  match s with
  | EmptyString => true
  | String c rest => negb (Ascii.eqb c sep) && free_of sep rest
  end.

(** [x.endsWith(s)]: the last [s.length] characters of [x] are [s]. *)
Definition endsWith (x s : string) : bool :=
  let lx := String.length x in
  let ls := String.length s in
  if (ls <=? lx)%nat then String.eqb (substring (lx - ls) ls x) s else false.

(** [!a] on a value of type [string | undefined]: only [undefined] and the
    empty string are falsy. *)
Definition falsy (a : option string) : bool :=
  match a with
  | None => true
  | Some s => String.eqb s ""
  end.

(** [a === b] on values of type [string | undefined]. *)
Definition strict_eq (a b : option string) : bool := bool_decide (a = b).

End Js.

(** ** [src/version.ts] *)

Module Version.
Import Js.

(** [const [majorVersion, minorVersion] = packageJson.version.split(".")] and
    [isCompatible].  [package.json] is not part of the sources, so the
    client's own version string is a parameter. *)
Definition isCompatible (packageVersion : string) (version : string) : bool :=
  let own := split "." packageVersion in
  let majorVersion := own !! 0%nat in
  let minorVersion := own !! 1%nat in
  let remote := split "." version in
  let major := remote !! 0%nat in
  let minor := remote !! 1%nat in
  strict_eq major majorVersion && strict_eq minor minorVersion.

End Version.

(** ** The protocol's data ([@azguardwallet/types], as the sources use it) *)

Module Types.
Import Js.

(** A permission grant: every list is optional. *)
Record DappPermissions := {
  chains : option (list string);
  methods : option (list string);
  events : option (list string);
}.

Record DappSession := {
  id : string;
  accounts : list string;              (* CaipAccount[] *)
  permissions : list DappPermissions;
}.

Record DappMetadata := { name : string }.

Record WalletInfo := { info : string }.

(** [SerializedFunctionCall] of the ShieldSwap RPC spec. *)
Record SerializedFunctionCall := {
  to : string;
  selector : string;
  args : list string;
}.

Record AuthWitness := {
  caller : string;
  action : SerializedFunctionCall;
}.

(** [{ kind: "encoded_call", to, selector, args }] *)
Record EncodedCallAction := {
  call_to : string;
  call_selector : string;
  call_args : list string;
}.

(** [{ kind: "encoded_call", caller, to, selector, args }], the content of an
    authorization witness. *)
Record EncodedCallContent := {
  content_caller : string;
  content_to : string;
  content_selector : string;
  content_args : list string;
}.

Inductive Action :=
| AddPrivateAuthwit (content : EncodedCallContent)  (* kind: "add_private_authwit" *)
| EncodedCall (call : EncodedCallAction).           (* kind: "encoded_call" *)

Inductive Operation :=
| SendTransaction (account : string) (actions : list Action)
| SimulateViews (account : string) (calls : list EncodedCallAction)
| OtherOperation (kind : string).   (* register_contract and the like: opaque here *)

(** A value decoded by the wallet from the fields a view returned. *)
Inductive Decoded :=
| DBigInt (n : Z)
| DString (s : string)
| DBool (b : bool)
| DFields (fields : list string).

(** The result of a [simulate_views] operation.  The adapter reads
    [encoded]; the README's example reads [decoded]. *)
Record SimulateViewsResult := {
  encoded : list (list string);
  decoded : list Decoded;
}.

(** What [OkResult.result] holds at run time. *)
Inductive ResultValue :=
| TxHash (hash : string)                 (* SendTransactionResult *)
| SimulatedViews (r : SimulateViewsResult)
| NoValue.                               (* result is undefined *)

(** [{ status: "ok", result } | { status: "failed", error } |
     { status: "skipped" }] *)
Inductive OperationResult :=
| OkResult (result : ResultValue)
| FailedResult (error : string)
| SkippedResult.

(** [result.status] *)
Definition status (r : OperationResult) : string :=
  match r with
  | OkResult _ => "ok"
  | FailedResult _ => "failed"
  | SkippedResult => "skipped"
  end.

(** The template literal's rendering of [(result as FailedResult)?.error]. *)
Definition error_text (r : OperationResult) : string :=
  match r with
  | FailedResult e => e
  | _ => "undefined"
  end.

(** How the channel settles the promise of a request. *)
Inductive Response (A : Type) :=
| Fulfilled (a : A)
| RejectedWith (reason : string).
Arguments Fulfilled {A} a.
Arguments RejectedWith {A} reason.

(** What [await] makes of a settled promise. *)
Definition settle {A} (r : Response A) : Completion A :=
  match r with
  | Fulfilled a => Normal a
  | RejectedWith reason => Throw (Rejected reason)
  end.

(** The RPC channel, [AzguardRpcClient]: one response function per method
    the client requests, over the wallet's own state [W]. *)
Record AzguardRpcClient (W : Type) := {
  request_connect :
    DappMetadata -> list DappPermissions -> option (list DappPermissions) ->
    W -> W * Response DappSession;
  request_close_session : string -> W -> W * Response unit;
  request_execute :
    string -> list Operation -> W -> W * Response (list OperationResult);
  request_get_wallet_info : W -> W * Response WalletInfo;
  request_get_session : string -> W -> W * Response (option DappSession);
}.
Arguments request_connect {W} _ _ _ _ _.
Arguments request_close_session {W} _ _ _.
Arguments request_execute {W} _ _ _ _.
Arguments request_get_wallet_info {W} _ _.
Arguments request_get_session {W} _ _ _.

(** [window.azguard] *)
Record AzguardObject (W : Type) := {
  version : string;
  createClient : AzguardRpcClient W;
}.
Arguments version {W} _.
Arguments createClient {W} _.

End Types.

(** ** The install-detection poll of [AzguardClient.getAzguardObject] *)

Module Detection.
Import Js.

(** The [timeout] argument is a JavaScript number: an IEEE 754 binary64
    value.  [SpecFloat] is the Standard Library's executable specification
    of these values and of their arithmetic (round to nearest, ties to
    even), instantiated here at 53 bits of precision. *)
Definition prec : Z := 53.
Definition emax : Z := 1024.

Definition JsNumber : Type := SpecFloat.spec_float.

Definition PosInfinity : JsNumber := SpecFloat.S754_infinity false.
Definition NegInfinity : JsNumber := SpecFloat.S754_infinity true.
Definition NaN : JsNumber := SpecFloat.S754_nan.

(** The number that a whole-number literal denotes: the value nearest to
    the integer (the integer itself up to 2^53). *)
Definition Number (z : Z) : JsNumber :=
  SpecFloat.binary_normalize prec emax z 0 false.

(** [rest -= 10] *)
Definition minus10 (rest : JsNumber) : JsNumber :=
  SpecFloat.SFsub prec emax rest (Number 10).

(** [rest <= 0] *)
Definition le_zero (rest : JsNumber) : bool :=
  SpecFloat.SFleb rest (Number 0).

(** [rest] after [n] firings of the callback. *)
Fixpoint rest_after (n : nat) (timeout : JsNumber) : JsNumber :=
  match n with
  | O => timeout
  | S n' => minus10 (rest_after n' timeout)
  end.

(** The poll gives up at the [n]-th firing when nothing is in sight: that
    is the first firing at which [rest <= 0] holds. *)
Definition gives_up_at (timeout : JsNumber) (n : nat) : Prop :=
  1 <= n
  /\ le_zero (rest_after n timeout) = true
  /\ forall i, 1 <= i < n -> le_zero (rest_after i timeout) = false.

(** [rest <= 0] holds at no firing. *)
Definition never_gives_up (timeout : JsNumber) : Prop :=
  forall i, 1 <= i -> le_zero (rest_after i timeout) = false.

Section Poll.
Context {Obj : Type}.

(** State of the promise after a firing of the interval callback. *)
Inductive Timer :=
| Running (rest : JsNumber)
| Resolved (value : option Obj).

(** One firing of the [setInterval] callback; [azguard] is [window.azguard]
    as it is at that firing. *)
Definition interval_callback (azguard : option Obj) (rest : JsNumber) : Timer :=
  let rest := minus10 rest in
  match azguard with
  | Some az => Resolved (Some az)
  | None => if le_zero rest then Resolved None else Running rest
  end.

(** The firings from the [k]-th on, at most [fuel] of them.  [window k] is
    [window.azguard] at the [k]-th firing, which is due [10 * k] ms after
    the call.  [Some (k, v)]: the promise resolved with [v] at firing [k];
    [None]: it is still pending after [fuel] firings. *)
Fixpoint firings (window : nat -> option Obj) (k fuel : nat) (rest : JsNumber)
  : option (nat * option Obj) :=
  match fuel with
  | O => None
  | S fuel' =>
      match interval_callback (window k) rest with
      | Resolved v => Some (k, v)
      | Running rest' => firings window (S k) fuel' rest'
      end
  end.

Definition getAzguardObject (timeout : JsNumber) (window : nat -> option Obj)
    (fuel : nat) : option (nat * option Obj) :=
  firings window 1 fuel timeout.

End Poll.

(** [isAzguardInstalled]: [azguard !== undefined] *)
Definition isAzguardInstalled {Obj} (timeout : JsNumber)
    (window : nat -> option Obj) (fuel : nat) : option (nat * bool) :=
  match getAzguardObject timeout window fuel with
  | Some (k, azguard) => Some (k, bool_decide (is_Some azguard))
  | None => None
  end.

(** [isAzguardInstalledAndCompatible] *)
Definition isAzguardInstalledAndCompatible {W} (packageVersion : string)
    (timeout : JsNumber) (window : nat -> option (Types.AzguardObject W))
    (fuel : nat) : option (nat * bool) :=
  match getAzguardObject timeout window fuel with
  | Some (k, Some azguard) =>
      Some (k, Version.isCompatible packageVersion (Types.version azguard))
  | Some (k, None) => Some (k, false)
  | None => None
  end.

(** The tick at which the spec places the timeout: [timeout] rounded down
    to a multiple of the 10 ms tick, counted in ticks. *)
Definition ticks_rounded_down (timeout : Z) : Z := timeout / 10.

(** The tick at which the code gives up: [timeout] rounded up to a multiple
    of the tick, and never before the first firing. *)
Definition ticks_rounded_up (timeout : Z) : nat :=
  Z.to_nat (Z.max 1 ((timeout + 9) / 10)).

(** The same for a timeout of [m * 2^e] ms with [e <= 0], a number that
    may have a fractional part: the first tick [n] with
    [m * 2^e <= 10 * n], and never before the first firing. *)
Definition ticks_covering (m e : Z) : nat :=
  Z.to_nat (Z.max 1 ((m + 10 * 2 ^ (- e) - 1) / (10 * 2 ^ (- e)))).

End Detection.

(** ** Program state and effects *)

Module Runtime.
Import Js Types.

Inductive EventName :=
| OnConnected
| OnDisconnected
| OnAccountsChanged
| OnPermissionsChanged.

Definition EventName_eqb (a b : EventName) : bool :=
  match a, b with
  | OnConnected, OnConnected
  | OnDisconnected, OnDisconnected
  | OnAccountsChanged, OnAccountsChanged
  | OnPermissionsChanged, OnPermissionsChanged => true
  | _, _ => false
  end.

Inductive Payload :=
| NoPayload
| AccountsPayload (accounts : list string)
| PermissionsPayload (permissions : list DappPermissions).

(** What a subscriber reads through the client's public getters. *)
Record ClientView := {
  view_connected : bool;
  view_accounts : list string;
  view_permissions : list DappPermissions;
}.

(** [rpc.request(method, params)] *)
Inductive Request :=
| ReqConnect (dappMetadata : DappMetadata)
    (requiredPermissions : list DappPermissions)
    (optionalPermissions : option (list DappPermissions))
| ReqCloseSession (sessionId : string)
| ReqExecute (sessionId : string) (operations : list Operation)
| ReqGetWalletInfo
| ReqGetSession (sessionId : string).

(** The observable effects of a run, in the order they happen. *)
Inductive Effect :=
| Dispatched (ev : EventName) (payload : Payload)
| Invoked (ev : EventName) (handler : nat) (payload : Payload) (view : ClientView)
| Requested (r : Request)
| SessionAssigned (s : option DappSession)
| StorageSet (key value : string)
| StorageRemoved (key : string)
| Warned (message : string).

(** What lies outside the client and within a subscriber's reach:
    [localStorage] and the subscribers' own state. *)
Record Env (U : Type) := {
  localStorage : gmap string string;
  user : U;
}.
Arguments localStorage {U} _.
Arguments user {U} _.

(** A callback: its identity as a function object, and its body, which
    reads the payload and the client's getters, acts on the environment and
    returns or throws. *)
Record Handler (U T : Type) := {
  handler_id : nat;
  handler_body : T -> ClientView -> Env U -> Env U * Completion unit;
}.
Arguments handler_id {U T} _.
Arguments handler_body {U T} _ _ _ _.

(** [#handlers: Set<(payload: T) => void>], in insertion order. *)
Definition EventHandlers (U T : Type) := list (Handler U T).

Record State (W U : Type) := {
  (* private fields of AzguardClient *)
  scope : string;
  onConnected : EventHandlers U unit;
  onDisconnected : EventHandlers U unit;
  onAccountsChanged : EventHandlers U (list string);
  onPermissionsChanged : EventHandlers U (list DappPermissions);
  rpc : option (AzguardRpcClient W);
  session : option DappSession;
  (* the channel holds the client's session_updated / session_closed callbacks *)
  listening : bool;
  (* the world around the client *)
  env : Env U;
  wallet : W;
  trace : list Effect;
}.
Arguments scope {W U} _.
Arguments onConnected {W U} _.
Arguments onDisconnected {W U} _.
Arguments onAccountsChanged {W U} _.
Arguments onPermissionsChanged {W U} _.
Arguments rpc {W U} _.
Arguments session {W U} _.
Arguments listening {W U} _.
Arguments env {W U} _.
Arguments wallet {W U} _.
Arguments trace {W U} _.

Section Monad.
Context {W U : Type}.

Abbreviation St := (State W U).

(** The public getters of [AzguardClient]. *)

(** [!!this.#session] *)
Definition connected (st : St) : bool :=
  match session st with
  | Some _ => true
  | None => false
  end.

(** [this.#session?.accounts ?? []] *)
Definition accounts (st : St) : list string :=
  match session st with
  | Some s => Types.accounts s
  | None => []
  end.

(** [this.#session?.permissions ?? []] *)
Definition permissions (st : St) : list DappPermissions :=
  match session st with
  | Some s => Types.permissions s
  | None => []
  end.

Definition view_of (st : St) : ClientView :=
  {| view_connected := connected st;
     view_accounts := accounts st;
     view_permissions := permissions st |}.

(** What the getters return while [s] is the stored session. *)
Definition view_with (s : DappSession) : ClientView :=
  {| view_connected := true;
     view_accounts := Types.accounts s;
     view_permissions := Types.permissions s |}.

Definition M (A : Type) : Type := St -> St * Completion A.

Definition ret {A} (a : A) : M A := fun st => (st, Normal a).

Definition bind {A B} (c : M A) (k : A -> M B) : M B :=
  fun st =>
    match c st with
    | (st', Normal a) => k a st'
    | (st', Throw e) => (st', Throw e)
    end.

Definition throw {A} (e : Exn) : M A := fun st => (st, Throw e).

(** [try { c } catch (e) { handler(e) }] *)
Definition try_catch {A} (c : M A) (handler : Exn -> M A) : M A :=
  fun st =>
    match c st with
    | (st', Normal a) => (st', Normal a)
    | (st', Throw e) => handler e st'
    end.

Definition gets {A} (f : St -> A) : M A := fun st => (st, Normal (f st)).

Definition modify (f : St -> St) : M unit := fun st => (f st, Normal tt).

(** [for (const a of l) { body(a) }] *)
Fixpoint for_of {A} (l : list A) (body : A -> M unit) : M unit :=
  match l with
  | [] => ret tt
  | a :: l' => bind (body a) (fun _ => for_of l' body)
  end.

Definition set_trace (t : list Effect) (st : St) : St :=
  {| scope := scope st; onConnected := onConnected st;
     onDisconnected := onDisconnected st;
     onAccountsChanged := onAccountsChanged st;
     onPermissionsChanged := onPermissionsChanged st;
     rpc := rpc st; session := session st; listening := listening st;
     env := env st; wallet := wallet st; trace := t |}.

Definition set_env (e : Env U) (st : St) : St :=
  {| scope := scope st; onConnected := onConnected st;
     onDisconnected := onDisconnected st;
     onAccountsChanged := onAccountsChanged st;
     onPermissionsChanged := onPermissionsChanged st;
     rpc := rpc st; session := session st; listening := listening st;
     env := e; wallet := wallet st; trace := trace st |}.

Definition set_wallet (w : W) (st : St) : St :=
  {| scope := scope st; onConnected := onConnected st;
     onDisconnected := onDisconnected st;
     onAccountsChanged := onAccountsChanged st;
     onPermissionsChanged := onPermissionsChanged st;
     rpc := rpc st; session := session st; listening := listening st;
     env := env st; wallet := w; trace := trace st |}.

Definition set_session (s : option DappSession) (st : St) : St :=
  {| scope := scope st; onConnected := onConnected st;
     onDisconnected := onDisconnected st;
     onAccountsChanged := onAccountsChanged st;
     onPermissionsChanged := onPermissionsChanged st;
     rpc := rpc st; session := s; listening := listening st;
     env := env st; wallet := wallet st; trace := trace st |}.

Definition set_rpc (r : option (AzguardRpcClient W)) (st : St) : St :=
  {| scope := scope st; onConnected := onConnected st;
     onDisconnected := onDisconnected st;
     onAccountsChanged := onAccountsChanged st;
     onPermissionsChanged := onPermissionsChanged st;
     rpc := r; session := session st; listening := listening st;
     env := env st; wallet := wallet st; trace := trace st |}.

Definition set_listening (b : bool) (st : St) : St :=
  {| scope := scope st; onConnected := onConnected st;
     onDisconnected := onDisconnected st;
     onAccountsChanged := onAccountsChanged st;
     onPermissionsChanged := onPermissionsChanged st;
     rpc := rpc st; session := session st; listening := b;
     env := env st; wallet := wallet st; trace := trace st |}.

Definition set_handlers
    (c d : EventHandlers U unit) (a : EventHandlers U (list string))
    (p : EventHandlers U (list DappPermissions)) (st : St) : St :=
  {| scope := scope st; onConnected := c; onDisconnected := d;
     onAccountsChanged := a; onPermissionsChanged := p;
     rpc := rpc st; session := session st; listening := listening st;
     env := env st; wallet := wallet st; trace := trace st |}.

(** Record an effect at the end of the trace. *)
Definition log (e : Effect) : M unit :=
  modify (fun st => set_trace (trace st ++ [e]) st).

(** [this.#session = s] *)
Definition assign_session (s : option DappSession) : M unit :=
  bind (log (SessionAssigned s)) (fun _ => modify (set_session s)).

(** [localStorage.getItem(key)] *)
Definition localStorage_getItem (key : string) : M (option string) :=
  gets (fun st => localStorage (env st) !! key).

(** [localStorage.setItem(key, value)] *)
Definition localStorage_setItem (key value : string) : M unit :=
  bind (log (StorageSet key value)) (fun _ =>
  modify (fun st =>
    set_env {| localStorage := <[key := value]> (localStorage (env st));
               user := user (env st) |} st)).

(** [localStorage.removeItem(key)] *)
Definition localStorage_removeItem (key : string) : M unit :=
  bind (log (StorageRemoved key)) (fun _ =>
  modify (fun st =>
    set_env {| localStorage := delete key (localStorage (env st));
               user := user (env st) |} st)).

(** [await rpc.request(...)]: the request reaches the channel, the wallet
    moves to its next state, and the response is returned or thrown. *)
Definition request {A} (r : Request) (respond : W -> W * Response A) : M A :=
  bind (log (Requested r)) (fun _ =>
  fun st =>
    let (w', response) := respond (wallet st) in
    (set_wallet w' st, settle response)).

End Monad.

Notation "x <- c ;; k" := (bind c (fun x => k))
  (at level 100, c at next level, right associativity).
Notation "c ;;; k" := (bind c (fun _ => k))
  (at level 100, right associativity).

End Runtime.

(** ** [src/event-handlers.ts], as the client uses it

    The subscribers of the client's events are callbacks that read the
    payload and the client's getters, act on the environment and return or
    throw; they leave the registries alone.  ([LiveSet], below, has the
    class with callbacks that do not.) *)

Module Handlers.
Import Js Types Runtime.

Section EventHandlers.
Context {W U T : Type}.

(** [#handlers.has(handler)]: membership is by the callback's identity. *)
Definition has (handler : Handler U T) (handlers : EventHandlers U T) : bool :=
  existsb (fun h => Nat.eqb (handler_id h) (handler_id handler)) handlers.

(** [#handlers.add(handler)] *)
Definition addHandler (handler : Handler U T) (handlers : EventHandlers U T)
  : EventHandlers U T :=
  if has handler handlers then handlers else handlers ++ [handler].

(** [#handlers.delete(handler)] *)
Definition removeHandler (handler : Handler U T) (handlers : EventHandlers U T)
  : EventHandlers U T :=
  List.filter (fun h => negb (Nat.eqb (handler_id h) (handler_id handler))) handlers.

(** [handler(payload)].  The registry's event name [ev] and the payload's
    rendering [inj] only label the trace. *)
Definition call (ev : EventName) (inj : T -> Payload)
    (handler : Handler U T) (payload : T) : M (W := W) unit :=
  fun st =>
    let view := view_of st in
    let (env', completion) := handler_body handler payload view (env st) in
    (set_trace (trace st ++ [Invoked ev (handler_id handler) (inj payload) view])
       (set_env env' st),
     completion).

(** [dispatch(payload)] *)
Definition dispatch (ev : EventName) (inj : T -> Payload)
    (handlers : EventHandlers U T) (payload : T) : M (W := W) unit :=
  log (Dispatched ev (inj payload)) ;;;
  for_of handlers (fun handler =>
    try_catch (call ev inj handler payload) (fun _ => ret tt)).

End EventHandlers.

(** A registry as a program builds it: from the empty set, by calls of
    [addHandler] and [removeHandler]. *)
Inductive RegistryCall (U T : Type) :=
| Add (handler : Handler U T)
| Remove (handler : Handler U T).
Arguments Add {U T} _.
Arguments Remove {U T} _.

Definition apply_call {U T} (handlers : EventHandlers U T)
    (c : RegistryCall U T) : EventHandlers U T :=
  match c with
  | Add h => addHandler h handlers
  | Remove h => removeHandler h handlers
  end.

Definition registry_of {U T} (calls : list (RegistryCall U T))
  : EventHandlers U T :=
  fold_left apply_call calls [].

(** What a dispatch adds to the trace: the dispatch itself, then one
    invocation per registered handler, in the set's order. *)
Definition dispatch_effects {U T} (ev : EventName) (payload : Payload)
    (view : ClientView) (handlers : EventHandlers U T) : list Effect :=
  Dispatched ev payload
    :: map (fun h => Invoked ev (handler_id h) payload view) handlers.

(** The environment after the bodies of [handlers] ran in order, whether
    they returned or threw. *)
Fixpoint after_handlers {U T} (handlers : EventHandlers U T) (payload : T)
    (view : ClientView) (e : Env U) : Env U :=
  match handlers with
  | [] => e
  | h :: rest =>
      after_handlers rest payload view (fst (handler_body h payload view e))
  end.

(** How often handler [h] was invoked for event [ev] in a trace. *)
Definition invocations (ev : EventName) (h : nat) (t : list Effect) : nat :=
  length (List.filter
    (fun e => match e with
              | Invoked ev' h' _ _ =>
                  EventName_eqb ev' ev && Nat.eqb h' h
              | _ => false
              end) t).

End Handlers.

(** ** [src/event-handlers.ts], with callbacks that reach back into the set

    [dispatch] iterates over the live [Set]: a callback that calls
    [addHandler] or [removeHandler] of the registry it is dispatched from
    changes what the loop still visits.  This module models the class on
    its own with such callbacks; [Handlers], above, is the case of
    callbacks that leave the registry alone. *)

Module LiveSet.
Import Js.

Section Callbacks.
Context {S T : Type}.

(** A callback: its identity, and its body, which acts on the state [S],
    returns or throws, and makes calls on the registry on the way. *)
Inductive Callback :=
| callback (identity : nat)
    (body : T -> S -> S * Completion unit * list RegistryCall)
with RegistryCall :=
| AddHandler (c : Callback)          (* addHandler(c) *)
| RemoveHandler (identity : nat).    (* removeHandler of that callback *)

Definition identity (c : Callback) : nat :=
  match c with callback i _ => i end.

Definition body (c : Callback)
  : T -> S -> S * Completion unit * list RegistryCall :=
  match c with callback _ b => b end.

(** The entries of [#handlers] in insertion order, split where the
    iterator of the [for ... of] loop stands: the entries it has passed and
    the entries ahead of it. *)
Record Iteration := {
  passed : list Callback;
  ahead : list Callback;
}.

Definition has (i : nat) (it : Iteration) : bool :=
  existsb (fun c => Nat.eqb (identity c) i) (passed it ++ ahead it).

(** [#handlers.add(c)]: a new entry goes to the end of the set. *)
Definition add (c : Callback) (it : Iteration) : Iteration :=
  if has (identity c) it then it
  else {| passed := passed it; ahead := ahead it ++ [c] |}.

(** [#handlers.delete(c)] *)
Definition delete (i : nat) (it : Iteration) : Iteration :=
  {| passed := List.filter (fun c => negb (Nat.eqb (identity c) i)) (passed it);
     ahead := List.filter (fun c => negb (Nat.eqb (identity c) i)) (ahead it) |}.

Definition apply_call (it : Iteration) (call : RegistryCall) : Iteration :=
  match call with
  | AddHandler c => add c it
  | RemoveHandler i => delete i it
  end.

(** The loop of [dispatch], for at most [fuel] turns: the next entry ahead
    is called inside [try { } catch { }], and the calls it made on the
    registry have taken effect when the loop goes on.  The result is the
    set, the state and the identities of the callbacks invoked, in order;
    [None] when the loop has not ended after [fuel] turns. *)
Fixpoint iterate (fuel : nat) (it : Iteration) (payload : T) (s : S)
    (invoked : list nat) : option (Iteration * S * list nat) :=
  match fuel with
  | O => None
  | Datatypes.S fuel' =>
      match ahead it with
      | [] => Some (it, s, invoked)
      | c :: rest =>
          let '(s', completion, calls) := body c payload s in
          let it' :=
            fold_left apply_call calls
              {| passed := passed it ++ [c]; ahead := rest |} in
          match completion with
          | Normal _ => iterate fuel' it' payload s' (invoked ++ [identity c])
          | Throw _ => iterate fuel' it' payload s' (invoked ++ [identity c])
          end
      end
  end.

(** [dispatch(payload)] on the set [handlers]. *)
Definition dispatch (fuel : nat) (handlers : list Callback) (payload : T)
    (s : S) : option (Iteration * S * list nat) :=
  iterate fuel {| passed := []; ahead := handlers |} payload s [].

(** A set as a program builds it, from the empty set. *)
Definition registry_of (calls : list RegistryCall) : list Callback :=
  ahead (fold_left apply_call calls {| passed := []; ahead := [] |}).

(** The callback makes no call on the registry when it is given
    [payload]. *)
Definition quiet (payload : T) (c : Callback) : Prop :=
  forall s, snd (body c payload s) = [].

(** The state after the bodies of [handlers] ran in order. *)
Fixpoint after (handlers : list Callback) (payload : T) (s : S) : S :=
  match handlers with
  | [] => s
  | c :: rest => after rest payload (fst (fst (body c payload s)))
  end.

End Callbacks.

Arguments Callback : clear implicits.
Arguments RegistryCall : clear implicits.
Arguments Iteration : clear implicits.

(** A subscriber of the client as a callback that leaves the registry
    alone; [view] is what the client's getters return during the
    dispatch. *)
Definition as_callback {U T} (view : Runtime.ClientView)
    (h : Runtime.Handler U T) : Callback (Runtime.Env U) T :=
  callback (Runtime.handler_id h)
    (fun payload e => (Runtime.handler_body h payload view e, [])).

(** The calls that the callback makes on the registry, when it is given
    [payload], are all [removeHandler] of itself: a handler that
    unsubscribes itself once it has been called. *)
Definition removes_only_itself {S T} (payload : T) (c : Callback S T) : Prop :=
  forall s, Forall (fun call => call = RemoveHandler (identity c))
              (snd (body c payload s)).

End LiveSet.

(** ** [src/client.ts] *)

Module AzguardClient.
Import Js Types Runtime Handlers.

(** *** The comparisons of [#onSessionUpdated] *)

(** [a || b] where evaluating an operand may throw. *)
Definition or_else (a b : Completion bool) : Completion bool :=
  match a with
  | Normal false => b
  | _ => a
  end.

(** [l.some((x, i) => f(x, i))], from index [i] on. *)
Fixpoint some_from {A} (f : A -> nat -> Completion bool) (i : nat) (l : list A)
  : Completion bool :=
  match l with
  | [] => Normal false
  | x :: l' =>
      match f x i with
      | Normal false => some_from f (S i) l'
      | other => other
      end
  end.

Definition some {A} (f : A -> nat -> Completion bool) (l : list A)
  : Completion bool :=
  some_from f 0 l.

(** [xs?.length ?? 0] *)
Definition length_or_0 (xs : option (list string)) : nat :=
  match xs with
  | Some l => length l
  | None => 0
  end.

(** [x !== ys![j]]: indexing [undefined] throws, an index past the end
    reads [undefined]. *)
Definition differs_at (ys : option (list string)) (x : string) (j : nat)
  : Completion bool :=
  match ys with
  | None => Throw TypeError
  | Some l => Normal (negb (strict_eq (Some x) (l !! j)))
  end.

(** [xs?.some((x, j) => x !== ys![j])]; [undefined] is falsy. *)
Definition optional_some_differs (xs ys : option (list string))
  : Completion bool :=
  match xs with
  | None => Normal false
  | Some l => some (differs_at ys) l
  end.

(** The callback of [this.permissions.some((p, i) => ...)]. *)
Definition permission_differs (new_permissions : list DappPermissions)
    (p : DappPermissions) (i : nat) : Completion bool :=
  match new_permissions !! i with
  | None => Throw TypeError
  | Some q =>
      or_else (Normal (negb (length_or_0 (chains p) =? length_or_0 (chains q))))
     (or_else (optional_some_differs (chains p) (chains q))
     (or_else (Normal (negb (length_or_0 (methods p) =? length_or_0 (methods q))))
     (or_else (optional_some_differs (methods p) (methods q))
     (or_else (Normal (negb (length_or_0 (events p) =? length_or_0 (events q))))
              (optional_some_differs (events p) (events q))))))
  end.

Definition permissionsChanged (old new : list DappPermissions)
  : Completion bool :=
  or_else (Normal (negb (length old =? length new)))
          (some (permission_differs new) old).

Definition accountsChanged (old new : list string) : Completion bool :=
  or_else (Normal (negb (length old =? length new)))
          (some (fun a i => Normal (negb (strict_eq (Some a) (new !! i)))) old).

Section Client.
Context {W U : Type}.

Abbreviation St := (State W U).
Abbreviation M := (Runtime.M (W := W) (U := U)).

(** The value of a pure expression that may throw. *)
Definition eval {A} (c : Completion A) : M A := fun st => (st, c).

(** [`azguard:session:${scope}`] *)
Definition storage_key (scope : string) : string := "azguard:session:" +:+ scope.

(** [private constructor(scope)] *)
Definition constructor (scope : string) (e : Env U) (w : W) : St :=
  {| Runtime.scope := scope;
     onConnected := []; onDisconnected := [];
     onAccountsChanged := []; onPermissionsChanged := [];
     rpc := None; session := None; listening := false;
     env := e; wallet := w; trace := [] |}.

(** [connect], up to its [await]: the guard and the request. *)
Definition connect_request (dappMetadata : DappMetadata)
    (requiredPermissions : list DappPermissions)
    (optionalPermissions : option (list DappPermissions)) : M DappSession :=
  r <- gets rpc ;;
  match r with
  | None => throw (Error "Azguard Wallet is not installed")
  | Some rpc =>
      request (ReqConnect dappMetadata requiredPermissions optionalPermissions)
        (request_connect rpc dappMetadata requiredPermissions optionalPermissions)
  end.

(** [connect], from the response on. *)
Definition connect_resume (response : DappSession) : M unit :=
  assign_session (Some response) ;;;
  scope <- gets scope ;;
  localStorage_setItem (storage_key scope) (id response) ;;;
  handlers <- gets onConnected ;;
  dispatch OnConnected (fun _ => NoPayload) handlers tt.

Definition connect (dappMetadata : DappMetadata)
    (requiredPermissions : list DappPermissions)
    (optionalPermissions : option (list DappPermissions)) : M unit :=
  response <- connect_request dappMetadata requiredPermissions optionalPermissions ;;
  connect_resume response.

Definition disconnect : M unit :=
  s <- gets session ;;
  match s with
  | None => ret tt
  | Some s =>
      r <- gets rpc ;;
      match r with
      | None => throw TypeError     (* this.#rpc! is undefined *)
      | Some rpc =>
          request (ReqCloseSession (id s)) (request_close_session rpc (id s))
      end
  end.

Definition execute (operations : list Operation) : M (list OperationResult) :=
  r <- gets rpc ;;
  match r with
  | None => throw (Error "Azguard Wallet is not installed")
  | Some rpc =>
      s <- gets session ;;
      match s with
      | None => throw (Error "Azguard Wallet is not connected")
      | Some s =>
          request (ReqExecute (id s) operations)
            (request_execute rpc (id s) operations)
      end
  end.

Definition getWalletInfo : M WalletInfo :=
  r <- gets rpc ;;
  match r with
  | None => throw (Error "Azguard Wallet is not installed")
  | Some rpc => request ReqGetWalletInfo (request_get_wallet_info rpc)
  end.

Definition onSessionUpdated (session : DappSession) : M unit :=
  old_permissions <- gets permissions ;;
  permissionsChanged <-
    eval (permissionsChanged old_permissions (Types.permissions session)) ;;
  old_accounts <- gets accounts ;;
  accountsChanged <-
    eval (accountsChanged old_accounts (Types.accounts session)) ;;
  assign_session (Some session) ;;;
  (if permissionsChanged : bool then
     payload <- gets permissions ;;
     handlers <- gets onPermissionsChanged ;;
     dispatch OnPermissionsChanged PermissionsPayload handlers payload
   else ret tt) ;;;
  (if accountsChanged : bool then
     payload <- gets accounts ;;
     handlers <- gets onAccountsChanged ;;
     dispatch OnAccountsChanged AccountsPayload handlers payload
   else ret tt).

Definition onSessionClosed : M unit :=
  handlers <- gets onDisconnected ;;
  dispatch OnDisconnected (fun _ => NoPayload) handlers tt ;;;
  assign_session None ;;;
  scope <- gets scope ;;
  localStorage_removeItem (storage_key scope).

(** [#init] once the detection poll has found [window.azguard], up to the
    point where it awaits the stored session (if an identifier is stored). *)
Definition init_detected (packageVersion : string) (azguard : AzguardObject W)
  : M (AzguardRpcClient W * option DappSession) :=
  (if Version.isCompatible packageVersion (version azguard) then ret tt
   else log (Warned "Client version is not compatible with the wallet version")) ;;;
  let client := createClient azguard in
  modify (set_listening true) ;;;
  scope <- gets scope ;;
  sessionId <- localStorage_getItem (storage_key scope) ;;
  session <-
    match sessionId with
    | Some sid =>
        if falsy sessionId then ret None
        else request (ReqGetSession sid) (request_get_session client sid)
    | None => ret None
    end ;;
  ret (client, session).

(** [this.#rpc = client; this.#session = session] *)
Definition init_finish (client : AzguardRpcClient W)
    (session : option DappSession) : M unit :=
  modify (set_rpc (Some client)) ;;;
  assign_session session.

(** [#init], after the detection poll resolved with [azguard]. *)
Definition init (packageVersion : string) (azguard : option (AzguardObject W))
  : M unit :=
  match azguard with
  | Some azguard =>
      awaited <- init_detected packageVersion azguard ;;
      init_finish (fst awaited) (snd awaited)
  | None => ret tt
  end.

(** [AzguardClient.create(scope, timeout)]: [None] while the detection poll
    is pending. *)
Definition create (packageVersion : string) (scope : option string)
    (timeout : Detection.JsNumber)
    (window : nat -> option (AzguardObject W)) (fuel : nat)
    (e : Env U) (w : W) : option (St * Completion unit) :=
  match Detection.getAzguardObject timeout window fuel with
  | Some (_, azguard) =>
      Some (init packageVersion azguard
              (constructor (default "default" scope) e w))
  | None => None
  end.

End Client.

End AzguardClient.

(** ** [src/providers/shieldswap/provider.ts] *)

Module ShieldSwapAzguardProvider.
Import Js Types Runtime Handlers.

(** [.result] of an operation result; an object without the property reads
    [undefined]. *)
Definition result_of (r : OperationResult) : ResultValue :=
  match r with
  | OkResult v => v
  | _ => NoValue
  end.

(** [.encoded] of whatever [.result] holds: a string has no such property,
    and reading a property of [undefined] throws. *)
Definition encoded_of (v : ResultValue) : Completion (option (list (list string))) :=
  match v with
  | SimulatedViews r => Normal (Some (encoded r))
  | TxHash _ => Normal None
  | NoValue => Throw TypeError
  end.

(** [{ kind: "encoded_call", to: x.to, selector: x.selector, args: x.args }] *)
Definition encoded_call (x : SerializedFunctionCall) : EncodedCallAction :=
  {| call_to := to x; call_selector := selector x; call_args := args x |}.

(** The [add_private_authwit] action wrapping an authorization witness. *)
Definition add_private_authwit (x : AuthWitness) : Action :=
  AddPrivateAuthwit
    {| content_caller := caller x;
       content_to := to (action x);
       content_selector := selector (action x);
       content_args := args (action x) |}.

(** The optional permissions requested by [aztec_requestAccounts]. *)
Definition optionalPermissions : list DappPermissions :=
  [ {| chains := Some ["aztec:1337"; "aztec:31337"; "aztec:41337"];
       methods := Some ["send_transaction"; "simulate_views"; "encoded_call";
                        "add_private_authwit"];
       events := None |} ].

Section Provider.
Context {W U : Type}.

Abbreviation St := (State W U).
Abbreviation M := (Runtime.M (W := W) (U := U)).

(** [#accountsChanged = async () => { /* TODO */ }], as a subscriber. *)
Definition accountsChanged_handler (T : Type) (fn : nat) : Handler U T :=
  {| handler_id := fn; handler_body := fun _ _ e => (e, Normal tt) |}.

(** [private constructor(azguard)]; [fn] is the identity of the
    [#accountsChanged] function object. *)
Definition constructor (fn : nat) (azguard : St) : St :=
  set_handlers
    (onConnected azguard)
    (addHandler (accountsChanged_handler unit fn) (onDisconnected azguard))
    (addHandler (accountsChanged_handler (list string) fn)
       (onAccountsChanged azguard))
    (onPermissionsChanged azguard)
    azguard.

Definition aztec_accounts : M (list string) :=
  accounts <- gets accounts ;;
  ret (map (fun x => List.last (split ":" x) "") accounts).

(** [host] is [window.location.host]. *)
Definition aztec_requestAccounts (host : string) : M (list string) :=
  AzguardClient.connect {| name := host |} [] (Some optionalPermissions) ;;;
  aztec_accounts.

Definition aztec_sendTransaction (from : string)
    (calls : list SerializedFunctionCall) (authWitnesses : list AuthWitness)
  : M ResultValue :=
  accounts <- gets accounts ;;
  let account := List.find (fun x => endsWith x from) accounts in
  match account with
  | Some account' =>
      if falsy account then throw (Error "Unauthorized account") else
      let actions :=
        map add_private_authwit authWitnesses
          ++ map (fun x => EncodedCall (encoded_call x)) calls in
      results <- AzguardClient.execute [SendTransaction account' actions] ;;
      match results with
      | result :: _ =>
          if negb (String.eqb (status result) "ok")
          then throw (Error ("Operation failed: " +:+ error_text result))
          else ret (result_of result)
      | [] => throw TypeError     (* result is undefined *)
      end
  | None => throw (Error "Unauthorized account")
  end.

Definition aztec_call (from : string) (calls : list SerializedFunctionCall)
  : M (option (list (list string))) :=
  accounts <- gets accounts ;;
  let account := List.find (fun x => endsWith x from) accounts in
  match account with
  | Some account' =>
      if falsy account then throw (Error "Unauthorized account") else
      let calls := map encoded_call calls in
      results <- AzguardClient.execute [SimulateViews account' calls] ;;
      match results with
      | result :: _ =>
          if negb (String.eqb (status result) "ok")
          then throw (Error ("Simulation failed: " +:+ error_text result))
          else AzguardClient.eval (encoded_of (result_of result))
      | [] => throw TypeError     (* result is undefined *)
      end
  | None => throw (Error "Unauthorized account")
  end.

Definition wallet_watchAssets : M unit := ret tt.

End Provider.

(** A request as [RpcRequest<M>] types it: a method of [RpcRequestMap] with
    the parameters it takes, or, from a caller that went around the types,
    a method name that [RpcRequestMap] does not have. *)
Inductive RpcRequest :=
| Request_aztec_requestAccounts
| Request_aztec_accounts
| Request_aztec_sendTransaction (from : string)
    (calls : list SerializedFunctionCall) (authWitnesses : list AuthWitness)
| Request_aztec_call (from : string) (calls : list SerializedFunctionCall)
| Request_wallet_watchAssets
| Request_other (method : string).

(** [request.method] *)
Definition method_of (r : RpcRequest) : string :=
  match r with
  | Request_aztec_requestAccounts => "aztec_requestAccounts"
  | Request_aztec_accounts => "aztec_accounts"
  | Request_aztec_sendTransaction _ _ _ => "aztec_sendTransaction"
  | Request_aztec_call _ _ => "aztec_call"
  | Request_wallet_watchAssets => "wallet_watchAssets"
  | Request_other method => method
  end.

(** What the promise returned by [request] resolves with. *)
Inductive RpcResult :=
| ResultAccounts (accounts : list string)
| ResultTransaction (hash : ResultValue)
| ResultCall (encoded : option (list (list string)))
| ResultVoid.

(** The keys of the [methods] table. *)
Definition methods : list string :=
  ["aztec_requestAccounts"; "aztec_accounts"; "aztec_sendTransaction";
   "aztec_call"; "wallet_watchAssets"].

(** The [timeout] that [AzguardClient.create], [isAzguardInstalled] and
    [isAzguardInstalledAndCompatible] take when called without one. *)
Definition default_timeout : Detection.JsNumber := Detection.Number 300.

Section Dispatcher.
Context {W U : Type}.

(** [window.location.host] *)
Variable host : string.

(** The [in] operator also finds the properties that the table inherits
    from [Object.prototype]; [inherited] says which names those are, and
    [beyond] is what calling [methods[name]] does for a name that [in]
    finds and [RpcRequestMap] does not type.  Both belong to the JavaScript
    runtime and are parameters here. *)
Variable inherited : string -> bool.
Variable beyond : string -> Runtime.M (W := W) (U := U) RpcResult.

(** [request.method in methods] *)
Definition in_methods (method : string) : bool :=
  existsb (String.eqb method) methods || inherited method.

(** [request(request)] *)
Definition request (r : RpcRequest) : Runtime.M (W := W) (U := U) RpcResult :=
  if negb (in_methods (method_of r)) then throw (Error "Unsupported method")
  else
    match r with
    | Request_aztec_requestAccounts =>
        accounts <- aztec_requestAccounts host ;; ret (ResultAccounts accounts)
    | Request_aztec_accounts =>
        accounts <- aztec_accounts ;; ret (ResultAccounts accounts)
    | Request_aztec_sendTransaction from calls authWitnesses =>
        hash <- aztec_sendTransaction from calls authWitnesses ;;
        ret (ResultTransaction hash)
    | Request_aztec_call from calls =>
        encoded <- aztec_call from calls ;; ret (ResultCall encoded)
    | Request_wallet_watchAssets =>
        wallet_watchAssets ;;; ret ResultVoid
    | Request_other method => beyond method
    end.

End Dispatcher.

(** [ShieldSwapAzguardProvider.create()]: [AzguardClient.create()] with its
    default scope and timeout, then the constructor; [fn] is the identity
    of the provider's [#accountsChanged]. *)
Definition create {W U} (packageVersion : string) (fn : nat)
    (window : nat -> option (AzguardObject W)) (fuel : nat)
    (e : Env U) (w : W) : option (State W U * Completion unit) :=
  match AzguardClient.create packageVersion None default_timeout window fuel e w with
  | Some (azguard, Normal _) => Some (constructor fn azguard, Normal tt)
  | Some (azguard, Throw x) => Some (azguard, Throw x)
  | None => None
  end.

(** [ShieldSwapAzguardProvider.isAzguardInstalled()] *)
Definition isAzguardInstalled {W} (window : nat -> option (AzguardObject W))
    (fuel : nat) : option (nat * bool) :=
  Detection.isAzguardInstalled default_timeout window fuel.

(** [ShieldSwapAzguardProvider.isAzguardInstalledAndCompatible()] *)
Definition isAzguardInstalledAndCompatible {W} (packageVersion : string)
    (window : nat -> option (AzguardObject W)) (fuel : nat)
  : option (nat * bool) :=
  Detection.isAzguardInstalledAndCompatible packageVersion default_timeout
    window fuel.

End ShieldSwapAzguardProvider.

(** ** The life of a client: calls, responses and pushes interleaved *)

Module Lifecycle.
Import Js Types Runtime Handlers.

(** Where [AzguardClient.create] stands. *)
Inductive Phase (W : Type) :=
| Detecting       (* the constructor ran; the detection poll is pending *)
| Restoring (client : AzguardRpcClient W) (response : Completion (option DappSession))
                  (* [#init] awaits the response to [get_session] *)
| Ready           (* the promise of [create] resolved: callers hold the client *)
| Failed.         (* the promise of [create] rejected *)
Arguments Detecting {W}.
Arguments Restoring {W} _ _.
Arguments Ready {W}.
Arguments Failed {W}.

Record System (W U : Type) := {
  client : State W U;
  phase : Phase W;
  connecting : list DappSession;   (* responses that [connect] calls await *)
}.
Arguments client {W U} _.
Arguments phase {W U} _.
Arguments connecting {W U} _.

(** The response that [#init] awaits, out of what [init_detected] returns. *)
Definition awaited_session {W} (c : Completion (AzguardRpcClient W * option DappSession))
  : Completion (option DappSession) :=
  match c with
  | Normal (_, session) => Normal session
  | Throw e => Throw e
  end.

Section Steps.
Context {W U : Type}.
Variable packageVersion : string.

Abbreviation Sys := (System W U).

Definition initial (scope : string) (e : Env U) (w : W) : Sys :=
  {| client := AzguardClient.constructor scope e w;
     phase := Detecting;
     connecting := [] |}.

Inductive step : Sys -> Sys -> Prop :=
(* the poll resolved with undefined: #init returns at once *)
| step_not_found sys :
    phase sys = Detecting ->
    step sys {| client := fst (AzguardClient.init packageVersion None (client sys));
                phase := Ready; connecting := connecting sys |}
(* the poll found window.azguard and no session identifier is stored:
   #init runs to its end without awaiting *)
| step_found_fresh sys azguard st' client' :
    phase sys = Detecting ->
    falsy (localStorage (env (client sys))
             !! AzguardClient.storage_key (scope (client sys))) = true ->
    AzguardClient.init_detected packageVersion azguard (client sys)
      = (st', Normal (client', None)) ->
    step sys {| client := fst (AzguardClient.init_finish client' None st');
                phase := Ready; connecting := connecting sys |}
(* the poll found window.azguard and an identifier is stored: #init
   subscribes, requests the session and awaits the response *)
| step_found_stored sys azguard st' awaited :
    phase sys = Detecting ->
    falsy (localStorage (env (client sys))
             !! AzguardClient.storage_key (scope (client sys))) = false ->
    AzguardClient.init_detected packageVersion azguard (client sys)
      = (st', awaited) ->
    step sys {| client := st';
                phase := Restoring (createClient azguard) (awaited_session awaited);
                connecting := connecting sys |}
(* the response to get_session arrives *)
| step_restored sys client' session :
    phase sys = Restoring client' (Normal session) ->
    step sys {| client := fst (AzguardClient.init_finish client' session (client sys));
                phase := Ready; connecting := connecting sys |}
| step_restore_rejected sys client' e :
    phase sys = Restoring client' (Throw e) ->
    step sys {| client := client sys; phase := Failed;
                connecting := connecting sys |}
(* pushes from the wallet, once the callbacks are registered *)
| step_session_updated sys session :
    listening (client sys) = true ->
    step sys {| client := fst (AzguardClient.onSessionUpdated session (client sys));
                phase := phase sys; connecting := connecting sys |}
| step_session_closed sys :
    listening (client sys) = true ->
    step sys {| client := fst (AzguardClient.onSessionClosed (client sys));
                phase := phase sys; connecting := connecting sys |}
(* calls by the holders of the client *)
| step_connect sys dappMetadata required optional st' completion :
    phase sys = Ready ->
    AzguardClient.connect_request dappMetadata required optional (client sys)
      = (st', completion) ->
    step sys {| client := st'; phase := Ready;
                connecting := match completion with
                              | Normal response => response :: connecting sys
                              | Throw _ => connecting sys
                              end |}
| step_connected sys response rest :
    Permutation (connecting sys) (response :: rest) ->
    step sys {| client := fst (AzguardClient.connect_resume response (client sys));
                phase := phase sys; connecting := rest |}
| step_disconnect sys :
    phase sys = Ready ->
    step sys {| client := fst (AzguardClient.disconnect (client sys));
                phase := Ready; connecting := connecting sys |}
| step_execute sys operations :
    phase sys = Ready ->
    step sys {| client := fst (AzguardClient.execute operations (client sys));
                phase := Ready; connecting := connecting sys |}
| step_getWalletInfo sys :
    phase sys = Ready ->
    step sys {| client := fst (AzguardClient.getWalletInfo (client sys));
                phase := Ready; connecting := connecting sys |}
(* subscribers come and go: addHandler and removeHandler on the four
   registries the client exposes *)
| step_onConnected sys c :
    phase sys = Ready ->
    step sys {| client :=
                  set_handlers
                    (apply_call (onConnected (client sys)) c)
                    (onDisconnected (client sys))
                    (onAccountsChanged (client sys))
                    (onPermissionsChanged (client sys))
                    (client sys);
                phase := Ready; connecting := connecting sys |}
| step_onDisconnected sys c :
    phase sys = Ready ->
    step sys {| client :=
                  set_handlers
                    (onConnected (client sys))
                    (apply_call (onDisconnected (client sys)) c)
                    (onAccountsChanged (client sys))
                    (onPermissionsChanged (client sys))
                    (client sys);
                phase := Ready; connecting := connecting sys |}
| step_onAccountsChanged sys c :
    phase sys = Ready ->
    step sys {| client :=
                  set_handlers
                    (onConnected (client sys))
                    (onDisconnected (client sys))
                    (apply_call (onAccountsChanged (client sys)) c)
                    (onPermissionsChanged (client sys))
                    (client sys);
                phase := Ready; connecting := connecting sys |}
| step_onPermissionsChanged sys c :
    phase sys = Ready ->
    step sys {| client :=
                  set_handlers
                    (onConnected (client sys))
                    (onDisconnected (client sys))
                    (onAccountsChanged (client sys))
                    (apply_call (onPermissionsChanged (client sys)) c)
                    (client sys);
                phase := Ready; connecting := connecting sys |}
(* the page and the wallet act on their own state *)
| step_world sys e w :
    step sys {| client := set_wallet w (set_env e (client sys));
                phase := phase sys; connecting := connecting sys |}.

(** The systems a run can reach from a fresh [create]. *)
Inductive reachable : Sys -> Prop :=
| reachable_initial scope e w : reachable (initial scope e w)
| reachable_step sys sys' : reachable sys -> step sys sys' -> reachable sys'.

(** The part of the client's state the invariant speaks of: the stored
    session, whether a channel is bound, whether the callbacks are
    registered. *)
Definition core (st : State W U) : option DappSession * bool * bool :=
  (session st, bool_decide (is_Some (rpc st)), listening st).

Definition invariant_core (c : option DappSession * bool * bool)
    (ph : Phase W) (pending : list DappSession) : Prop :=
  let '(s, bound, l) := c in
  (is_Some s -> l = true)
  /\ (l = true -> ph = Ready -> bound = true)
  /\ (pending <> [] -> bound = true)
  /\ (bound = true -> l = true)
  /\ (ph = Detecting -> l = false)
  /\ (forall ch r, ph = Restoring ch r -> l = true /\ bound = false).

(** What holds of every system a run reaches. *)
Definition invariant (sys : Sys) : Prop :=
  invariant_core (core (client sys)) (phase sys) (connecting sys).

End Steps.

End Lifecycle.

(** ** The specification's wording of the reconciliation comparisons *)

Module Spec.
Import Types.

(** The elements of an optional list; an absent list has none. *)
Definition listed (xs : option (list string)) : list string :=
  match xs with
  | Some l => l
  | None => []
  end.




(** The same comparisons as decisions. *)
Definition grants_differb (p q : DappPermissions) : bool :=
  negb (bool_decide (listed (chains p) = listed (chains q)))
  || negb (bool_decide (listed (methods p) = listed (methods q)))
  || negb (bool_decide (listed (events p) = listed (events q))).

Definition permissions_differb (old new : list DappPermissions) : bool :=
  negb (length old =? length new)
  || existsb (fun pq => grants_differb (fst pq) (snd pq)) (combine old new).

End Spec.

(** ** A page, a wallet and two subscribers to run the client on *)

Module Demo.
Import Js Types Runtime Handlers.

Definition grant : DappPermissions :=
  {| chains := Some ["aztec:1337"];
     methods := Some ["send_transaction"; "simulate_views"];
     events := None |}.

Definition alice : string := "aztec:1337:0xabc".
Definition bob : string := "aztec:1337:0xdef".

Definition session1 : DappSession :=
  {| id := "session-1"; Types.accounts := [alice; bob];
     Types.permissions := [grant] |}.

(** The session after the wallet's user withdrew the second account. *)
Definition session2 : DappSession :=
  {| id := "session-1"; Types.accounts := [alice];
     Types.permissions := [grant] |}.

Definition views : SimulateViewsResult :=
  {| encoded := [["0x64"]]; decoded := [DBigInt 100] |}.

(** The wallet answers every operation of a batch; its state counts the
    requests it has served. *)
Definition answer (op : Operation) : OperationResult :=
  match op with
  | SendTransaction _ _ => OkResult (TxHash "0xhash")
  | SimulateViews _ _ => OkResult (SimulatedViews views)
  | OtherOperation _ => OkResult NoValue
  end.

Definition channel : AzguardRpcClient nat :=
  {| request_connect := fun _ _ _ n => (S n, Fulfilled session1);
     request_close_session := fun _ n => (S n, Fulfilled tt);
     request_execute := fun _ ops n => (S n, Fulfilled (map answer ops));
     request_get_wallet_info := fun n => (S n, Fulfilled {| info := "azguard" |});
     request_get_session := fun sid n =>
       (S n, Fulfilled (if String.eqb sid "session-1" then Some session1
                        else None)) |}.

Definition azguard : AzguardObject nat :=
  {| version := "1.2.9"; createClient := channel |}.

(** A wallet whose every operation fails. *)
Definition failing_channel : AzguardRpcClient nat :=
  {| request_connect := request_connect channel;
     request_close_session := request_close_session channel;
     request_execute := fun _ ops n =>
       (S n, Fulfilled (map (fun _ => FailedResult "reverted") ops));
     request_get_wallet_info := request_get_wallet_info channel;
     request_get_session := request_get_session channel |}.

(** The subscribers' state: the values of [connected] they saw. *)
Definition page : Env (list bool) := {| localStorage := ∅; user := [] |}.

Definition page_with_session : Env (list bool) :=
  {| localStorage := {[ "azguard:session:default" := "session-1" ]}; user := [] |}.

(** The storage of a page that connected in an earlier visit, to a session
    the wallet has closed since. *)
Definition page_with_stale_session : Env (list bool) :=
  {| localStorage := {[ "azguard:session:default" := "session-0" ]}; user := [] |}.

(** A subscriber that notes [client.connected] when it is called. *)
Definition snapshot {T} (fn : nat) : Handler (list bool) T :=
  {| handler_id := fn;
     handler_body := fun _ view e =>
       ({| localStorage := localStorage e;
           user := user e ++ [view_connected view] |}, Normal tt) |}.

(** A subscriber that throws. *)
Definition faulty {T} (fn : nat) : Handler (list bool) T :=
  {| handler_id := fn;
     handler_body := fun _ _ e => (e, Throw (Error "boom")) |}.

(** A client that [create] found the wallet for and that then connected. *)
Definition connected_client : State nat (list bool) :=
  fst (AzguardClient.connect {| name := "dapp" |} [grant] None
         (fst (AzguardClient.init "1.2.0" (Some azguard)
                 (AzguardClient.constructor "default" page 0)))).

(** The same client with a subscriber to the disconnected event. *)
Definition watched_client : State nat (list bool) :=
  set_handlers [] [snapshot 7] [] [] connected_client.

(** A callback that unsubscribes the callback of identity 2, and a
    callback of that identity that counts its invocations. *)
Definition remover : LiveSet.Callback nat unit :=
  LiveSet.callback 1 (fun _ n => (n, Normal tt, [LiveSet.RemoveHandler 2])).

Definition counter : LiveSet.Callback nat unit :=
  LiveSet.callback 2 (fun _ n => (S n, Normal tt, [])).

(** A page on which the wallet's content script has injected
    [window.azguard] by the third firing of the poll. *)
Definition late_window (k : nat) : option (AzguardObject nat) :=
  if k <? 3 then None else Some azguard.

(** A callback that counts and unsubscribes itself, and a callback that
    subscribes the counting callback. *)
Definition once : LiveSet.Callback nat unit :=
  LiveSet.callback 4 (fun _ n => (S n, Normal tt, [LiveSet.RemoveHandler 4])).

Definition adder : LiveSet.Callback nat unit :=
  LiveSet.callback 5 (fun _ n => (n, Normal tt, [LiveSet.AddHandler counter])).

(** A callback that throws, after counting. *)
Definition thrower : LiveSet.Callback nat unit :=
  LiveSet.callback 3 (fun _ n => (S n, Throw (Error "boom"), [])).

(** A run in which [create] finds the wallet and an identifier in the
    storage, and the wallet pushes [session_updated] while [#init] awaits
    the stored session. *)
Definition restoring_0 : Lifecycle.System nat (list bool) :=
  Lifecycle.initial "default" page_with_session 0.

Definition restoring_1 : Lifecycle.System nat (list bool) :=
  {| Lifecycle.client :=
       fst (AzguardClient.init_detected "1.2.0" azguard
              (Lifecycle.client restoring_0));
     Lifecycle.phase :=
       Lifecycle.Restoring (createClient azguard)
         (Lifecycle.awaited_session
            (snd (AzguardClient.init_detected "1.2.0" azguard
                    (Lifecycle.client restoring_0))));
     Lifecycle.connecting := Lifecycle.connecting restoring_0 |}.

Definition restoring_system : Lifecycle.System nat (list bool) :=
  {| Lifecycle.client :=
       fst (AzguardClient.onSessionUpdated session1
              (Lifecycle.client restoring_1));
     Lifecycle.phase := Lifecycle.phase restoring_1;
     Lifecycle.connecting := Lifecycle.connecting restoring_1 |}.

(** A run in which [create] finds the wallet and nothing in the storage,
    and the page then connects. *)
Definition ready_0 : Lifecycle.System nat (list bool) :=
  Lifecycle.initial "default" page 0.

Definition ready_1 : Lifecycle.System nat (list bool) :=
  {| Lifecycle.client :=
       fst (AzguardClient.init_finish channel None
              (fst (AzguardClient.init_detected "1.2.0" azguard
                      (Lifecycle.client ready_0))));
     Lifecycle.phase := Lifecycle.Ready;
     Lifecycle.connecting := Lifecycle.connecting ready_0 |}.

Definition ready_2 : Lifecycle.System nat (list bool) :=
  {| Lifecycle.client :=
       fst (AzguardClient.connect_request {| name := "dapp" |} [grant] None
              (Lifecycle.client ready_1));
     Lifecycle.phase := Lifecycle.Ready;
     Lifecycle.connecting := session1 :: Lifecycle.connecting ready_1 |}.

Definition ready_system : Lifecycle.System nat (list bool) :=
  {| Lifecycle.client :=
       fst (AzguardClient.connect_resume session1 (Lifecycle.client ready_2));
     Lifecycle.phase := Lifecycle.phase ready_2;
     Lifecycle.connecting := [] |}.

(** A run in which the wallet's user withdraws the second account while
    [#init] awaits the stored session, and the response, which the wallet
    had sent before, arrives afterwards. *)
Definition pushed_system : Lifecycle.System nat (list bool) :=
  {| Lifecycle.client :=
       fst (AzguardClient.onSessionUpdated session2
              (Lifecycle.client restoring_1));
     Lifecycle.phase := Lifecycle.phase restoring_1;
     Lifecycle.connecting := Lifecycle.connecting restoring_1 |}.

Definition restored_system : Lifecycle.System nat (list bool) :=
  {| Lifecycle.client :=
       fst (AzguardClient.init_finish channel (Some session1)
              (Lifecycle.client pushed_system));
     Lifecycle.phase := Lifecycle.Ready;
     Lifecycle.connecting := Lifecycle.connecting pushed_system |}.

(** The wallet then closes the session. *)
Definition closed_system : Lifecycle.System nat (list bool) :=
  {| Lifecycle.client :=
       fst (AzguardClient.onSessionClosed (Lifecycle.client ready_system));
     Lifecycle.phase := Lifecycle.phase ready_system;
     Lifecycle.connecting := Lifecycle.connecting ready_system |}.

(** A run in which [create] finds no wallet; the page calls [execute] all
    the same, and then subscribes to the connected event. *)
Definition idle_0 : Lifecycle.System nat (list bool) :=
  {| Lifecycle.client :=
       fst (AzguardClient.init "1.2.0" None
              (AzguardClient.constructor "default" page 0));
     Lifecycle.phase := Lifecycle.Ready;
     Lifecycle.connecting := [] |}.

Definition idle_1 : Lifecycle.System nat (list bool) :=
  {| Lifecycle.client :=
       fst (AzguardClient.execute [OtherOperation "register_contract"]
              (Lifecycle.client idle_0));
     Lifecycle.phase := Lifecycle.Ready;
     Lifecycle.connecting := Lifecycle.connecting idle_0 |}.

Definition idle_2 : Lifecycle.System nat (list bool) :=
  {| Lifecycle.client :=
       set_handlers
         (apply_call (onConnected (Lifecycle.client idle_1)) (Add (snapshot 1)))
         (onDisconnected (Lifecycle.client idle_1))
         (onAccountsChanged (Lifecycle.client idle_1))
         (onPermissionsChanged (Lifecycle.client idle_1))
         (Lifecycle.client idle_1);
     Lifecycle.phase := Lifecycle.Ready;
     Lifecycle.connecting := Lifecycle.connecting idle_1 |}.

End Demo.

(** ** What a run shows from outside *)

Module Observations.
Import Js Types Runtime.

(** The requests that reached the channel, in order. *)
Fixpoint requests_of (t : list Effect) : list Request :=
  match t with
  | [] => []
  | Requested r :: rest => r :: requests_of rest
  | _ :: rest => requests_of rest
  end.

(** The warnings written to the console, in order. *)
Fixpoint warnings_of (t : list Effect) : list string :=
  match t with
  | [] => []
  | Warned message :: rest => message :: warnings_of rest
  | _ :: rest => warnings_of rest
  end.

(** The subscribers in [handlers] do not write to [localStorage]. *)
Definition keep_storage {U T} (handlers : EventHandlers U T) : Prop :=
  Forall (fun h => forall payload view e,
            localStorage (fst (handler_body h payload view e)) = localStorage e)
    handlers.

(** The client once [#init] has found the wallet, warned if the versions
    do not match, and registered its two callbacks with the channel. *)
Definition subscribed {W U} (packageVersion : string)
    (azguard : AzguardObject W) (st : State W U) : State W U :=
  set_listening true
    (set_trace
       (trace st
          ++ (if Version.isCompatible packageVersion (version azguard) then []
              else [Warned "Client version is not compatible with the wallet version"]))
       st).

(** The poll's deadline: the firing at which it gives up when nothing is
    in sight until then, or none when it never gives up. *)
Definition deadline (timeout : Detection.JsNumber) (last : option nat) : Prop :=
  match last with
  | Some n => Detection.gives_up_at timeout n
  | None => Detection.never_gives_up timeout
  end.

(** A client that has not been in touch with a wallet: no channel, no
    session, no callbacks registered with a channel, nothing done. *)
Definition idle {W U} (st : State W U) : Prop :=
  rpc st = None /\ session st = None /\ listening st = false /\ trace st = [].

(** A page load: a client constructed for [scope] over the storage [stored]
    and run through [#init] with the wallet found. *)
Definition reload {W U} (packageVersion : string) (azguard : AzguardObject W)
    (scope : string) (stored : gmap string string) (u : U) (w : W)
  : State W U * Completion unit :=
  AzguardClient.init packageVersion (Some azguard)
    (AzguardClient.constructor scope {| localStorage := stored; user := u |} w).

(** The exceptions that a request typed by [RpcRequestMap] can end with:
    the adapter's own "Unauthorized account", "Operation failed: ..." and
    "Simulation failed: ...", the core's "not installed", a [TypeError]
    from reading a result that is not there, and what the channel
    rejects with. *)
Definition adapter_error (e : Exn) : Prop :=
  match e with
  | Error message =>
      message = "Unauthorized account"
      \/ message = "Azguard Wallet is not installed"
      \/ (exists detail, message = "Operation failed: " +:+ detail)
      \/ (exists detail, message = "Simulation failed: " +:+ detail)
  | TypeError => True
  | Rejected _ => True
  end.

(** The chain-qualified identifier of an address: namespace, chain
    reference and address, joined by colons. *)
Definition qualified (namespace reference address : string) : string :=
  namespace +:+ ":" +:+ reference +:+ ":" +:+ address.

End Observations.

(** ** Theorems *)

(** *** Strings *)

Section JsFacts.
Import Js.

Lemma split_app_sep sep a rest :
  free_of sep a = true ->
  split sep (a +:+ String sep rest) = a :: split sep rest.
Proof.
  induction a as [|c a IH]; simpl; intros Hfree.
  - now rewrite Ascii.eqb_refl.
  - apply andb_true_iff in Hfree as [Hc Ha].
    apply negb_true_iff in Hc. rewrite Hc, (IH Ha). reflexivity.
Qed.

Lemma split_free sep a : free_of sep a = true -> split sep a = [a].
Proof.
  induction a as [|c a IH]; simpl; intros Hfree; [reflexivity|].
  apply andb_true_iff in Hfree as [Hc Ha].
  apply negb_true_iff in Hc. rewrite Hc, (IH Ha). reflexivity.
Qed.

Lemma split_join sep segs :
  segs <> [] -> Forall (fun a => free_of sep a = true) segs ->
  split sep (join sep segs) = segs.
Proof.
  induction segs as [|a segs IH]; intros Hne Hall; [congruence|].
  inversion Hall as [|? ? Ha Hrest]; subst.
  destruct segs as [|b segs].
  - simpl. now apply split_free.
  - change (join sep (a :: b :: segs))
      with (a +:+ String sep (join sep (b :: segs))).
    rewrite split_app_sep by assumption.
    rewrite IH; [reflexivity|discriminate|assumption].
Qed.

Lemma strict_eq_true a b : strict_eq a b = true <-> a = b.
Proof. unfold strict_eq. apply bool_decide_eq_true. Qed.

Lemma substring_all s : substring 0 (String.length s) s = s.
Proof. induction s as [|c s IH]; simpl; [reflexivity|now rewrite IH]. Qed.

Lemma substring_after p s :
  substring (String.length p) (String.length s) (p +:+ s) = s.
Proof. induction p as [|c p IH]; simpl; [apply substring_all|exact IH]. Qed.

Lemma string_length_app p s :
  String.length (p +:+ s) = String.length p + String.length s.
Proof. induction p as [|c p IH]; simpl; [reflexivity|now rewrite IH]. Qed.

Lemma substring_split n x :
  n <= String.length x ->
  x = substring 0 n x +:+ substring n (String.length x - n) x.
Proof.
  revert n; induction x as [|c x IH]; intros [|n] Hn; simpl in *;
    try reflexivity; try lia.
  - now rewrite substring_all.
  - change (String c x = String c (substring 0 n x
                           +:+ substring n (String.length x - n) x)).
    f_equal. apply IH. lia.
Qed.

(** [endsWith] is the suffix relation. *)
Lemma endsWith_spec x s :
  endsWith x s = true <-> exists p, x = p +:+ s.
Proof.
  unfold endsWith. split.
  - destruct (Nat.leb_spec (String.length s) (String.length x)) as [Hle|Hlt];
      [|discriminate].
    intros Heq. apply String.eqb_eq in Heq.
    exists (substring 0 (String.length x - String.length s) x).
    etransitivity;
      [apply (substring_split (String.length x - String.length s)); lia|].
    f_equal.
    replace (String.length x - (String.length x - String.length s))
      with (String.length s) by lia.
    exact Heq.
  - intros [p ->]. rewrite string_length_app.
    destruct (Nat.leb_spec (String.length s) (String.length p + String.length s))
      as [_|Hlt]; [|lia].
    replace (String.length p + String.length s - String.length s)
      with (String.length p) by lia.
    rewrite substring_after. apply String.eqb_refl.
Qed.

Lemma endsWith_empty x : endsWith x "" = true.
Proof.
  apply endsWith_spec. exists x.
  induction x as [|c x IH]; [reflexivity|].
  change (String c x = String c (x +:+ "")). now f_equal.
Qed.

Lemma endsWith_nonempty x s : endsWith x s = true -> s <> "" -> x <> "".
Proof.
  intros H Hs ->. apply endsWith_spec in H as [p Hp].
  destruct p as [|c p]; [change ("" = s) in Hp; congruence|].
  change ("" = String c (p +:+ s)) in Hp. discriminate.
Qed.

End JsFacts.

(** *** The compatibility check *)

Section VersionFacts.
Import Js Version.

(** C7. [isCompatible] is a function of the two version strings alone, and
    it holds exactly when the first and the second dot-separated segment of
    the remote version equal, as strings, those of the client's own version
    (a missing segment equals only a missing segment).  Further segments
    play no part, and no segment is read as a number: for the client
    version 1.2.0 the remote 1.2.9 is compatible and 1.02.9 is not; for the
    client version 1.3.0 the remote 1.2.9 is not. *)
Theorem isCompatible_first_two_segments :
  (forall own remote,
      isCompatible own remote = true <->
      split "." remote !! 0 = split "." own !! 0
      /\ split "." remote !! 1 = split "." own !! 1)
  /\ (forall major minor rest major' minor' rest',
        Forall (fun a => free_of "." a = true) (major :: minor :: rest) ->
        Forall (fun a => free_of "." a = true) (major' :: minor' :: rest') ->
        (isCompatible (join "." (major :: minor :: rest))
                      (join "." (major' :: minor' :: rest')) = true
         <-> major' = major /\ minor' = minor))
  /\ isCompatible "1.2.0" "1.2.9" = true
  /\ isCompatible "1.3.0" "1.2.9" = false
  /\ isCompatible "1.2.0" "1.02.9" = false.
Proof.
  assert (Hiff : forall own remote,
      isCompatible own remote = true <->
      split "." remote !! 0 = split "." own !! 0
      /\ split "." remote !! 1 = split "." own !! 1).
  { intros own remote. unfold isCompatible.
    rewrite andb_true_iff, !strict_eq_true. reflexivity. }
  split; [exact Hiff|]. split; [|repeat split; reflexivity].
  intros major minor rest major' minor' rest' Hown Hremote.
  rewrite Hiff, !split_join by (assumption || discriminate).
  simpl. split.
  - intros [H0 H1]. split; congruence.
  - intros [-> ->]. split; reflexivity.
Qed.

Lemma isCompatible_first_two_segments_witness :
  isCompatible (join "." ["1"; "2"; "0"]) (join "." ["1"; "2"; "9"; "beta"]) = true.
Proof.
  apply (proj1 (proj2 isCompatible_first_two_segments)
           "1" "2" ["0"] "1" "2" ["9"; "beta"]).
  - repeat constructor.
  - repeat constructor.
  - split; reflexivity.
Defined.

End VersionFacts.

(** *** Double arithmetic on the numbers below 2^53 *)

Section FloatFacts.
Import SpecFloat Detection.
Local Open Scope Z_scope.

Lemma digits2_pos_size p : digits2_pos p = Pos.size p.
Proof. induction p; cbn; congruence. Qed.

Lemma iter_pos_iter {A} (f : A -> A) p : forall x, iter_pos f p x = Pos.iter f x p.
Proof.
  induction p as [p IH|p IH|]; intros x; cbn; [|now rewrite !IH|reflexivity].
  now rewrite !IH, <- !Pos.iter_swap.
Qed.

Lemma size_iter_xO m q : Pos.size (Pos.iter xO m q) = (Pos.size m + q)%positive.
Proof.
  induction q as [|q IH] using Pos.peano_ind.
  - cbn. lia.
  - rewrite Pos.iter_succ. cbn. rewrite IH. lia.
Qed.

Lemma Zpos_iter_xO m q : Zpos (Pos.iter xO m q) = Zpos m * 2 ^ Zpos q.
Proof.
  induction q as [|q IH] using Pos.peano_ind.
  - cbn. lia.
  - rewrite Pos.iter_succ, Pos2Z.inj_succ, Z.pow_succ_r by lia.
    rewrite Pos2Z.inj_xO, IH. lia.
Qed.

Lemma shr_trailing_zeros m q :
  Pos.iter shr_1 {| shr_m := Zpos (Pos.iter xO m q); shr_r := false; shr_s := false |} q
  = {| shr_m := Zpos m; shr_r := false; shr_s := false |}.
Proof.
  induction q as [|q IH] using Pos.peano_ind.
  - reflexivity.
  - rewrite Pos.iter_succ_r. rewrite Pos.iter_succ. cbn [shr_1 orb]. exact IH.
Qed.

Lemma fexp_normal e : -1021 <= e -> fexp prec emax e = e - 53.
Proof. unfold fexp, emin, prec, emax. lia. Qed.

Lemma fexp_bounds e : fexp prec emax e = Z.max (e - 53) (-1074).
Proof. reflexivity. Qed.

Lemma shr_none mrs e n : n <= 0 -> shr mrs e n = (mrs, e).
Proof. destruct n; [reflexivity|lia|reflexivity]. Qed.

Lemma size_bound m : Zpos m < 2 ^ 53 -> Zpos (Pos.size m) <= 53.
Proof.
  intros Hm. pose proof (Pos.size_le m) as Hle.
  apply Pos2Z.pos_le_pos in Hle. rewrite Pos2Z.inj_pow, (Pos2Z.inj_xO m) in Hle.
  destruct (Z.le_gt_cases (Zpos (Pos.size m)) 53) as [|Hgt]; [assumption|].
  assert (H : 2 ^ 54 <= 2 ^ Zpos (Pos.size m)) by (apply Z.pow_le_mono_r; lia).
  change (2 ^ 54) with (2 * 2 ^ 53) in H. lia.
Qed.

Lemma size_bound_inv m : Zpos (Pos.size m) <= 53 -> Zpos m < 2 ^ 53.
Proof.
  intros Hsize. pose proof (Pos.size_gt m) as Hgt.
  apply Pos2Z.pos_lt_pos in Hgt. rewrite Pos2Z.inj_pow in Hgt.
  assert (2 ^ Zpos (Pos.size m) <= 2 ^ 53) by (apply Z.pow_le_mono_r; lia).
  lia.
Qed.

(** A significand that needs no shift stays as it is. *)
Lemma binary_round_aux_exact s M E :
  fexp prec emax (Zpos (Pos.size M) + E) <= E -> E <= 971 ->
  binary_round_aux prec emax s (Zpos M) E loc_Exact = S754_finite s M E.
Proof.
  intros Hfexp Hhigh. unfold binary_round_aux, shr_fexp.
  cbn [Zdigits2 shr_record_of_loc]. rewrite digits2_pos_size.
  rewrite shr_none by lia.
  cbn [shr_m loc_of_shr_record round_nearest_even Zdigits2 shr_record_of_loc].
  rewrite digits2_pos_size.
  rewrite shr_none by lia. cbn [shr_m].
  unfold emax, prec. destruct (Z.leb_spec E (1024 - 53)); [reflexivity|lia].
Qed.

Lemma binary_round_aux_small s M E :
  Zpos (Pos.size M) <= 53 -> -1021 <= Zpos (Pos.size M) + E -> E <= 971 ->
  binary_round_aux prec emax s (Zpos M) E loc_Exact = S754_finite s M E.
Proof.
  intros Hsize Hlow Hhigh. apply binary_round_aux_exact; [|exact Hhigh].
  rewrite fexp_normal by lia. lia.
Qed.

(** Zeros beyond 53 bits are shifted out without rounding. *)
Lemma binary_round_aux_shift s M p E :
  Zpos (Pos.size M) = 53 -> -1021 <= 53 + Zpos p + E -> E + Zpos p <= 971 ->
  binary_round_aux prec emax s (Zpos (Pos.iter xO M p)) E loc_Exact
  = S754_finite s M (E + Zpos p).
Proof.
  intros Hsize Hlow Hhigh. unfold binary_round_aux, shr_fexp.
  cbn [Zdigits2 shr_record_of_loc]. rewrite digits2_pos_size, size_iter_xO.
  rewrite fexp_normal by lia.
  replace (Zpos (Pos.size M + p) + E - 53 - E) with (Zpos p) by lia.
  cbn [shr]. rewrite iter_pos_iter, shr_trailing_zeros.
  cbn [shr_m loc_of_shr_record round_nearest_even Zdigits2 shr_record_of_loc].
  rewrite digits2_pos_size, fexp_normal by lia.
  rewrite shr_none by lia. cbn [shr_m].
  unfold emax, prec. destruct (Z.leb_spec (E + Zpos p) (1024 - 53)); [reflexivity|lia].
Qed.

(** A valid finite number is the number nearest to its own value. *)
Lemma binary_round_valid s M E :
  valid_binary prec emax (S754_finite s M E) = true ->
  binary_round prec emax s M E = S754_finite s M E.
Proof.
  cbn [valid_binary]. unfold bounded, canonical_mantissa.
  rewrite andb_true_iff, Z.eqb_eq, Z.leb_le, digits2_pos_size.
  intros [Hcanonical Hhigh].
  unfold binary_round, shl_align. rewrite digits2_pos_size, Hcanonical, Z.sub_diag.
  apply binary_round_aux_exact; [lia|]. unfold emax, prec in Hhigh. lia.
Qed.

Lemma valid_bounds s M E :
  valid_binary prec emax (S754_finite s M E) = true ->
  Zpos M < 2 ^ 53 /\ -1074 <= E.
Proof.
  cbn [valid_binary]. unfold bounded, canonical_mantissa.
  rewrite andb_true_iff, Z.eqb_eq, Z.leb_le, digits2_pos_size, fexp_bounds.
  intros [Hcanonical _]. split; [apply size_bound_inv|]; lia.
Qed.

(** [m * 2^q] at exponent [e - q] rounds to what [m] at exponent [e]
    rounds to, for [m] of at most 53 bits. *)
Lemma binary_round_shift s m q e :
  Zpos (Pos.size m) <= 53 -> Zpos q <= 1100 -> -1000 <= e <= 0 ->
  binary_round prec emax s (Pos.iter xO m q) (e - Zpos q)
  = binary_round prec emax s m e.
Proof.
  intros Hsize Hq He. unfold binary_round, shl_align.
  rewrite (digits2_pos_size m), (digits2_pos_size (Pos.iter xO m q)).
  rewrite size_iter_xO, !fexp_normal by lia.
  destruct (Zpos (Pos.size m) + e - 53 - e) as [|r|r] eqn:Hr; [|lia|].
  - (* m has 53 bits *)
    destruct (Zpos (Pos.size m + q) + (e - Zpos q) - 53 - (e - Zpos q))
      as [|p|p] eqn:Hp; try lia.
    assert (p = q) as -> by lia.
    rewrite binary_round_aux_shift by lia.
    rewrite binary_round_aux_small by lia.
    f_equal; lia.
  - (* m has fewer bits: r = 53 - size m *)
    destruct (Zpos (Pos.size m + q) + (e - Zpos q) - 53 - (e - Zpos q))
      as [|p|p] eqn:Hp.
    + (* q = r *)
      assert (q = r) as -> by lia.
      rewrite !binary_round_aux_small by (rewrite ?size_iter_xO; lia).
      f_equal; lia.
    + (* q = p + r *)
      assert (q = (p + r)%positive) as -> by lia.
      rewrite Pos.iter_add.
      rewrite binary_round_aux_shift by (rewrite ?size_iter_xO; lia).
      rewrite binary_round_aux_small by (rewrite ?size_iter_xO; lia).
      f_equal; lia.
    + (* q + p = r *)
      assert (r = (p + q)%positive) as -> by lia.
      rewrite <- Pos.iter_add.
      rewrite !binary_round_aux_small by (rewrite ?size_iter_xO; lia).
      f_equal; lia.
Qed.

(** An integer of at most 53 bits, scaled by a power of two and taken at
    an exponent that much lower, is the same number. *)
Lemma binary_normalize_scaled z j e :
  0 <= j <= 1100 -> Z.abs z < 2 ^ 53 -> -1000 <= e <= 0 ->
  binary_normalize prec emax (z * 2 ^ j) (e - j) false
  = binary_normalize prec emax z e false.
Proof.
  intros Hj Hz He.
  destruct j as [|q|q]; [now rewrite Z.mul_1_r, Z.sub_0_r| |lia].
  destruct z as [|m|m]; [reflexivity| |].
  - rewrite <- Zpos_iter_xO. cbn [binary_normalize].
    apply binary_round_shift; [apply size_bound| |]; lia.
  - rewrite <- (Pos2Z.opp_pos m), Z.mul_opp_l, <- Zpos_iter_xO.
    cbn [binary_normalize Z.opp].
    apply binary_round_shift; [apply size_bound| |]; lia.
Qed.

(** The number nearest to [z * 2^e], for a non-zero [z] of at most 53 bits
    and an exponent from -1074 to 0, is that value: its sign, and a
    significand and an exponent that give the magnitude back. *)
Lemma binary_normalize_finite z e :
  z <> 0 -> Z.abs z < 2 ^ 53 -> -1074 <= e <= 0 ->
  exists M E,
    binary_normalize prec emax z e false = S754_finite (z <? 0) M E
    /\ -1074 <= E <= e /\ Zpos M = Z.abs z * 2 ^ (e - E).
Proof.
  intros Hz Hbound He.
  assert (H : forall s m, Zpos m < 2 ^ 53 ->
            exists M E, binary_round prec emax s m e = S754_finite s M E
                        /\ -1074 <= E <= e /\ Zpos M = Zpos m * 2 ^ (e - E)).
  { intros s m Hm. apply size_bound in Hm.
    unfold binary_round, shl_align.
    rewrite (digits2_pos_size m).
    pose proof (fexp_bounds (Zpos (Pos.size m) + e)) as Hf.
    destruct (fexp prec emax (Zpos (Pos.size m) + e) - e) as [|r|r] eqn:Hr; [|lia|].
    - exists m, e. rewrite binary_round_aux_exact by lia.
      split; [reflexivity|]. split; [lia|]. rewrite Z.sub_diag. cbn. lia.
    - exists (Pos.iter xO m r), (fexp prec emax (Zpos (Pos.size m) + e)).
      rewrite binary_round_aux_exact.
      + split; [reflexivity|]. split; [lia|].
        rewrite Zpos_iter_xO. do 2 f_equal. lia.
      + rewrite size_iter_xO.
        replace (Zpos (Pos.size m + r) + fexp prec emax (Zpos (Pos.size m) + e))
          with (Zpos (Pos.size m) + e) by lia.
        lia.
      + lia. }
  destruct z as [|m|m]; [congruence| |].
  - apply (H false m). exact Hbound.
  - apply (H true m). exact Hbound.
Qed.

Lemma shl_align_value mx ex ez :
  ez <= ex -> Zpos (fst (shl_align mx ex ez)) = Zpos mx * 2 ^ (ex - ez).
Proof.
  intros Hle. unfold shl_align.
  destruct (ez - ex) as [|d|d] eqn:Hd; [|lia|]; cbn [fst].
  - replace (ex - ez) with 0 by lia. lia.
  - rewrite Zpos_iter_xO. do 2 f_equal. lia.
Qed.

(** What [rest -= 10] computes on a positive finite number: the number
    nearest to the difference, both operands taken at the smaller of the
    two exponents. *)
Lemma minus10_finite M E :
  minus10 (S754_finite false M E)
  = binary_normalize prec emax
      (Zpos M * 2 ^ (E - Z.min E (-49)) - 10 * 2 ^ (- Z.min E (-49)))
      (Z.min E (-49)) false.
Proof.
  unfold minus10.
  change (Number 10) with (S754_finite false 5629499534213120 (-49)).
  cbn [SFsub cond_Zopp].
  rewrite !shl_align_value by lia.
  change 5629499534213120 with (10 * 2 ^ 49).
  rewrite <- Z.mul_assoc, <- Z.pow_add_r by lia.
  do 4 f_equal. lia.
Qed.

(** [rest -= 10] is exact on the positive numbers below 2^53 that are at
    least 8: the multiples of [2^e], for an exponent [e] from -49 to 0. *)
Lemma minus10_scaled z e :
  0 < z < 2 ^ 53 -> -49 <= e <= 0 ->
  minus10 (binary_normalize prec emax z e false)
  = binary_normalize prec emax (z - 10 * 2 ^ (- e)) e false.
Proof.
  intros Hz He.
  destruct (binary_normalize_finite z e) as (M & E & Hnum & HE & HM);
    [lia|lia|lia|].
  rewrite Hnum.
  replace (z <? 0) with false by (symmetry; apply Z.ltb_ge; lia).
  rewrite minus10_finite.
  set (ez := Z.min E (-49)).
  assert (Hpow : 0 < 2 ^ (- e)) by (apply Z.pow_pos_nonneg; lia).
  assert (Hten : 10 * 2 ^ (- e) <= 10 * 2 ^ 49).
  { apply Z.mul_le_mono_nonneg_l; [lia|]. apply Z.pow_le_mono_r; lia. }
  change (2 ^ 49) with 562949953421312 in Hten.
  change (2 ^ 53) with 9007199254740992 in Hz.
  replace (Zpos M * 2 ^ (E - ez) - 10 * 2 ^ (- ez))
    with ((z - 10 * 2 ^ (- e)) * 2 ^ (e - ez)).
  - replace ez with (e - (e - ez)) at 2 by lia.
    apply binary_normalize_scaled; subst ez; lia.
  - rewrite HM, Z.abs_eq by lia.
    rewrite Z.mul_sub_distr_r.
    rewrite <- !Z.mul_assoc, <- !Z.pow_add_r by (subst ez; lia).
    replace (e - E + (E - ez)) with (e - ez) by lia.
    replace (- e + (e - ez)) with (- ez) by lia.
    reflexivity.
Qed.

(** In particular [rest -= 10] is exact on the whole numbers from 1 to
    2^53 - 1. *)
Lemma minus10_exact t :
  0 < t < 2 ^ 53 -> minus10 (Number t) = Number (t - 10).
Proof.
  intros Ht. unfold Number. now rewrite minus10_scaled by lia.
Qed.

Lemma le_zero_normalize_positive z e :
  0 < z < 2 ^ 53 -> -1074 <= e <= 0 ->
  le_zero (binary_normalize prec emax z e false) = false.
Proof.
  intros Hz He.
  destruct (binary_normalize_finite z e) as (M & E & Hnum & _); [lia|lia|lia|].
  unfold le_zero. rewrite Hnum.
  replace (z <? 0) with false by (symmetry; apply Z.ltb_ge; lia).
  reflexivity.
Qed.

Lemma le_zero_Number_positive z :
  0 < z < 2 ^ 53 -> le_zero (Number z) = false.
Proof. intros Hz. apply le_zero_normalize_positive; lia. Qed.

Lemma iter_pos_invariant {A} (P : A -> Prop) (f : A -> A) :
  (forall x, P x -> P (f x)) -> forall p x, P x -> P (iter_pos f p x).
Proof.
  intros Hf. induction p as [p IH|p IH|]; intros x Hx; cbn; auto.
Qed.

Lemma shr_fexp_nonneg m e l :
  0 <= m -> 0 <= shr_m (fst (shr_fexp prec emax m e l)).
Proof.
  intros Hm. unfold shr_fexp, shr.
  assert (Hstart : 0 <= shr_m (shr_record_of_loc m l))
    by (destruct l as [|[]]; exact Hm).
  destruct (fexp prec emax (Zdigits2 m + e) - e); cbn [fst]; try exact Hstart.
  apply (iter_pos_invariant (fun r => 0 <= shr_m r)); [|exact Hstart].
  intros [x r s] Hx. cbn in *. destruct x as [|[x|x|]|x]; cbn; lia.
Qed.

(** Rounding keeps the sign and never gives [NaN]. *)
Lemma binary_round_aux_sign s m e l :
  0 <= m ->
  match binary_round_aux prec emax s m e l with
  | S754_zero s' | S754_infinity s' | S754_finite s' _ _ => s' = s
  | S754_nan => False
  end.
Proof.
  intros Hm. unfold binary_round_aux.
  pose proof (shr_fexp_nonneg m e l Hm) as H1.
  destruct (shr_fexp prec emax m e l) as [mrs' e'] eqn:Hshr. cbn [fst] in H1.
  assert (H2 : 0 <= round_nearest_even (shr_m mrs') (loc_of_shr_record mrs')).
  { unfold round_nearest_even.
    destruct (loc_of_shr_record mrs') as [|[]]; try lia.
    destruct (Z.even (shr_m mrs')); lia. }
  pose proof (shr_fexp_nonneg _ e' loc_Exact H2) as H3.
  destruct (shr_fexp prec emax _ e' loc_Exact) as [mrs'' e''].
  cbn [fst] in H3.
  destruct (shr_m mrs'') as [|p|p]; [reflexivity| |lia].
  now destruct (e'' <=? emax - prec).
Qed.

Lemma le_zero_negative_round m e :
  le_zero (binary_round prec emax true m e) = true.
Proof.
  unfold binary_round.
  destruct (shl_align m e _) as [mz ez].
  pose proof (binary_round_aux_sign true (Zpos mz) ez loc_Exact ltac:(lia)) as H.
  destruct (binary_round_aux prec emax true (Zpos mz) ez loc_Exact);
    try contradiction; subst; reflexivity.
Qed.

(** The number nearest to a value that is zero or less is zero or less. *)
Lemma le_zero_normalize_nonpositive z e :
  z <= 0 -> le_zero (binary_normalize prec emax z e false) = true.
Proof.
  intros Hz. destruct z as [|m|m]; [reflexivity|lia|].
  apply le_zero_negative_round.
Qed.

Lemma le_zero_Number_nonpositive z : z <= 0 -> le_zero (Number z) = true.
Proof. apply le_zero_normalize_nonpositive. Qed.

(** Once [rest <= 0] holds it holds after [rest -= 10]. *)
Lemma le_zero_minus10 rest : le_zero rest = true -> le_zero (minus10 rest) = true.
Proof.
  unfold minus10.
  change (Number 10) with (S754_finite false 5629499534213120 (-49)).
  destruct rest as [s|s| |s m e]; try discriminate.
  - intros _. reflexivity.
  - destruct s; [reflexivity|discriminate].
  - destruct s; [|discriminate]. intros _.
    cbn [SFsub cond_Zopp Z.opp Z.sub Z.add binary_normalize].
    apply le_zero_negative_round.
Qed.

(** A positive number below 8, a multiple of [2^e] for an exponent below
    -49, is below zero after [rest -= 10]. *)
Lemma minus10_small z e :
  0 < z < 2 ^ 53 -> -1074 <= e < -49 ->
  le_zero (minus10 (binary_normalize prec emax z e false)) = true.
Proof.
  intros Hz He.
  destruct (binary_normalize_finite z e) as (M & E & Hnum & HE & HM);
    [lia|lia|lia|].
  rewrite Hnum.
  replace (z <? 0) with false by (symmetry; apply Z.ltb_ge; lia).
  rewrite minus10_finite.
  apply le_zero_normalize_nonpositive.
  rewrite Z.min_l, Z.sub_diag, Z.mul_1_r by lia.
  rewrite HM, Z.abs_eq by lia.
  replace (- E) with (- e + (e - E)) by lia.
  rewrite Z.pow_add_r by lia.
  assert (Hpow : 0 < 2 ^ (e - E)) by (apply Z.pow_pos_nonneg; lia).
  assert (Hbig : 2 ^ 50 <= 2 ^ (- e)) by (apply Z.pow_le_mono_r; lia).
  change (2 ^ 50) with 1125899906842624 in Hbig.
  change (2 ^ 53) with 9007199254740992 in Hz.
  nia.
Qed.

End FloatFacts.

(** *** The detection poll *)

Section DetectionFacts.
Import Js Detection.

Lemma ticks_rounded_up_first t : (t <= 10)%Z -> ticks_rounded_up t = 1.
Proof.
  intros Ht. unfold ticks_rounded_up.
  assert ((t + 9) / 10 < 2)%Z by (apply Z.div_lt_upper_bound; lia).
  lia.
Qed.

Lemma ticks_rounded_up_next t :
  (10 < t)%Z -> ticks_rounded_up t = S (ticks_rounded_up (t - 10)).
Proof.
  intros Ht. unfold ticks_rounded_up.
  replace (t + 9)%Z with ((t - 10 + 9) + 1 * 10)%Z by lia.
  rewrite Z.div_add by lia.
  assert (1 <= (t - 10 + 9) / 10)%Z by (apply Z.div_le_lower_bound; lia).
  lia.
Qed.

Lemma ticks_rounded_up_pos t : 1 <= ticks_rounded_up t.
Proof. unfold ticks_rounded_up. lia. Qed.

(** The number of ticks times the tick is the timeout rounded up to a
    multiple of 10, for a timeout of at least one millisecond. *)
Lemma ticks_rounded_up_bounds t :
  (0 < t)%Z ->
  (t <= 10 * Z.of_nat (ticks_rounded_up t) < t + 10)%Z.
Proof.
  intros Ht. unfold ticks_rounded_up.
  assert (1 <= (t + 9) / 10)%Z by (apply Z.div_le_lower_bound; lia).
  rewrite Z.max_r, Z2Nat.id by lia.
  pose proof (Z.mul_div_le (t + 9) 10 ltac:(lia)).
  pose proof (Z.mul_succ_div_gt (t + 9) 10 ltac:(lia)).
  lia.
Qed.

Lemma ticks_covering_whole t : ticks_covering t 0 = ticks_rounded_up t.
Proof.
  unfold ticks_covering, ticks_rounded_up.
  change (10 * 2 ^ (- 0))%Z with 10%Z.
  replace (t + 10 - 1)%Z with (t + 9)%Z by lia. reflexivity.
Qed.

(** The number of ticks times the tick is the timeout rounded up to a
    multiple of 10, also for a timeout with a fractional part. *)
Lemma ticks_covering_bounds m e :
  (0 < m)%Z -> (e <= 0)%Z ->
  (m <= 10 * 2 ^ (- e) * Z.of_nat (ticks_covering m e) < m + 10 * 2 ^ (- e))%Z.
Proof.
  intros Hm He. unfold ticks_covering.
  set (d := (10 * 2 ^ (- e))%Z).
  assert (Hd : (0 < d)%Z)
    by (subst d; pose proof (Z.pow_pos_nonneg 2 (- e)); lia).
  assert (1 <= (m + d - 1) / d)%Z by (apply Z.div_le_lower_bound; lia).
  rewrite Z.max_r, Z2Nat.id by lia.
  pose proof (Z.mul_div_le (m + d - 1) d Hd).
  pose proof (Z.mul_succ_div_gt (m + d - 1) d Hd).
  lia.
Qed.

(** As long as [rest] is above zero before the subtraction, [rest] of a
    timeout of [z * 2^e] ms, at least 8 and below 2^53, is the exact
    difference. *)
Lemma rest_after_scaled z e : forall i,
  (0 < z < 2 ^ 53)%Z -> (-49 <= e <= 0)%Z ->
  (10 * 2 ^ (- e) * Z.of_nat i < z + 10 * 2 ^ (- e))%Z ->
  rest_after i (SpecFloat.binary_normalize prec emax z e false)
  = SpecFloat.binary_normalize prec emax
      (z - 10 * 2 ^ (- e) * Z.of_nat i) e false.
Proof.
  set (d := (10 * 2 ^ (- e))%Z).
  induction i as [|i IH]; intros Hz He Hi.
  - cbn [rest_after]. f_equal. lia.
  - assert (Hd : (0 < d)%Z)
      by (subst d; pose proof (Z.pow_pos_nonneg 2 (- e)); lia).
    cbn [rest_after]. rewrite IH by lia.
    rewrite minus10_scaled by lia. f_equal. fold d. lia.
Qed.

(** A timeout of [z * 2^e] ms, above zero and below 2^53, gives up at the
    firing [ticks_covering]. *)
Lemma gives_up_at_scaled z e :
  (0 < z < 2 ^ 53)%Z -> (-1074 <= e <= 0)%Z ->
  gives_up_at (SpecFloat.binary_normalize prec emax z e false)
    (ticks_covering z e).
Proof.
  intros Hz He.
  pose proof (ticks_covering_bounds z e ltac:(lia) ltac:(lia)) as Hn.
  set (n := ticks_covering z e) in *.
  set (d := (10 * 2 ^ (- e))%Z) in *.
  assert (Hd : (0 < d)%Z)
    by (subst d; pose proof (Z.pow_pos_nonneg 2 (- e)); lia).
  assert (Hpos : 1 <= n) by (subst n; unfold ticks_covering; lia).
  split; [exact Hpos|].
  destruct (Z.lt_ge_cases e (-49)) as [Hsmall|Hlarge].
  - assert (Hbig : (2 ^ 50 <= 2 ^ (- e))%Z) by (apply Z.pow_le_mono_r; lia).
    change (2 ^ 50)%Z with 1125899906842624%Z in Hbig.
    change (2 ^ 53)%Z with 9007199254740992%Z in Hz.
    assert (n = 1) as -> by (subst d; nia).
    split.
    + cbn [rest_after]. apply minus10_small; lia.
    + intros i Hi. lia.
  - split.
    + rewrite rest_after_scaled by (fold d; lia).
      apply le_zero_normalize_nonpositive. fold d. lia.
    + intros i Hi. rewrite rest_after_scaled by (fold d; nia).
      apply le_zero_normalize_positive; [fold d; nia|lia].
Qed.

(** Every positive double below 2^53 gives up at the firing
    [ticks_covering]. *)
Lemma gives_up_at_finite M E :
  SpecFloat.valid_binary prec emax (SpecFloat.S754_finite false M E) = true ->
  (E <= 0)%Z ->
  gives_up_at (SpecFloat.S754_finite false M E) (ticks_covering (Zpos M) E).
Proof.
  intros Hvalid HE.
  destruct (valid_bounds _ _ _ Hvalid) as [HM Hlow].
  rewrite <- (binary_round_valid _ _ _ Hvalid).
  apply (gives_up_at_scaled (Zpos M) E); lia.
Qed.

(** A whole-number timeout below 2^53 gives up at the firing
    [ticks_rounded_up]. *)
Lemma gives_up_at_Number t :
  (t < 2 ^ 53)%Z -> gives_up_at (Number t) (ticks_rounded_up t).
Proof.
  intros Ht.
  destruct (Z.le_gt_cases t 0) as [Hle|Hgt].
  - rewrite ticks_rounded_up_first by lia. split; [lia|]. split.
    + cbn [rest_after]. now apply le_zero_minus10, le_zero_Number_nonpositive.
    + intros i Hi. lia.
  - rewrite <- ticks_covering_whole. apply (gives_up_at_scaled t 0); lia.
Qed.

(** A timeout of zero or less gives up at the first firing. *)
Lemma gives_up_at_nonpositive timeout :
  le_zero timeout = true -> gives_up_at timeout 1.
Proof.
  intros Hle. split; [lia|]. split.
  - cbn [rest_after]. now apply le_zero_minus10.
  - intros i Hi. lia.
Qed.

(** A timeout that [rest -= 10] leaves as it is, and that is not zero or
    less, never gives up. *)
Lemma never_gives_up_fixed timeout :
  minus10 timeout = timeout -> le_zero timeout = false ->
  never_gives_up timeout.
Proof.
  intros Hfixed Hpositive i _.
  replace (rest_after i timeout) with timeout; [exact Hpositive|].
  induction i as [|i IH]; [reflexivity|]. cbn [rest_after]. now rewrite <- IH.
Qed.

Lemma never_gives_up_unbounded timeout :
  timeout = PosInfinity \/ timeout = NaN \/ timeout = Number (10 ^ 18) ->
  never_gives_up timeout.
Proof.
  intros [-> | [-> | ->]]; apply never_gives_up_fixed;
    vm_compute; reflexivity.
Qed.

Section Poll.
Context {Obj : Type}.
Implicit Types (window : nat -> option Obj) (timeout : JsNumber).

(** With no object in sight, the poll resolves as absent at the firing at
    which it gives up. *)
Lemma firings_absent window timeout n :
  gives_up_at timeout n ->
  forall fuel p,
    p < n -> (forall j, p < j <= n -> window j = None) ->
    firings window (S p) fuel (rest_after p timeout)
    = if n <=? p + fuel then Some (n, None) else None.
Proof.
  intros (_ & Hlast & Hbefore).
  induction fuel as [|fuel IH]; intros p Hp Hwin.
  - destruct (Nat.leb_spec n (p + 0)); [lia|reflexivity].
  - cbn [firings]. unfold interval_callback. rewrite Hwin by lia.
    change (minus10 (rest_after p timeout)) with (rest_after (S p) timeout).
    destruct (decide (S p = n)) as [<-|Hne].
    + rewrite Hlast.
      destruct (Nat.leb_spec (S p) (p + S fuel)); [reflexivity|lia].
    + rewrite Hbefore by lia. rewrite IH by (try lia; intros j Hj; apply Hwin; lia).
      replace (S p + fuel) with (p + S fuel) by lia. reflexivity.
Qed.

Lemma firings_pending window timeout :
  never_gives_up timeout ->
  forall fuel p,
    (forall j, p < j -> window j = None) ->
    firings window (S p) fuel (rest_after p timeout) = None.
Proof.
  intros Hnever. induction fuel as [|fuel IH]; intros p Hwin; [reflexivity|].
  cbn [firings]. unfold interval_callback. rewrite Hwin by lia.
  change (minus10 (rest_after p timeout)) with (rest_after (S p) timeout).
  rewrite Hnever by lia. apply IH. intros j Hj. apply Hwin. lia.
Qed.

(** More fuel does not change a resolved poll. *)
Lemma firings_stable window : forall fuel k rest r,
  firings window k fuel rest = Some r ->
  forall fuel', fuel <= fuel' -> firings window k fuel' rest = Some r.
Proof.
  induction fuel as [|fuel IH]; intros k rest r H fuel' Hle; [discriminate|].
  destruct fuel' as [|fuel']; [lia|]. simpl in *.
  destruct (interval_callback (window k) rest); [|exact H].
  apply (IH _ _ _ H). lia.
Qed.

(** A poll that gives up at the firing [n] resolves by then, at a firing
    [j] with the value of [window.azguard] at that firing. *)
Lemma firings_resolve window timeout n :
  gives_up_at timeout n ->
  forall fuel p,
    p < n -> n <= p + fuel ->
    exists j, p < j <= n
      /\ firings window (S p) fuel (rest_after p timeout) = Some (j, window j)
      /\ (forall i, p < i < j -> window i = None)
      /\ (window j = None -> j = n).
Proof.
  intros (_ & Hlast & Hbefore).
  induction fuel as [|fuel IH]; intros p Hp Hfuel; [lia|].
  cbn [firings]. unfold interval_callback.
  change (minus10 (rest_after p timeout)) with (rest_after (S p) timeout).
  destruct (window (S p)) as [az|] eqn:Hwin.
  - exists (S p). rewrite Hwin. repeat split; try lia; congruence.
  - destruct (decide (S p = n)) as [<-|Hne].
    + exists (S p). rewrite Hlast, Hwin. repeat split; lia.
    + rewrite Hbefore by lia.
      destruct (IH (S p) ltac:(lia) ltac:(lia)) as (j & Hj & Hrun & Hnone & Hend).
      exists j. repeat split; try lia; [exact Hrun| |exact Hend].
      intros i Hi. destruct (decide (i = S p)) as [->|]; [exact Hwin|].
      apply Hnone. lia.
Qed.

(** An object that is there at the firing [k], and not before, is found
    exactly when the poll has not given up before that firing. *)
Lemma firings_sighting window timeout k az :
  window k = Some az ->
  forall fuel p,
    p < k -> (forall i, p < i < k -> window i = None) ->
    (forall i, p < i < k -> le_zero (rest_after i timeout) = false) ->
    firings window (S p) fuel (rest_after p timeout)
    = if k <=? p + fuel then Some (k, Some az) else None.
Proof.
  intros Hk. induction fuel as [|fuel IH]; intros p Hp Hwin Hrest.
  - destruct (Nat.leb_spec k (p + 0)); [lia|reflexivity].
  - cbn [firings]. unfold interval_callback.
    change (minus10 (rest_after p timeout)) with (rest_after (S p) timeout).
    destruct (decide (S p = k)) as [<-|Hne].
    + rewrite Hk. destruct (Nat.leb_spec (S p) (p + S fuel)); [reflexivity|lia].
    + rewrite Hwin, Hrest by lia.
      rewrite IH by (try lia; intros i Hi; (apply Hwin || apply Hrest); lia).
      replace (S p + fuel) with (p + S fuel) by lia. reflexivity.
Qed.

End Poll.

(** C2, as the code has it.  The timeout is a double, and [rest -= 10] and
    [rest <= 0] are double arithmetic.  (1) A timeout that is zero or less
    (minus infinity and minus zero included) resolves at the very first
    firing, whatever the fuel: with the object when [window.azguard] is
    there at that firing, as absent otherwise; no second firing reads the
    global.  (2) With the object never appearing, the poll resolves as
    absent exactly at the firing at which it gives up, the first one at
    which [rest <= 0] holds.  (3) Every positive double below 2^53, with
    or without a fractional part, gives up at the firing [ticks_covering]:
    the timeout rounded UP to a multiple of the 10 ms tick; for a whole
    number that is the firing [ticks_rounded_up].  (4) Every poll that
    gives up resolves by that firing at the latest, with what
    [window.azguard] held at the resolving firing; [isAzguardInstalled],
    [isAzguardInstalledAndCompatible] and [create] resolve at that firing
    with it.  (5) Not every timeout resolves: for [NaN], for [Infinity]
    and for the finite 1e18, which [rest -= 10] leaves as it is, the poll
    stays pending for ever when no object appears. *)
Theorem getAzguardObject_resolves :
  (forall (Obj : Type) timeout (window : nat -> option Obj) fuel,
      le_zero timeout = true ->
      getAzguardObject timeout window (S fuel) = Some (1, window 1))
  /\ (forall (Obj : Type) timeout n fuel,
        gives_up_at timeout n ->
        getAzguardObject (Obj := Obj) timeout (fun _ => None) fuel
        = if n <=? fuel then Some (n, None) else None)
  /\ (forall M E,
        SpecFloat.valid_binary prec emax (SpecFloat.S754_finite false M E)
        = true ->
        (E <= 0)%Z ->
        gives_up_at (SpecFloat.S754_finite false M E)
          (ticks_covering (Zpos M) E))
  /\ (forall t, (t < 2 ^ 53)%Z -> gives_up_at (Number t) (ticks_rounded_up t))
  /\ (forall m e, (0 < m)%Z -> (e <= 0)%Z ->
        (m <= 10 * 2 ^ (- e) * Z.of_nat (ticks_covering m e)
         < m + 10 * 2 ^ (- e))%Z)
  /\ (forall t, (0 < t)%Z ->
        (t <= 10 * Z.of_nat (ticks_rounded_up t) < t + 10)%Z)
  /\ (forall (Obj : Type) timeout n (window : nat -> option Obj),
        gives_up_at timeout n ->
        exists j, 1 <= j <= n
          /\ (forall fuel, n <= fuel ->
                getAzguardObject timeout window fuel = Some (j, window j)
                /\ isAzguardInstalled timeout window fuel
                   = Some (j, bool_decide (is_Some (window j)))))
  /\ (forall (W U : Type) packageVersion scope timeout n
             (window : nat -> option (Types.AzguardObject W))
             (e : Runtime.Env U) (w : W),
        gives_up_at timeout n ->
        exists j, 1 <= j <= n
          /\ (forall fuel, n <= fuel ->
                isAzguardInstalledAndCompatible packageVersion timeout
                  window fuel
                = Some (j, match window j with
                           | Some azguard =>
                               Version.isCompatible packageVersion
                                 (Types.version azguard)
                           | None => false
                           end)
                /\ AzguardClient.create packageVersion scope timeout
                     window fuel e w
                   = Some (AzguardClient.init packageVersion (window j)
                             (AzguardClient.constructor
                                (default "default" scope) e w))))
  /\ (forall (Obj : Type) timeout fuel,
        timeout = PosInfinity \/ timeout = NaN \/ timeout = Number (10 ^ 18) ->
        getAzguardObject (Obj := Obj) timeout (fun _ => None) fuel = None)
  /\ minus10 (Number (10 ^ 18)) = Number (10 ^ 18).
Proof.
  assert (Hresolve : forall (Obj : Type) timeout n (window : nat -> option Obj),
        gives_up_at timeout n ->
        exists j, 1 <= j <= n
          /\ (forall fuel, n <= fuel ->
                getAzguardObject timeout window fuel = Some (j, window j))).
  { intros Obj timeout n window Hn.
    destruct (firings_resolve window timeout n Hn n 0
                ltac:(destruct Hn; lia) ltac:(lia))
      as (j & Hj & Hrun & _ & _).
    exists j. split; [lia|]. intros fuel Hfuel.
    unfold getAzguardObject. eapply firings_stable; eassumption. }
  repeat apply conj.
  - intros Obj timeout window fuel Hle.
    unfold getAzguardObject. cbn [firings]. unfold interval_callback.
    destruct (window 1); [reflexivity|].
    now rewrite le_zero_minus10.
  - intros Obj timeout n fuel Hn. unfold getAzguardObject.
    apply (firings_absent _ timeout n Hn fuel 0); [destruct Hn; lia|reflexivity].
  - exact gives_up_at_finite.
  - exact gives_up_at_Number.
  - exact ticks_covering_bounds.
  - exact ticks_rounded_up_bounds.
  - intros Obj timeout n window Hn.
    destruct (Hresolve Obj timeout n window Hn) as (j & Hj & Hget).
    exists j. split; [exact Hj|]. intros fuel Hfuel.
    split; [now apply Hget|].
    unfold isAzguardInstalled. now rewrite Hget.
  - intros W U packageVersion scope timeout n window e w Hn.
    destruct (Hresolve _ timeout n window Hn) as (j & Hj & Hget).
    exists j. split; [exact Hj|]. intros fuel Hfuel.
    unfold isAzguardInstalledAndCompatible, AzguardClient.create.
    rewrite Hget by exact Hfuel. split; [|reflexivity].
    now destruct (window j).
  - intros Obj timeout fuel Htimeout. unfold getAzguardObject.
    apply (firings_pending _ timeout (never_gives_up_unbounded _ Htimeout) fuel 0).
    reflexivity.
  - vm_compute. reflexivity.
Qed.

Lemma getAzguardObject_resolves_witness :
  getAzguardObject (Obj := Types.AzguardObject nat) (Number 0)
    (fun k => if k =? 1 then None else Some Demo.azguard) 5
  = Some (1, None).
Proof.
  apply (proj1 getAzguardObject_resolves
           _ (Number 0) (fun k => if k =? 1 then None else Some Demo.azguard) 4).
  reflexivity.
Defined.

(** C2, as the claim words it, fails on the code: a timeout of 0 resolves
    with the object, not as absent, when the object is there at the first
    firing; a timeout of 25 ms is still pending after 2 firings (20 ms,
    the timeout rounded down) and resolves at the third (30 ms); and a
    timeout of 1e18 ms, which [rest -= 10] leaves as it is, never
    resolves when no object appears. *)
Lemma getAzguardObject_not_rounded_down :
  getAzguardObject (Number 0) (fun _ => Some Demo.azguard) 1
    = Some (1, Some Demo.azguard)
  /\ ticks_rounded_down 25 = 2%Z
  /\ getAzguardObject (Obj := Types.AzguardObject nat) (Number 25) (fun _ => None) 2
     = None
  /\ getAzguardObject (Obj := Types.AzguardObject nat) (Number 25) (fun _ => None) 3
     = Some (3, None)
  /\ minus10 (Number (10 ^ 18)) = Number (10 ^ 18)
  /\ le_zero (Number (10 ^ 18)) = false
  /\ (forall fuel,
        getAzguardObject (Obj := Types.AzguardObject nat) (Number (10 ^ 18))
          (fun _ => None) fuel = None).
Proof.
  repeat split; try (vm_compute; reflexivity).
  intros fuel. unfold getAzguardObject.
  apply (firings_pending _ _ (never_gives_up_unbounded _
                                (or_intror (or_intror eq_refl))) fuel 0).
  reflexivity.
Qed.

End DetectionFacts.

(** *** The event registry *)

Section HandlersFacts.
Import Js Types Runtime Handlers.
Context {W U T : Type}.
Implicit Types (st : State W U) (handlers : EventHandlers U T).

(** One turn of the loop of [dispatch]: the handler is called, and its
    exception, if it throws one, goes no further. *)
Lemma call_guarded ev (inj : T -> Payload) (h : Handler U T) payload st :
  try_catch (call ev inj h payload) (fun _ => ret tt) st
  = (set_trace (trace st ++ [Invoked ev (handler_id h) (inj payload) (view_of st)])
       (set_env (fst (handler_body h payload (view_of st) (env st))) st),
     Normal tt).
Proof.
  unfold try_catch, call.
  destruct (handler_body h payload (view_of st) (env st)) as [e [[]|x]];
    reflexivity.
Qed.

Lemma for_of_handlers ev (inj : T -> Payload) payload handlers : forall st,
  for_of handlers (fun handler =>
      try_catch (call ev inj handler payload) (fun _ => ret tt)) st
  = (set_env (after_handlers handlers payload (view_of st) (env st))
       (set_trace
          (trace st ++ map (fun h => Invoked ev (handler_id h) (inj payload)
                                       (view_of st)) handlers) st),
     Normal tt).
Proof.
  induction handlers as [|h handlers IH]; intros st.
  - destruct st; cbn. now rewrite app_nil_r.
  - cbn [for_of]. unfold bind. rewrite call_guarded, IH.
    destruct st; cbn. now rewrite <- app_assoc.
Qed.

(** [dispatch] in closed form: it returns normally, every handler is
    called in the set's order with the payload, and nothing but the
    environment and the trace changes. *)
Lemma dispatch_run ev (inj : T -> Payload) handlers payload st :
  dispatch ev inj handlers payload st
  = (set_env (after_handlers handlers payload (view_of st) (env st))
       (set_trace
          (trace st ++ dispatch_effects ev (inj payload) (view_of st) handlers)
          st),
     Normal tt).
Proof.
  unfold dispatch, log, modify. unfold bind at 1.
  rewrite for_of_handlers.
  destruct st; cbn. now rewrite <- app_assoc.
Qed.

End HandlersFacts.

Section RegistryFacts.
Import Js Types Runtime Handlers.
Context {U T : Type}.
Implicit Types (h : Handler U T) (handlers : EventHandlers U T).

Lemma has_spec h handlers :
  has h handlers = true <-> In (handler_id h) (map handler_id handlers).
Proof.
  unfold has. rewrite existsb_exists, in_map_iff. split.
  - intros (h' & Hin & Heq). apply Nat.eqb_eq in Heq. eauto.
  - intros (h' & Heq & Hin). exists h'. split; [exact Hin|].
    now apply Nat.eqb_eq.
Qed.

Lemma addHandler_NoDup h handlers :
  NoDup (map handler_id handlers) ->
  NoDup (map handler_id (addHandler h handlers)).
Proof.
  intros Hnd. unfold addHandler. destruct (has h handlers) eqn:Hhas; [exact Hnd|].
  rewrite map_app. cbn [map].
  apply NoDup_app; repeat split.
  - exact Hnd.
  - intros x Hx Hx'. apply list_elem_of_In in Hx. apply list_elem_of_In in Hx'.
    destruct Hx' as [<-|[]].
    apply has_spec in Hx. congruence.
  - apply NoDup_singleton.
Qed.

Lemma removeHandler_NoDup h handlers :
  NoDup (map handler_id handlers) ->
  NoDup (map handler_id (removeHandler h handlers)).
Proof.
  unfold removeHandler. induction handlers as [|h' handlers IH]; cbn; intros Hnd.
  - constructor.
  - apply NoDup_cons in Hnd as [Hnotin Hnd].
    destruct (negb (handler_id h' =? handler_id h)); cbn; [|auto].
    apply NoDup_cons. split; [|auto].
    intros Hin. apply Hnotin.
    apply list_elem_of_In in Hin. apply list_elem_of_In.
    apply in_map_iff in Hin as (x & Hx & Hin).
    apply filter_In in Hin as [Hin _]. apply in_map_iff. eauto.
Qed.

(** Whatever the calls that built it, a registry holds a callback at most
    once. *)
Lemma registry_of_NoDup (calls : list (RegistryCall U T)) :
  NoDup (map handler_id (registry_of calls)).
Proof.
  unfold registry_of.
  assert (H : forall init : EventHandlers U T,
             NoDup (map handler_id init) ->
             NoDup (map handler_id (fold_left apply_call calls init))).
  { induction calls as [|c calls IH]; intros init Hinit; [exact Hinit|].
    cbn. apply IH. destruct c; cbn.
    - now apply addHandler_NoDup.
    - now apply removeHandler_NoDup. }
  apply H. constructor.
Qed.

Lemma EventName_eqb_refl ev : EventName_eqb ev ev = true.
Proof. destruct ev; reflexivity. Qed.

Lemma invocations_dispatch_effects ev payload view handlers n :
  invocations ev n (dispatch_effects ev payload view handlers)
  = count_occ Nat.eq_dec (map handler_id handlers) n.
Proof.
  unfold invocations, dispatch_effects. cbn [List.filter].
  induction handlers as [|h handlers IH]; [reflexivity|].
  cbn [map List.filter count_occ]. rewrite EventName_eqb_refl. cbn [andb].
  destruct (Nat.eq_dec (handler_id h) n) as [->|Hne].
  - rewrite Nat.eqb_refl. cbn [length]. now rewrite IH.
  - apply Nat.eqb_neq in Hne. now rewrite Hne.
Qed.

Lemma invocations_registered ev payload view handlers h :
  NoDup (map handler_id handlers) ->
  invocations ev (handler_id h) (dispatch_effects ev payload view handlers)
  = if has h handlers then 1 else 0.
Proof.
  intros Hnd. rewrite invocations_dispatch_effects.
  pose proof (proj1 (NoDup_count_occ Nat.eq_dec _) ltac:(apply NoDup_ListNoDup; exact Hnd)
                (handler_id h)) as Hle.
  pose proof (count_occ_In Nat.eq_dec (map handler_id handlers) (handler_id h)) as Hin.
  pose proof (has_spec h handlers) as Hhas.
  destruct (has h handlers).
  - assert (In (handler_id h) (map handler_id handlers)) by now apply Hhas.
    apply Hin in H. lia.
  - destruct (count_occ Nat.eq_dec (map handler_id handlers) (handler_id h))
      as [|n] eqn:Hc; [reflexivity|].
    assert (In (handler_id h) (map handler_id handlers)) by (apply Hin; lia).
    apply Hhas in H. discriminate.
Qed.

End RegistryFacts.

(** On the registries of the client, whose subscribers leave the registry
    alone: [dispatch] returns normally, each registered handler is invoked
    exactly once and no other handler is, whichever handlers throw. *)
Lemma dispatch_subscribers_once
    (W U T : Type) (ev : Runtime.EventName) (inj : T -> Runtime.Payload)
    (calls : list (Handlers.RegistryCall U T)) (payload : T)
    (st : Runtime.State W U) :
  exists st' effects,
    Handlers.dispatch ev inj (Handlers.registry_of calls) payload st
      = (st', Js.Normal tt)
    /\ Runtime.trace st' = Runtime.trace st ++ effects
    /\ (forall h : Runtime.Handler U T,
          Handlers.invocations ev (Runtime.handler_id h) effects
          = if Handlers.has h (Handlers.registry_of calls) then 1 else 0)
    /\ Runtime.env st'
       = Handlers.after_handlers (Handlers.registry_of calls) payload
           (Runtime.view_of st) (Runtime.env st)
    /\ (forall h : Runtime.Handler U T,
          Handlers.registry_of (calls ++ [Handlers.Add h; Handlers.Add h])
          = Handlers.registry_of (calls ++ [Handlers.Add h])).
Proof.
  eexists _, _. split; [apply dispatch_run|].
  split; [destruct st; reflexivity|].
  split; [|split].
  - intros h. apply invocations_registered, registry_of_NoDup.
  - destruct st; reflexivity.
  - intros h. unfold Handlers.registry_of.
    rewrite !fold_left_app. cbn.
    set (handlers := fold_left Handlers.apply_call calls []).
    unfold Handlers.addHandler at 1.
    assert (Hhas : Handlers.has h (Handlers.addHandler h handlers) = true).
    { apply has_spec. unfold Handlers.addHandler.
      destruct (Handlers.has h handlers) eqn:Hh; [now apply has_spec|].
      rewrite map_app. apply in_or_app. right. now left. }
    now rewrite Hhas.
Qed.

(** A subscriber that throws does not keep the next one from noting what
    it saw. *)
Lemma dispatch_survives_faulty_subscriber :
  Runtime.user
    (Runtime.env
       (fst (Handlers.dispatch Runtime.OnConnected (fun _ => Runtime.NoPayload)
               (Handlers.registry_of
                  [Handlers.Add (Demo.faulty 1); Handlers.Add (Demo.snapshot 2);
                   Handlers.Add (Demo.snapshot 2)])
               tt Demo.connected_client)))
  = [true].
Proof. reflexivity. Qed.

(** *** The comparisons of the reconciliation *)

Section ComparisonFacts.
Import Js Types AzguardClient Spec.

Lemma or_else_assoc a b c :
  or_else (or_else a b) c = or_else a (or_else b c).
Proof. destruct a as [[]|]; reflexivity. Qed.

Lemma length_listed xs : length (listed xs) = length_or_0 xs.
Proof. destruct xs; reflexivity. Qed.

(** Over lists of one length, [some] with [!==] against the other list
    finds a difference exactly when the lists are not equal; the other
    list is never indexed past its end. *)
Lemma some_from_differs_at : forall (xs ys pre : list string),
  length xs = length ys ->
  some_from (differs_at (Some (pre ++ ys))) (length pre) xs
  = Normal (negb (bool_decide (xs = ys))).
Proof.
  induction xs as [|x xs IH]; intros [|y ys] pre Hlen; try discriminate.
  - reflexivity.
  - cbn [some_from differs_at].
    rewrite list_lookup_middle by reflexivity.
    unfold strict_eq.
    destruct (decide (x = y)) as [->|Hne].
    + rewrite bool_decide_eq_true_2 by reflexivity. cbn [negb].
      replace (pre ++ y :: ys) with ((pre ++ [y]) ++ ys)
        by now rewrite <- app_assoc.
      replace (S (length pre)) with (length (pre ++ [y]))
        by (rewrite length_app; cbn; lia).
      rewrite IH by (cbn in Hlen; lia).
      do 2 f_equal. apply bool_decide_ext. split; congruence.
    + rewrite bool_decide_eq_false_2 by congruence. cbn [negb].
      rewrite bool_decide_eq_false_2 by congruence. reflexivity.
Qed.

(** The two tests the code makes on one optional list of a grant. *)
Lemma field_differs xs ys :
  or_else (Normal (negb (length_or_0 xs =? length_or_0 ys)))
          (optional_some_differs xs ys)
  = Normal (negb (bool_decide (listed xs = listed ys))).
Proof.
  destruct (Nat.eqb_spec (length_or_0 xs) (length_or_0 ys)) as [Heq|Hne]; cbn.
  - destruct xs as [l|], ys as [l'|]; cbn in *.
    + apply (some_from_differs_at l l' [] Heq).
    + destruct l; [reflexivity|discriminate].
    + destruct l'; [reflexivity|discriminate].
    + reflexivity.
  - rewrite bool_decide_eq_false_2; [reflexivity|].
    intros H. apply Hne. now rewrite <- !length_listed, H.
Qed.

Lemma permission_differs_at new p q i :
  new !! i = Some q ->
  permission_differs new p i = Normal (grants_differb p q).
Proof.
  intros Hq. unfold permission_differs. rewrite Hq.
  rewrite <- (or_else_assoc (Normal (negb (length_or_0 (chains p) =? _)))).
  rewrite field_differs.
  rewrite <- (or_else_assoc (Normal (negb (length_or_0 (methods p) =? _)))).
  rewrite !field_differs.
  unfold grants_differb.
  destruct (negb (bool_decide (listed (chains p) = listed (chains q))));
    [reflexivity|].
  destruct (negb (bool_decide (listed (methods p) = listed (methods q))));
    reflexivity.
Qed.

Lemma some_from_permission_differs : forall (old new pre : list DappPermissions),
  length old = length new ->
  some_from (permission_differs (pre ++ new)) (length pre) old
  = Normal (existsb (fun pq => grants_differb (fst pq) (snd pq))
              (combine old new)).
Proof.
  induction old as [|p old IH]; intros [|q new] pre Hlen; try discriminate.
  - reflexivity.
  - cbn [some_from combine existsb fst snd].
    rewrite (permission_differs_at _ p q) by now apply list_lookup_middle.
    destruct (grants_differb p q); [reflexivity|]. cbn [orb].
    replace (pre ++ q :: new) with ((pre ++ [q]) ++ new)
      by now rewrite <- app_assoc.
    replace (S (length pre)) with (length (pre ++ [q]))
      by (rewrite length_app; cbn; lia).
    apply IH. cbn in Hlen; lia.
Qed.

(** [permissionsChanged] never throws, and computes the positional
    comparison. *)
Lemma permissionsChanged_value old new :
  permissionsChanged old new = Normal (permissions_differb old new).
Proof.
  unfold permissionsChanged, permissions_differb, some.
  destruct (Nat.eqb_spec (length old) (length new)) as [Heq|Hne]; cbn;
    [|reflexivity].
  apply (some_from_permission_differs old new [] Heq).
Qed.

Lemma accountsChanged_value old new :
  accountsChanged old new = Normal (negb (bool_decide (old = new))).
Proof.
  unfold accountsChanged, some.
  destruct (Nat.eqb_spec (length old) (length new)) as [Heq|Hne]; cbn.
  - apply (some_from_differs_at old new [] Heq).
  - rewrite bool_decide_eq_false_2; [reflexivity|congruence].
Qed.




(** An absent list of a grant and an empty one compare as equal, and so
    do lists that hold the same elements in the same order. *)
Lemma absent_list_compares_as_empty :
  permissionsChanged
    [ {| chains := None; methods := Some ["a"]; events := Some [] |} ]
    [ {| chains := Some []; methods := Some ["a"]; events := None |} ]
  = Normal false.
Proof. reflexivity. Qed.

End ComparisonFacts.

(** *** The session store *)

Section ClientFacts.
Import Js Types Runtime Handlers AzguardClient.
Context {W U : Type}.
Implicit Types (st : State W U).
Local Arguments dispatch : simpl never.

Lemma onSessionUpdated_run st new :
  onSessionUpdated new st
  = let pc := Spec.permissions_differb (permissions st) (Types.permissions new) in
    let ac := negb (bool_decide (accounts st = Types.accounts new)) in
    let st1 := set_session (Some new)
                 (set_trace (trace st ++ [SessionAssigned (Some new)]) st) in
    let st2 := if pc
               then fst (dispatch OnPermissionsChanged PermissionsPayload
                           (onPermissionsChanged st) (Types.permissions new) st1)
               else st1 in
    let st3 := if ac
               then fst (dispatch OnAccountsChanged AccountsPayload
                           (onAccountsChanged st) (Types.accounts new) st2)
               else st2 in
    (st3, Normal tt).
Proof.
  unfold onSessionUpdated, bind, gets, eval, assign_session, log, modify.
  rewrite permissionsChanged_value, accountsChanged_value.
  cbn zeta.
  destruct (Spec.permissions_differb _ _), (negb _); destruct st; cbn;
    rewrite ?dispatch_run; cbn; rewrite ?dispatch_run; reflexivity.
Qed.

Lemma onSessionClosed_run st :
  onSessionClosed st
  = (set_env
       {| localStorage :=
            delete (storage_key (scope st))
              (localStorage (after_handlers (onDisconnected st) tt
                               (view_of st) (env st)));
          user := user (after_handlers (onDisconnected st) tt
                          (view_of st) (env st)) |}
       (set_session None
          (set_trace
             (trace st
                ++ dispatch_effects OnDisconnected NoPayload (view_of st)
                     (onDisconnected st)
                ++ [SessionAssigned None;
                    StorageRemoved (storage_key (scope st))])
             st)),
     Normal tt).
Proof.
  unfold onSessionClosed, bind, gets, assign_session,
    localStorage_removeItem, log, modify.
  rewrite dispatch_run. destruct st; cbn.
  now rewrite <- !app_assoc.
Qed.

End ClientFacts.



(** C4. A [session_closed] push never throws and does three things in this
    order: it dispatches the disconnected event, every handler reading
    through the getters the state from before the push (so [connected] is
    still [true] for a client that held a session); it clears the stored
    session, after which [connected] is [false] and the account and
    permission lists are empty; it removes the storage entry of the
    client's scope, which is absent afterwards whatever the handlers did to
    the storage. *)
Theorem onSessionClosed_dispatches_then_clears :
  forall (W U : Type) (st : Runtime.State W U),
  exists st',
    AzguardClient.onSessionClosed st = (st', Js.Normal tt)
    /\ Runtime.trace st'
       = Runtime.trace st
           ++ Handlers.dispatch_effects Runtime.OnDisconnected Runtime.NoPayload
                (Runtime.view_of st) (Runtime.onDisconnected st)
           ++ [Runtime.SessionAssigned None;
               Runtime.StorageRemoved
                 (AzguardClient.storage_key (Runtime.scope st))]
    /\ Runtime.view_connected (Runtime.view_of st) = Runtime.connected st
    /\ (is_Some (Runtime.session st) ->
        Runtime.view_connected (Runtime.view_of st) = true)
    /\ Runtime.session st' = None
    /\ Runtime.connected st' = false
    /\ Runtime.accounts st' = []
    /\ Runtime.permissions st' = []
    /\ Runtime.localStorage (Runtime.env st')
         !! AzguardClient.storage_key (Runtime.scope st) = None
    /\ Runtime.user (Runtime.env st')
       = Runtime.user (Handlers.after_handlers (Runtime.onDisconnected st) tt
                         (Runtime.view_of st) (Runtime.env st)).
Proof.
  intros W U st. eexists. split; [apply onSessionClosed_run|].
  split; [destruct st; reflexivity|].
  split; [reflexivity|].
  split; [intros [s Hs]; cbn; unfold Runtime.connected; now rewrite Hs|].
  destruct st; cbn. repeat split. apply lookup_delete_eq.
Qed.

(** A subscriber that notes [connected] when the disconnected event reaches
    it notes [true]; afterwards [connected] is [false] and the storage
    entry is gone. *)
Lemma onSessionClosed_dispatches_then_clears_witness :
  Runtime.localStorage (Runtime.env Demo.watched_client)
    !! "azguard:session:default" = Some "session-1"
  /\ exists st',
      AzguardClient.onSessionClosed Demo.watched_client = (st', Js.Normal tt)
      /\ Runtime.user (Runtime.env st') = [true]
      /\ Runtime.connected st' = false
      /\ Runtime.localStorage (Runtime.env st') !! "azguard:session:default"
         = None.
Proof.
  split; [reflexivity|].
  destruct (onSessionClosed_dispatches_then_clears nat (list bool)
              Demo.watched_client)
    as (st' & Hrun & _ & _ & _ & _ & Hconn & _ & _ & Hkey & Huser).
  exists st'. split; [exact Hrun|]. split; [rewrite Huser; reflexivity|].
  split; [exact Hconn|exact Hkey].
Defined.

(** C6. [execute] throws "not installed" when no channel is bound and "not
    connected" when a channel is bound and no session is held, in both
    cases leaving the state as it was: no request is issued and the wallet
    is not reached.  Otherwise it issues one [execute] request with the
    stored session's id and the batch as given, and completes with the
    channel's response as it is. *)
Theorem execute_guards_then_forwards :
  forall (W U : Type) (st : Runtime.State W U)
         (operations : list Types.Operation),
    (Runtime.rpc st = None ->
     AzguardClient.execute operations st
     = (st, Js.Throw (Js.Error "Azguard Wallet is not installed")))
    /\ (forall ch, Runtime.rpc st = Some ch -> Runtime.session st = None ->
          AzguardClient.execute operations st
          = (st, Js.Throw (Js.Error "Azguard Wallet is not connected")))
    /\ (forall ch s, Runtime.rpc st = Some ch -> Runtime.session st = Some s ->
          AzguardClient.execute operations st
          = (Runtime.set_wallet
               (fst (Types.request_execute ch (Types.id s) operations
                       (Runtime.wallet st)))
               (Runtime.set_trace
                  (Runtime.trace st
                     ++ [Runtime.Requested
                           (Runtime.ReqExecute (Types.id s) operations)])
                  st),
             Types.settle
               (snd (Types.request_execute ch (Types.id s) operations
                       (Runtime.wallet st))))).
Proof.
  intros W U st operations.
  unfold AzguardClient.execute, Runtime.bind, Runtime.gets, Runtime.throw,
    Runtime.request, Runtime.log, Runtime.modify.
  split; [|split].
  - intros ->. reflexivity.
  - intros ch -> ->. reflexivity.
  - intros ch s -> ->. cbn.
    destruct (Types.request_execute ch (Types.id s) operations (Runtime.wallet st));
      reflexivity.
Qed.

Lemma execute_guards_then_forwards_witness :
  AzguardClient.execute [Types.OtherOperation "register_contract"]
    (AzguardClient.constructor "default" Demo.page 0)
  = (AzguardClient.constructor "default" Demo.page 0,
     Js.Throw (Js.Error "Azguard Wallet is not installed"))
  /\ snd (AzguardClient.execute [Types.OtherOperation "register_contract"]
            Demo.connected_client)
     = Js.Normal [Types.OkResult Types.NoValue].
Proof.
  split.
  - apply (proj1 (execute_guards_then_forwards nat (list bool)
                    (AzguardClient.constructor "default" Demo.page 0)
                    [Types.OtherOperation "register_contract"])).
    reflexivity.
  - rewrite (proj2 (proj2 (execute_guards_then_forwards nat (list bool)
                             Demo.connected_client
                             [Types.OtherOperation "register_contract"]))
               Demo.channel Demo.session1 eq_refl eq_refl).
    reflexivity.
Defined.

(** *** The life of a client *)

Section LifecycleFacts.
Import Js Types Runtime Handlers AzguardClient Lifecycle.
Context {W U : Type}.
Implicit Types (st : State W U) (sys : System W U).
Local Arguments dispatch : simpl never.

Lemma request_run {A} (r : Request) (respond : W -> W * Response A) st :
  request r respond st
  = (set_wallet (fst (respond (wallet st)))
       (set_trace (trace st ++ [Requested r]) st),
     settle (snd (respond (wallet st)))).
Proof.
  unfold request, bind, log, modify. cbn.
  destruct (respond (wallet st)); reflexivity.
Qed.

Lemma dispatch_core {T} ev (inj : T -> Payload) handlers payload st :
  core (fst (dispatch ev inj handlers payload st)) = core st.
Proof. rewrite dispatch_run. destruct st; reflexivity. Qed.

Lemma onSessionUpdated_core new st :
  core (fst (onSessionUpdated new st))
  = (Some new, bool_decide (is_Some (rpc st)), listening st).
Proof.
  rewrite onSessionUpdated_run. cbn zeta.
  destruct (Spec.permissions_differb _ _), (negb _); cbn [fst];
    rewrite ?dispatch_core; destruct st; reflexivity.
Qed.

Lemma onSessionClosed_core st :
  core (fst (onSessionClosed st))
  = (None, bool_decide (is_Some (rpc st)), listening st).
Proof. rewrite onSessionClosed_run. destruct st; reflexivity. Qed.

Lemma connect_request_core dappMetadata required optional st :
  core (fst (connect_request dappMetadata required optional st)) = core st
  /\ (forall response,
        snd (connect_request dappMetadata required optional st) = Normal response ->
        is_Some (rpc st)).
Proof.
  unfold connect_request, bind, gets, throw.
  destruct (rpc st) as [ch|] eqn:Hrpc.
  - rewrite request_run. split; [|eauto].
    destruct st; cbn in *. now rewrite Hrpc.
  - split; [reflexivity|discriminate].
Qed.

Lemma connect_resume_core response st :
  core (fst (connect_resume response st))
  = (Some response, bool_decide (is_Some (rpc st)), listening st).
Proof.
  unfold connect_resume, bind, gets, assign_session, localStorage_setItem,
    log, modify.
  cbn. match goal with |- core (fst (dispatch ?e ?i ?h ?p ?s)) = _ =>
    rewrite (dispatch_core e i h p s) end.
  destruct st; reflexivity.
Qed.

Lemma disconnect_core st : core (fst (disconnect st)) = core st.
Proof.
  unfold disconnect, bind, gets, throw, ret.
  destruct (session st) as [s|] eqn:Hs; [|reflexivity].
  destruct (rpc st) as [ch|] eqn:Hrpc; [|reflexivity].
  rewrite request_run. destruct st; cbn in *. now rewrite Hs, Hrpc.
Qed.

Lemma execute_core operations st : core (fst (execute operations st)) = core st.
Proof.
  unfold execute, bind, gets, throw.
  destruct (rpc st) as [ch|] eqn:Hrpc; [|reflexivity].
  destruct (session st) as [s|] eqn:Hs; [|reflexivity].
  rewrite request_run. destruct st; cbn in *. now rewrite Hs, Hrpc.
Qed.

Lemma getWalletInfo_core st : core (fst (getWalletInfo st)) = core st.
Proof.
  unfold getWalletInfo, bind, gets, throw.
  destruct (rpc st) as [ch|] eqn:Hrpc; [|reflexivity].
  rewrite request_run. destruct st; cbn in *. now rewrite Hrpc.
Qed.

Lemma init_detected_core packageVersion azguard st :
  core (fst (init_detected packageVersion azguard st))
  = (session st, bool_decide (is_Some (rpc st)), true).
Proof.
  unfold init_detected, bind, gets, localStorage_getItem, modify, log, ret,
    request.
  destruct st; cbn.
  destruct (Version.isCompatible packageVersion (version azguard)); cbn;
    (match goal with |- context [?m !! ?k] => destruct (m !! k) as [sid|] end;
     cbn; [destruct (String.eqb sid ""); cbn|]; try reflexivity;
     match goal with |- context [request_get_session ?c ?i ?w] =>
       destruct (request_get_session c i w) as [w' [r|e]] end; reflexivity).
Qed.

Lemma init_finish_core client' s st :
  core (fst (init_finish client' s st)) = (s, true, listening st).
Proof. destruct st; reflexivity. Qed.

Ltac invariant_cases :=
  cbn in *;
  repeat match goal with
         | b : bool |- _ => destruct b
         | s : option DappSession |- _ => destruct s
         | H : _ /\ _ |- _ => destruct H
         end;
  repeat split; intros;
  repeat match goal with
         | H : is_Some None |- _ => destruct H as [? [=]]
         | H : is_Some (Some ?x) -> _ |- _ =>
             specialize (H (ex_intro _ x eq_refl))
         | H : ?a = ?a -> _ |- _ => specialize (H eq_refl)
         | H : forall ch r, Restoring ?c ?x = Restoring ch r -> _ |- _ =>
             specialize (H c x eq_refl)
         | H : _ /\ _ |- _ => destruct H
         | H : (_ :: _) <> [] -> _ |- _ => specialize (H ltac:(discriminate))
         end;
  try congruence; try tauto.

Lemma initial_invariant scope (e : Env U) (w : W) :
  invariant (initial scope e w).
Proof. unfold invariant, initial; cbn. invariant_cases. Qed.

Lemma step_invariant packageVersion sys sys' :
  step packageVersion sys sys' -> invariant sys -> invariant sys'.
Proof.
  unfold invariant. intros Hstep Hinv.
  destruct Hstep as
    [ sys Hph
    | sys azguard st' client' Hph Hfalsy Hdet
    | sys azguard st' awaited Hph Hfalsy Hdet
    | sys client' session Hph
    | sys client' e Hph
    | sys session Hl
    | sys Hl
    | sys dappMetadata required optional st' completion Hph Hreq
    | sys response rest Hperm
    | sys Hph
    | sys operations Hph
    | sys Hph
    | sys c Hph
    | sys c Hph
    | sys c Hph
    | sys c Hph
    | sys e w ];
    cbn [client phase connecting].
  - (* not found *)
    replace (core (fst (init packageVersion None (client sys))))
      with (core (client sys)) by reflexivity.
    destruct (core (client sys)) as [[s b] l]. rewrite Hph in Hinv.
    cbn in *. invariant_cases.
  - (* found, nothing stored *)
    pose proof (init_detected_core packageVersion azguard (client sys)) as Hd.
    rewrite Hdet in Hd. cbn [fst] in Hd.
    rewrite init_finish_core.
    assert (Hl : listening st' = true) by (unfold core in Hd; congruence).
    rewrite Hl. cbn. invariant_cases.
  - (* found, an identifier stored *)
    pose proof (init_detected_core packageVersion azguard (client sys)) as Hd.
    rewrite Hdet in Hd. cbn [fst] in Hd. rewrite Hd.
    unfold core in Hinv. rewrite Hph in Hinv.
    destruct (session (client sys)), (bool_decide (is_Some (rpc (client sys)))),
      (listening (client sys)); cbn in *; invariant_cases.
  - (* restored *)
    rewrite init_finish_core. rewrite Hph in Hinv.
    destruct (core (client sys)) as [[s b] l] eqn:Hcore.
    assert (listening (client sys) = l) by (unfold core in Hcore; congruence).
    subst l. cbn in *. invariant_cases.
  - (* the restore failed *)
    rewrite Hph in Hinv.
    destruct (core (client sys)) as [[s b] l]. cbn in *. invariant_cases.
  - (* session_updated *)
    rewrite onSessionUpdated_core. unfold core in Hinv. rewrite Hl in *.
    destruct (bool_decide (is_Some (rpc (client sys)))), (phase sys);
      cbn in *; invariant_cases.
  - (* session_closed *)
    rewrite onSessionClosed_core. unfold core in Hinv. rewrite Hl in *.
    destruct (bool_decide (is_Some (rpc (client sys)))), (phase sys);
      cbn in *; invariant_cases.
  - (* connect, up to its await *)
    destruct (connect_request_core dappMetadata required optional (client sys))
      as [Hcore Hbound].
    rewrite Hreq in Hcore, Hbound. cbn [fst snd] in *. rewrite Hcore.
    rewrite Hph in Hinv. unfold core in *.
    destruct completion as [response|e].
    + specialize (Hbound response eq_refl).
      rewrite (bool_decide_eq_true_2 _ Hbound) in *.
      destruct (session (client sys)), (listening (client sys));
        cbn in *; invariant_cases.
    + destruct (session (client sys)),
        (bool_decide (is_Some (rpc (client sys)))), (listening (client sys));
        cbn in *; invariant_cases; tauto.
  - (* connect, from the response on *)
    rewrite connect_resume_core. unfold core in Hinv.
    assert (Hne : connecting sys <> []).
    { intros Hnil. rewrite Hnil in Hperm.
      now apply Permutation_nil_l in Hperm. }
    destruct (bool_decide (is_Some (rpc (client sys)))),
      (listening (client sys)), (phase sys); cbn in *; invariant_cases; tauto.
  - rewrite disconnect_core. now rewrite Hph in Hinv.
  - rewrite execute_core. now rewrite Hph in Hinv.
  - rewrite getWalletInfo_core. now rewrite Hph in Hinv.
  - rewrite Hph in Hinv. destruct (client sys); exact Hinv.
  - rewrite Hph in Hinv. destruct (client sys); exact Hinv.
  - rewrite Hph in Hinv. destruct (client sys); exact Hinv.
  - rewrite Hph in Hinv. destruct (client sys); exact Hinv.
  - destruct (client sys); exact Hinv.
Qed.

Lemma reachable_invariant packageVersion sys :
  reachable packageVersion sys -> invariant sys.
Proof.
  induction 1 as [scope e w|sys sys' _ IH Hstep].
  - apply initial_invariant.
  - exact (step_invariant _ _ _ Hstep IH).
Qed.

(** Once [create] has handed the client out, a held session comes with a
    bound channel. *)
Lemma ready_session_has_channel packageVersion sys :
  reachable packageVersion sys -> phase sys = Ready ->
  is_Some (session (client sys)) -> is_Some (rpc (client sys)).
Proof.
  intros Hreach Hph Hs. apply reachable_invariant in Hreach.
  unfold invariant, core in Hreach. rewrite Hph in Hreach.
  destruct (session (client sys)); [|now destruct Hs as [? [=]]].
  destruct (listening (client sys)); cbn in Hreach;
    destruct Hreach as (H1 & H2 & _);
    specialize (H1 ltac:(eauto)); [|discriminate].
  specialize (H2 eq_refl eq_refl). now apply bool_decide_eq_true in H2.
Qed.

End LifecycleFacts.

(** *** Disconnecting *)

Section DisconnectFacts.
Import Js Types Runtime Handlers AzguardClient Lifecycle.

Lemma demo_ready_reachable : reachable "1.2.0" Demo.ready_system.
Proof.
  apply (reachable_step _ Demo.ready_2);
    [apply (reachable_step _ Demo.ready_1);
       [apply (reachable_step _ Demo.ready_0); [apply reachable_initial|]|]|].
  - exact (step_found_fresh "1.2.0" Demo.ready_0 Demo.azguard _ _
             eq_refl eq_refl eq_refl).
  - exact (step_connect "1.2.0" Demo.ready_1 {| name := "dapp" |} [Demo.grant]
             None _ _ eq_refl eq_refl).
  - exact (step_connected "1.2.0" Demo.ready_2 Demo.session1 []
             (Permutation_refl _)).
Qed.

Lemma demo_restoring_reachable : reachable "1.2.0" Demo.restoring_system.
Proof.
  apply (reachable_step _ Demo.restoring_1);
    [apply (reachable_step _ Demo.restoring_0); [apply reachable_initial|]|].
  - exact (step_found_stored "1.2.0" Demo.restoring_0 Demo.azguard _ _
             eq_refl eq_refl eq_refl).
  - exact (step_session_updated "1.2.0" Demo.restoring_1 Demo.session1 eq_refl).
Qed.

End DisconnectFacts.

Section TeardownFacts.
Import Js Types Runtime Handlers AzguardClient Lifecycle.
Context {W U : Type}.
Implicit Types (st : State W U) (sys : System W U).

Lemma disconnect_run st s ch :
  session st = Some s -> rpc st = Some ch ->
  disconnect st
  = (set_wallet (fst (request_close_session ch (id s) (wallet st)))
       (set_trace (trace st ++ [Requested (ReqCloseSession (id s))]) st),
     settle (snd (request_close_session ch (id s) (wallet st)))).
Proof.
  intros Hs Hrpc. unfold disconnect, bind, gets. rewrite Hs, Hrpc.
  apply request_run.
Qed.

Lemma disconnect_frame st :
  session (fst (disconnect st)) = session st
  /\ view_of (fst (disconnect st)) = view_of st
  /\ env (fst (disconnect st)) = env st.
Proof.
  unfold disconnect, bind, gets, throw, ret.
  destruct (session st) as [s|] eqn:Hs; [|now rewrite ?Hs].
  destruct (rpc st) as [ch|] eqn:Hrpc; [|now rewrite ?Hs].
  rewrite request_run. destruct st; cbn in *. now subst.
Qed.

(** From a client that callers hold, only a [session_closed] push takes a
    held session away. *)
Lemma teardown_by_push_only packageVersion sys sys' :
  step packageVersion sys sys' ->
  phase sys = Ready ->
  is_Some (session (client sys)) ->
  session (client sys') = None ->
  client sys' = fst (onSessionClosed (client sys)).
Proof.
  intros Hstep Hph [s Hs] Hnone.
  assert (Hcore : forall st', core st' = core (client sys) -> session st' <> None).
  { unfold core. intros st' [= H _ _]. congruence. }
  assert (Hsome : forall st' x b l, core st' = (Some x, b, l) -> session st' <> None).
  { unfold core. intros st' x b l [= H _ _]. congruence. }
  destruct Hstep; cbn [client] in *; try congruence;
    try (exfalso; revert Hnone;
         first [ apply Hcore;
                 first [ apply disconnect_core | apply execute_core
                       | apply getWalletInfo_core ]
               | eapply Hsome;
                 first [ apply onSessionUpdated_core | apply connect_resume_core ]
               ]).
  - (* connect, up to its await *)
    exfalso. revert Hnone. apply Hcore.
    match goal with H : connect_request ?m ?r ?o _ = _ |- _ =>
      pose proof (proj1 (connect_request_core m r o (client sys))) as Hc;
      rewrite H in Hc; exact Hc end.
  - destruct (client sys); cbn in *; congruence.
  - destruct (client sys); cbn in *; congruence.
  - destruct (client sys); cbn in *; congruence.
  - destruct (client sys); cbn in *; congruence.
  - destruct (client sys); cbn in *; congruence.
Qed.

End TeardownFacts.

(** C8.  For a client that [create] has handed out: without a session
    [disconnect] returns at once, issuing no request and changing nothing;
    with a session it finds the channel bound, issues one [close_session]
    request for the stored session's id and completes with the channel's
    response, and afterwards the stored session, what the getters return
    and the environment (the storage entry with it) are as before; the
    session is taken away only by a [session_closed] push. *)
Theorem disconnect_requests_close_and_keeps_state :
  forall (W U : Type) (packageVersion : string) (sys : Lifecycle.System W U),
    Lifecycle.reachable packageVersion sys ->
    Lifecycle.phase sys = Lifecycle.Ready ->
    (Runtime.session (Lifecycle.client sys) = None ->
     AzguardClient.disconnect (Lifecycle.client sys)
     = (Lifecycle.client sys, Js.Normal tt))
    /\ (forall s, Runtime.session (Lifecycle.client sys) = Some s ->
          exists ch,
            Runtime.rpc (Lifecycle.client sys) = Some ch
            /\ AzguardClient.disconnect (Lifecycle.client sys)
               = (Runtime.set_wallet
                    (fst (Types.request_close_session ch (Types.id s)
                            (Runtime.wallet (Lifecycle.client sys))))
                    (Runtime.set_trace
                       (Runtime.trace (Lifecycle.client sys)
                          ++ [Runtime.Requested
                                (Runtime.ReqCloseSession (Types.id s))])
                       (Lifecycle.client sys)),
                  Types.settle
                    (snd (Types.request_close_session ch (Types.id s)
                            (Runtime.wallet (Lifecycle.client sys))))))
    /\ Runtime.session (fst (AzguardClient.disconnect (Lifecycle.client sys)))
       = Runtime.session (Lifecycle.client sys)
    /\ Runtime.view_of (fst (AzguardClient.disconnect (Lifecycle.client sys)))
       = Runtime.view_of (Lifecycle.client sys)
    /\ Runtime.env (fst (AzguardClient.disconnect (Lifecycle.client sys)))
       = Runtime.env (Lifecycle.client sys)
    /\ (forall sys',
          Lifecycle.step packageVersion sys sys' ->
          is_Some (Runtime.session (Lifecycle.client sys)) ->
          Runtime.session (Lifecycle.client sys') = None ->
          Lifecycle.client sys'
          = fst (AzguardClient.onSessionClosed (Lifecycle.client sys))).
Proof.
  intros W U packageVersion sys Hreach Hph.
  split; [|split].
  - intros Hs. unfold AzguardClient.disconnect, Runtime.bind, Runtime.gets.
    now rewrite Hs.
  - intros s Hs.
    destruct (ready_session_has_channel packageVersion sys Hreach Hph
                ltac:(eauto)) as [ch Hch].
    exists ch. split; [exact Hch|]. now apply disconnect_run.
  - destruct (disconnect_frame (Lifecycle.client sys)) as (H1 & H2 & H3).
    repeat split; try assumption.
    intros sys' Hstep. now apply (teardown_by_push_only packageVersion).
Qed.

Lemma disconnect_requests_close_and_keeps_state_witness :
  Runtime.session (fst (AzguardClient.disconnect (Lifecycle.client Demo.ready_system)))
  = Some Demo.session1
  /\ Runtime.env (fst (AzguardClient.disconnect (Lifecycle.client Demo.ready_system)))
     = Runtime.env (Lifecycle.client Demo.ready_system).
Proof.
  destruct (disconnect_requests_close_and_keeps_state nat (list bool) "1.2.0"
              Demo.ready_system demo_ready_reachable eq_refl)
    as (_ & _ & Hsession & _ & Henv & _).
  split; [exact Hsession|exact Henv].
Defined.

(** C9, as the code has it.  In every system a run reaches in which
    [create] has handed the client out, a held session comes with a bound
    channel, and [disconnect] is then the channel's [close_session]
    request: its [this.#rpc!] finds the channel. *)
Theorem session_held_implies_channel_bound :
  forall (W U : Type) (packageVersion : string) (sys : Lifecycle.System W U),
    Lifecycle.reachable packageVersion sys ->
    Lifecycle.phase sys = Lifecycle.Ready ->
    forall s, Runtime.session (Lifecycle.client sys) = Some s ->
    exists ch,
      Runtime.rpc (Lifecycle.client sys) = Some ch
      /\ AzguardClient.disconnect (Lifecycle.client sys)
         = Runtime.request (Runtime.ReqCloseSession (Types.id s))
             (Types.request_close_session ch (Types.id s))
             (Lifecycle.client sys).
Proof.
  intros W U packageVersion sys Hreach Hph s Hs.
  destruct (ready_session_has_channel packageVersion sys Hreach Hph
              ltac:(eauto)) as [ch Hch].
  exists ch. split; [exact Hch|].
  unfold AzguardClient.disconnect, Runtime.bind, Runtime.gets.
  now rewrite Hs, Hch.
Qed.

Lemma session_held_implies_channel_bound_witness :
  exists ch,
    Runtime.rpc (Lifecycle.client Demo.ready_system) = Some ch
    /\ AzguardClient.disconnect (Lifecycle.client Demo.ready_system)
       = Runtime.request (Runtime.ReqCloseSession "session-1")
           (Types.request_close_session ch "session-1")
           (Lifecycle.client Demo.ready_system).
Proof.
  exact (session_held_implies_channel_bound nat (list bool) "1.2.0"
           Demo.ready_system demo_ready_reachable eq_refl Demo.session1 eq_refl).
Defined.

(** C9, as the claim words it, fails on the code: while [#init] awaits the
    stored session, a [session_updated] push stores a session in a client
    whose channel is not bound yet. *)
Lemma session_without_channel_while_restoring :
  Lifecycle.reachable "1.2.0" Demo.restoring_system
  /\ Runtime.session (Lifecycle.client Demo.restoring_system)
     = Some Demo.session1
  /\ Runtime.rpc (Lifecycle.client Demo.restoring_system) = None.
Proof.
  split; [exact demo_restoring_reachable|]. split; reflexivity.
Qed.

(** *** The ShieldSwap adapter *)

Section ProviderFacts.
Import Js Types Runtime Handlers AzguardClient ShieldSwapAzguardProvider.
Context {W U : Type}.
Implicit Types (st : State W U).

(** [Array.prototype.find]: the first element, in list order, that
    satisfies the test. *)
Lemma find_first {A} (f : A -> bool) (l : list A) a :
  List.find f l = Some a
  <-> exists before after,
        l = before ++ a :: after /\ f a = true
        /\ Forall (fun x => f x = false) before.
Proof.
  induction l as [|x l IH]; cbn.
  - split; [discriminate|]. intros ([|? ?] & ? & [=] & _).
  - destruct (f x) eqn:Hx.
    + split.
      * intros [= ->]. exists [], l. repeat split; [exact Hx|constructor].
      * intros ([|y before] & after & Hl & Ha & Hbefore).
        -- cbn in Hl. congruence.
        -- cbn in Hl. injection Hl as -> ->.
           apply Forall_cons in Hbefore as [Hy _]. congruence.
    + rewrite IH. split.
      * intros (before & after & -> & Ha & Hbefore).
        exists (x :: before), after. repeat split; [exact Ha|].
        now constructor.
      * intros ([|y before] & after & Hl & Ha & Hbefore).
        -- cbn in Hl. injection Hl as -> ->. congruence.
        -- cbn in Hl. injection Hl as -> ->.
           apply Forall_cons in Hbefore as [_ Hbefore]. eauto.
Qed.

Lemma find_nonempty from (l : list string) account :
  ~ In "" l ->
  List.find (fun x => endsWith x from) l = Some account ->
  falsy (Some account) = false.
Proof.
  intros Hne Hfind. cbn. apply String.eqb_neq. intros ->.
  apply find_some in Hfind as [Hin _]. contradiction.
Qed.

(** What [execute] can complete with. *)
Lemma execute_completions operations st :
  (rpc st = None
   /\ execute operations st
      = (st, Throw (Error "Azguard Wallet is not installed")))
  \/ (session st = None
      /\ execute operations st
         = (st, Throw (Error "Azguard Wallet is not connected")))
  \/ exists ch s,
       rpc st = Some ch /\ session st = Some s
       /\ execute operations st
          = (set_wallet
               (fst (request_execute ch (id s) operations (wallet st)))
               (set_trace (trace st ++ [Requested (ReqExecute (id s) operations)])
                  st),
             settle (snd (request_execute ch (id s) operations (wallet st)))).
Proof.
  unfold execute, bind, gets, throw.
  destruct (rpc st) as [ch|] eqn:Hrpc; [|now left].
  destruct (session st) as [s|] eqn:Hs; [|now right; left].
  right; right. exists ch, s. repeat split. apply request_run.
Qed.

Lemma aztec_call_resolved st from calls account :
  ~ In "" (accounts st) ->
  List.find (fun x => endsWith x from) (accounts st) = Some account ->
  aztec_call from calls st
  = bind (execute [SimulateViews account (map encoded_call calls)])
      (fun results =>
         match results with
         | result :: _ =>
             if negb (String.eqb (status result) "ok")
             then throw (Error ("Simulation failed: " +:+ error_text result))
             else eval (encoded_of (result_of result))
         | [] => throw TypeError
         end) st.
Proof.
  intros Hne Hfind. unfold aztec_call. unfold bind at 1, gets at 1.
  rewrite Hfind, (find_nonempty _ _ _ Hne Hfind). reflexivity.
Qed.

Lemma aztec_sendTransaction_resolved st from calls authWitnesses account :
  ~ In "" (accounts st) ->
  List.find (fun x => endsWith x from) (accounts st) = Some account ->
  aztec_sendTransaction from calls authWitnesses st
  = bind (execute
            [SendTransaction account
               (map add_private_authwit authWitnesses
                  ++ map (fun x => EncodedCall (encoded_call x)) calls)])
      (fun results =>
         match results with
         | result :: _ =>
             if negb (String.eqb (status result) "ok")
             then throw (Error ("Operation failed: " +:+ error_text result))
             else ret (result_of result)
         | [] => throw TypeError
         end) st.
Proof.
  intros Hne Hfind. unfold aztec_sendTransaction. unfold bind at 1, gets at 1.
  rewrite Hfind, (find_nonempty _ _ _ Hne Hfind). reflexivity.
Qed.

(** Whatever follows the resolution of the account, it does not throw
    "Unauthorized account", and when a channel is bound and a session held
    it issues exactly the one [execute] request. *)
Lemma after_resolution {A} operation (k : list OperationResult -> M (W := W) (U := U) A) st :
  (forall results st', snd (k results st') <> Throw (Error "Unauthorized account")) ->
  (forall results st', fst (k results st') = st') ->
  snd (bind (execute [operation]) k st) <> Throw (Error "Unauthorized account")
  /\ (forall ch s, rpc st = Some ch -> session st = Some s ->
        trace (fst (bind (execute [operation]) k st))
        = trace st ++ [Requested (ReqExecute (id s) [operation])]).
Proof.
  intros Hk Hst. unfold bind.
  destruct (execute_completions [operation] st)
    as [[Hrpc Hex]|[[Hs Hex]|(ch & s & Hrpc & Hs & Hex)]]; rewrite Hex.
  - split; [discriminate|]. intros; congruence.
  - split; [discriminate|]. intros; congruence.
  - destruct (snd (request_execute ch (id s) [operation] (wallet st)))
      as [results|reason]; cbn [settle].
    + split; [apply Hk|]. intros ch' s' Hrpc' Hs'.
      rewrite Hst. destruct st; cbn in *. congruence.
    + split; [discriminate|].
      intros ch' s' Hrpc' Hs'. destruct st; cbn in *. congruence.
Qed.

End ProviderFacts.

Section ProviderClaims.
Import Js Types Runtime Handlers AzguardClient ShieldSwapAzguardProvider.

Lemma suffix_match_found from (l : list string) :
  (exists x, In x l /\ exists p, x = p +:+ from) ->
  exists account, List.find (fun x => endsWith x from) l = Some account.
Proof.
  intros (x & Hin & Hsuffix). apply endsWith_spec in Hsuffix.
  destruct (List.find (fun x => endsWith x from) l) as [a|] eqn:Hfind; [eauto|].
  pose proof (find_none _ _ Hfind x Hin) as Hx. cbn in Hx. congruence.
Qed.

End ProviderClaims.

(** C1, as the code has it.  When [from] is a suffix of some account of
    the client (none of them the empty string), the adapter resolves it to
    an account; it builds a [simulate_views] operation with one
    encoded-call entry per supplied call, in order; and when the core's
    [execute] of that one operation returns a batch whose first result has
    status "ok" and holds a simulate-views result, [aztec_call] returns
    that result's [encoded] array. *)
Theorem aztec_call_returns_encoded :
  forall (W U : Type) (st : Runtime.State W U) (from : string)
         (calls : list Types.SerializedFunctionCall),
    ~ In "" (Runtime.accounts st) ->
    (exists x, In x (Runtime.accounts st) /\ exists p, x = p +:+ from) ->
    exists account,
      List.find (fun x => Js.endsWith x from) (Runtime.accounts st) = Some account
      /\ length (map ShieldSwapAzguardProvider.encoded_call calls) = length calls
      /\ forall st' views rest,
           AzguardClient.execute
             [Types.SimulateViews account
                (map ShieldSwapAzguardProvider.encoded_call calls)] st
           = (st', Js.Normal (Types.OkResult (Types.SimulatedViews views) :: rest)) ->
           ShieldSwapAzguardProvider.aztec_call from calls st
           = (st', Js.Normal (Some (Types.encoded views))).
Proof.
  intros W U st from calls Hne Hmatch.
  destruct (suffix_match_found from _ Hmatch) as [account Hfind].
  exists account. split; [exact Hfind|]. split; [apply length_map|].
  intros st' views rest Hexec.
  rewrite (aztec_call_resolved st from calls account Hne Hfind).
  unfold Runtime.bind. rewrite Hexec. reflexivity.
Qed.

Lemma aztec_call_returns_encoded_witness :
  exists st',
    ShieldSwapAzguardProvider.aztec_call "0xabc"
      [ {| Types.to := "0x1"; Types.selector := "0x2"; Types.args := ["0x3"] |} ]
      Demo.connected_client
    = (st', Js.Normal (Some [["0x64"]])).
Proof.
  destruct (aztec_call_returns_encoded nat (list bool) Demo.connected_client
              "0xabc"
              [ {| Types.to := "0x1"; Types.selector := "0x2";
                   Types.args := ["0x3"] |} ])
    as (account & Hfind & _ & Hcall).
  - cbn. intros [H|[H|[]]]; discriminate H.
  - exists Demo.alice. split; [now left|]. now exists "aztec:1337:".
  - injection Hfind as <-. eexists. apply (Hcall _ Demo.views []). reflexivity.
Defined.

(** C1, as the claim words it, fails on the code: the array returned is
    the result's [encoded] array, which is not its [decoded] array. *)
Lemma aztec_call_returns_encoded_not_decoded :
  snd (ShieldSwapAzguardProvider.aztec_call "0xabc"
         [ {| Types.to := "0x1"; Types.selector := "0x2"; Types.args := ["0x3"] |} ]
         Demo.connected_client)
  = Js.Normal (Some (Types.encoded Demo.views))
  /\ map Types.DFields (Types.encoded Demo.views) <> Types.decoded Demo.views.
Proof. split; [reflexivity|discriminate]. Qed.

(** C10.  For a client none of whose account identifiers is the empty
    string (a chain-qualified identifier never is): [from] resolves to the
    first account, in list order, of which it is a suffix; once it does,
    neither [aztec_call] nor [aztec_sendTransaction] throws "Unauthorized
    account", and with a channel bound the one [execute] request they issue
    names that account; every string ends with the empty string, so the
    empty [from] resolves to the first account of a non-empty list. *)
Theorem from_resolves_to_first_suffix_match :
  forall (W U : Type) (st : Runtime.State W U) (from : string)
         (calls : list Types.SerializedFunctionCall)
         (authWitnesses : list Types.AuthWitness),
    ~ In "" (Runtime.accounts st) ->
    (forall account,
        List.find (fun x => Js.endsWith x from) (Runtime.accounts st) = Some account
        <-> exists before after,
              Runtime.accounts st = before ++ account :: after
              /\ (exists p, account = p +:+ from)
              /\ Forall (fun x => ~ exists p, x = p +:+ from) before)
    /\ (forall account,
          List.find (fun x => Js.endsWith x from) (Runtime.accounts st) = Some account ->
          snd (ShieldSwapAzguardProvider.aztec_call from calls st)
            <> Js.Throw (Js.Error "Unauthorized account")
          /\ snd (ShieldSwapAzguardProvider.aztec_sendTransaction from calls
                    authWitnesses st)
             <> Js.Throw (Js.Error "Unauthorized account")
          /\ forall ch s,
               Runtime.rpc st = Some ch -> Runtime.session st = Some s ->
               Runtime.trace (fst (ShieldSwapAzguardProvider.aztec_call from calls st))
               = Runtime.trace st
                   ++ [Runtime.Requested
                         (Runtime.ReqExecute (Types.id s)
                            [Types.SimulateViews account
                               (map ShieldSwapAzguardProvider.encoded_call calls)])]
               /\ Runtime.trace
                    (fst (ShieldSwapAzguardProvider.aztec_sendTransaction from
                            calls authWitnesses st))
                  = Runtime.trace st
                      ++ [Runtime.Requested
                            (Runtime.ReqExecute (Types.id s)
                               [Types.SendTransaction account
                                  (map ShieldSwapAzguardProvider.add_private_authwit
                                     authWitnesses
                                   ++ map (fun x => Types.EncodedCall
                                              (ShieldSwapAzguardProvider.encoded_call x))
                                        calls)])])
    /\ (forall x, Js.endsWith x "" = true)
    /\ (forall a rest,
          Runtime.accounts st = a :: rest ->
          List.find (fun x => Js.endsWith x "") (Runtime.accounts st) = Some a).
Proof.
  intros W U st from calls authWitnesses Hne.
  split; [|split; [|split]].
  - intros account. rewrite find_first. split.
    + intros (before & after & Hl & Ha & Hbefore).
      exists before, after. split; [exact Hl|].
      split; [now apply endsWith_spec|].
      eapply Forall_impl; [exact Hbefore|]. cbn. intros x Hx Hsuffix.
      apply endsWith_spec in Hsuffix. congruence.
    + intros (before & after & Hl & Ha & Hbefore).
      exists before, after. split; [exact Hl|].
      split; [now apply endsWith_spec|].
      eapply Forall_impl; [exact Hbefore|]. cbn. intros x Hx.
      destruct (Js.endsWith x from) eqn:Hends; [|reflexivity].
      exfalso. apply Hx. now apply endsWith_spec.
  - intros account Hfind.
    rewrite (aztec_call_resolved st from calls account Hne Hfind).
    rewrite (aztec_sendTransaction_resolved st from calls authWitnesses
               account Hne Hfind).
    match goal with
    | |- snd (Runtime.bind _ ?k1 _) <> _ /\ snd (Runtime.bind _ ?k2 _) <> _ /\ _ =>
        assert (Hk1 : (forall results st', snd (k1 results st')
                         <> Js.Throw (Js.Error "Unauthorized account"))
                      /\ (forall results st', fst (k1 results st') = st'));
        [|assert (Hk2 : (forall results st', snd (k2 results st')
                            <> Js.Throw (Js.Error "Unauthorized account"))
                         /\ (forall results st', fst (k2 results st') = st'))]
    end.
    { split; intros [|r results] st'; cbn; try discriminate; try reflexivity;
        destruct r as [[h|v|]| |]; cbn; try discriminate; try reflexivity;
        intros [= H]; discriminate H. }
    { split; intros [|r results] st'; cbn; try discriminate; try reflexivity;
        destruct r as [[h|v|]| |]; cbn; try discriminate; try reflexivity;
        intros [= H]; discriminate H. }
    destruct Hk1 as [Hk1 Hst1], Hk2 as [Hk2 Hst2].
    pose proof (after_resolution
                  (Types.SimulateViews account
                     (map ShieldSwapAzguardProvider.encoded_call calls))
                  _ st Hk1 Hst1) as [Hc Htc].
    pose proof (after_resolution
                  (Types.SendTransaction account
                     (map ShieldSwapAzguardProvider.add_private_authwit
                        authWitnesses
                      ++ map (fun x => Types.EncodedCall
                                (ShieldSwapAzguardProvider.encoded_call x))
                           calls))
                  _ st Hk2 Hst2) as [Hs Hts].
    split; [exact Hc|]. split; [exact Hs|].
    intros ch s Hrpc Hsess. split; [now apply (Htc ch)|now apply (Hts ch)].
  - exact endsWith_empty.
  - intros a rest ->. cbn [List.find]. now rewrite endsWith_empty.
Qed.

Lemma from_resolves_to_first_suffix_match_witness :
  List.find (fun x => Js.endsWith x "") (Runtime.accounts Demo.connected_client)
  = Some Demo.alice
  /\ snd (ShieldSwapAzguardProvider.aztec_sendTransaction "" [] []
            Demo.connected_client)
     <> Js.Throw (Js.Error "Unauthorized account").
Proof.
  assert (Hne : ~ In "" (Runtime.accounts Demo.connected_client)).
  { cbn. intros [H|[H|[]]]; discriminate H. }
  destruct (from_resolves_to_first_suffix_match nat (list bool)
              Demo.connected_client "" [] [] Hne)
    as (_ & Hrun & _ & Hfirst).
  split; [exact (Hfirst Demo.alice [Demo.bob] eq_refl)|].
  exact (proj1 (proj2 (Hrun Demo.alice (Hfirst Demo.alice [Demo.bob] eq_refl)))).
Defined.

(** The edge that the hypothesis on the identifiers excludes: were the
    first account the empty string, [!account] would be true for it and the
    empty [from] would be refused. *)
Lemma empty_account_is_refused :
  snd (ShieldSwapAzguardProvider.aztec_call "" []
         (Runtime.set_session
            (Some {| Types.id := "s"; Types.accounts := [""];
                     Types.permissions := [] |})
            Demo.connected_client))
  = Js.Throw (Js.Error "Unauthorized account").
Proof. reflexivity. Qed.

(** *** The registry as a live set *)

Section LiveSetFacts.
Import Js LiveSet.
Context {S T : Type}.
Implicit Types (c : Callback S T) (it : Iteration S T)
  (handlers : list (Callback S T)).

Lemma live_has_spec i it :
  has i it = true <-> In i (map identity (passed it ++ ahead it)).
Proof.
  unfold has. rewrite existsb_exists, in_map_iff. split.
  - intros (c & Hin & Heq). apply Nat.eqb_eq in Heq. eauto.
  - intros (c & Heq & Hin). exists c. split; [exact Hin|].
    now apply Nat.eqb_eq.
Qed.

Lemma filter_identity_NoDup i handlers :
  NoDup (map identity handlers) ->
  NoDup (map identity
           (List.filter (fun c => negb (Nat.eqb (identity c) i)) handlers)).
Proof.
  induction handlers as [|c handlers IH]; cbn; intros Hnd; [constructor|].
  apply NoDup_cons in Hnd as [Hnotin Hnd].
  destruct (negb (identity c =? i)); cbn; [|auto].
  apply NoDup_cons. split; [|auto].
  intros Hin. apply Hnotin.
  apply list_elem_of_In in Hin. apply list_elem_of_In.
  apply in_map_iff in Hin as (x & Hx & Hin).
  apply filter_In in Hin as [Hin _]. apply in_map_iff. eauto.
Qed.

(** Built from the empty set, a set holds a callback at most once, and
    nothing has been passed. *)
Lemma registry_of_live_NoDup (calls : list (RegistryCall S T)) :
  NoDup (map identity (registry_of calls)).
Proof.
  unfold registry_of.
  assert (H : forall it,
             passed it = [] -> NoDup (map identity (ahead it)) ->
             passed (fold_left apply_call calls it) = []
             /\ NoDup (map identity (ahead (fold_left apply_call calls it)))).
  { induction calls as [|call calls IH]; intros it Hp Hnd; [now split|].
    cbn [fold_left]. apply IH; destruct call as [c|i]; cbn.
    - unfold add. now destruct (has (identity c) it).
    - now rewrite Hp.
    - unfold add. destruct (has (identity c) it) eqn:Hhas; [exact Hnd|].
      cbn. rewrite map_app. apply NoDup_app. repeat split.
      + exact Hnd.
      + intros x Hx Hx'. apply list_elem_of_In in Hx.
        apply list_elem_of_In in Hx'. destruct Hx' as [<-|[]].
        assert (has (identity c) it = true); [|congruence].
        apply live_has_spec. rewrite Hp. exact Hx.
      + apply NoDup_singleton.
    - now apply filter_identity_NoDup. }
  apply (H {| passed := []; ahead := [] |}); [reflexivity|constructor].
Qed.

(** Callbacks that leave the registry alone are visited one after the
    other, each once, whether they return or throw. *)
Lemma iterate_quiet payload : forall handlers fuel before s invoked,
  Forall (quiet payload) handlers ->
  length handlers < fuel ->
  iterate fuel {| passed := before; ahead := handlers |} payload s invoked
  = Some ({| passed := before ++ handlers; ahead := [] |},
          after handlers payload s,
          invoked ++ map identity handlers).
Proof.
  induction handlers as [|c handlers IH]; intros fuel before s invoked Hquiet Hfuel;
    (destruct fuel as [|fuel]; [cbn in Hfuel; lia|]).
  - cbn. now rewrite !app_nil_r.
  - apply Forall_cons in Hquiet as [Hc Hquiet].
    cbn [iterate ahead passed after map].
    specialize (Hc s).
    destruct (body c payload s) as [[s' completion] calls]. cbn in Hc. subst calls.
    cbn [fold_left fst].
    destruct completion;
      (rewrite IH by (assumption || (cbn in Hfuel; lia));
       now rewrite <- !app_assoc).
Qed.

Lemma count_registered handlers i :
  NoDup (map identity handlers) ->
  count_occ Nat.eq_dec (map identity handlers) i
  = if has i {| passed := []; ahead := handlers |} then 1 else 0.
Proof.
  intros Hnd.
  pose proof (proj1 (NoDup_count_occ Nat.eq_dec _)
                ltac:(apply NoDup_ListNoDup; exact Hnd) i) as Hle.
  pose proof (count_occ_In Nat.eq_dec (map identity handlers) i) as Hin.
  assert (Hhas : has i {| passed := []; ahead := handlers |} = true
                 <-> In i (map identity handlers))
    by apply (live_has_spec i {| passed := []; ahead := handlers |}).
  destruct (has i _).
  - assert (In i (map identity handlers)) by now apply Hhas.
    apply Hin in H. lia.
  - destruct (count_occ Nat.eq_dec (map identity handlers) i) as [|n] eqn:Hc;
      [reflexivity|].
    assert (In i (map identity handlers)) by (apply Hin; lia).
    apply Hhas in H. discriminate.
Qed.

End LiveSetFacts.

Section LiveSetAgreement.
Import Js Runtime LiveSet.
Context {U T : Type}.

(** On such callbacks the live set and the loop of [Handlers.dispatch] do
    the same. *)
Lemma dispatch_agrees view (handlers : EventHandlers U T) payload e fuel :
  length handlers < fuel ->
  LiveSet.dispatch fuel (map (as_callback view) handlers) payload e
  = Some ({| passed := map (as_callback view) handlers; ahead := [] |},
          Handlers.after_handlers handlers payload view e,
          map handler_id handlers).
Proof.
  intros Hfuel. unfold LiveSet.dispatch.
  rewrite iterate_quiet.
  - cbn. do 2 f_equal; [f_equal|].
    + revert e. induction handlers as [|h handlers IH]; intros e; [reflexivity|].
      cbn. destruct (handler_body h payload view e). cbn. apply IH.
      cbn in Hfuel. lia.
    + now rewrite map_map.
  - apply Forall_forall. intros c Hc.
    apply list_elem_of_In, in_map_iff in Hc as (h & <- & _). now intros s.
  - now rewrite length_map.
Qed.

End LiveSetAgreement.

(** C5, as the code has it.  (1) For the class on its own, with callbacks
    that may call [addHandler] and [removeHandler] while they run: when no
    callback of the set makes such a call during the dispatch, the loop
    ends, every registered callback is invoked exactly once (a callback
    added twice is in the set once) and no other is, in the set's order,
    whichever callbacks throw, and the set is left as it was.  (2) For the
    registries of the client, whose subscribers are such callbacks:
    [dispatch] returns normally, that is, the exception of a handler is
    caught and goes no further, and each registered handler is invoked
    exactly once.  (3) The two models of the loop agree on such
    callbacks. *)
Theorem dispatch_invokes_each_handler_once :
  (forall (S T : Type) (calls : list (LiveSet.RegistryCall S T))
          (payload : T) (s : S) (fuel : nat),
      Forall (LiveSet.quiet payload) (LiveSet.registry_of calls) ->
      length (LiveSet.registry_of calls) < fuel ->
      LiveSet.dispatch fuel (LiveSet.registry_of calls) payload s
      = Some ({| LiveSet.passed := LiveSet.registry_of calls;
                 LiveSet.ahead := [] |},
              LiveSet.after (LiveSet.registry_of calls) payload s,
              map LiveSet.identity (LiveSet.registry_of calls))
      /\ (forall i,
            count_occ Nat.eq_dec
              (map LiveSet.identity (LiveSet.registry_of calls)) i
            = if LiveSet.has i {| LiveSet.passed := [];
                                  LiveSet.ahead := LiveSet.registry_of calls |}
              then 1 else 0))
  /\ (forall (W U T : Type) (ev : Runtime.EventName)
             (inj : T -> Runtime.Payload)
             (calls : list (Handlers.RegistryCall U T)) (payload : T)
             (st : Runtime.State W U),
        exists st' effects,
          Handlers.dispatch ev inj (Handlers.registry_of calls) payload st
            = (st', Js.Normal tt)
          /\ Runtime.trace st' = Runtime.trace st ++ effects
          /\ (forall h : Runtime.Handler U T,
                Handlers.invocations ev (Runtime.handler_id h) effects
                = if Handlers.has h (Handlers.registry_of calls) then 1 else 0)
          /\ Runtime.env st'
             = Handlers.after_handlers (Handlers.registry_of calls) payload
                 (Runtime.view_of st) (Runtime.env st)
          /\ (forall h : Runtime.Handler U T,
                Handlers.registry_of (calls ++ [Handlers.Add h; Handlers.Add h])
                = Handlers.registry_of (calls ++ [Handlers.Add h])))
  /\ (forall (U T : Type) (view : Runtime.ClientView)
             (handlers : Runtime.EventHandlers U T) (payload : T)
             (e : Runtime.Env U) (fuel : nat),
        length handlers < fuel ->
        LiveSet.dispatch fuel (map (LiveSet.as_callback view) handlers) payload e
        = Some ({| LiveSet.passed := map (LiveSet.as_callback view) handlers;
                   LiveSet.ahead := [] |},
                Handlers.after_handlers handlers payload view e,
                map Runtime.handler_id handlers)).
Proof.
  split; [|split].
  - intros S T calls payload s fuel Hquiet Hfuel. split.
    + unfold LiveSet.dispatch. now rewrite iterate_quiet.
    + intros i. apply count_registered, registry_of_live_NoDup.
  - intros. apply dispatch_subscribers_once.
  - intros. now apply dispatch_agrees.
Qed.

(** A callback that throws, registered first, does not keep the counting
    callback, added twice, from being called, once. *)
Lemma dispatch_invokes_each_handler_once_witness :
  LiveSet.dispatch 3
    (LiveSet.registry_of
       [LiveSet.AddHandler Demo.thrower; LiveSet.AddHandler Demo.counter;
        LiveSet.AddHandler Demo.counter])
    tt 0
  = Some ({| LiveSet.passed := [Demo.thrower; Demo.counter];
             LiveSet.ahead := [] |}, 2, [3; 2]).
Proof.
  refine (proj1 (proj1 dispatch_invokes_each_handler_once nat unit
                   [LiveSet.AddHandler Demo.thrower;
                    LiveSet.AddHandler Demo.counter;
                    LiveSet.AddHandler Demo.counter] tt 0 3 _ _)).
  - repeat constructor.
  - cbn. lia.
Defined.

(** C5, as the claim words it, fails on the code: a handler that
    unsubscribes a handler the loop has not reached yet keeps it from being
    invoked, although it was registered when [dispatch] was called. *)
Lemma dispatch_skips_unsubscribed_handler :
  LiveSet.has 2 {| LiveSet.passed := [];
                   LiveSet.ahead :=
                     LiveSet.registry_of
                       [LiveSet.AddHandler Demo.remover;
                        LiveSet.AddHandler Demo.counter] |} = true
  /\ LiveSet.dispatch 3
       (LiveSet.registry_of
          [LiveSet.AddHandler Demo.remover; LiveSet.AddHandler Demo.counter])
       tt 0
     = Some ({| LiveSet.passed := [Demo.remover]; LiveSet.ahead := [] |},
             0, [1]).
Proof. split; reflexivity. Qed.

(** ** Further properties of the code *)

(** *** [connect], [getWalletInfo] and [#init] *)

Section ConnectFacts.
Import Js Types Runtime Handlers AzguardClient Observations.
Context {W U : Type}.
Implicit Types (st : State W U).
Local Arguments dispatch : simpl never.

Lemma requests_of_app t t' :
  requests_of (t ++ t') = requests_of t ++ requests_of t'.
Proof.
  induction t as [|e t IH]; [reflexivity|].
  destruct e; cbn; rewrite IH; reflexivity.
Qed.

Lemma warnings_of_app t t' :
  warnings_of (t ++ t') = warnings_of t ++ warnings_of t'.
Proof.
  induction t as [|e t IH]; [reflexivity|].
  destruct e; cbn; rewrite IH; reflexivity.
Qed.

Lemma requests_of_dispatch_effects {T} ev payload view (handlers : EventHandlers U T) :
  requests_of (dispatch_effects ev payload view handlers) = [].
Proof. unfold dispatch_effects. cbn. induction handlers; auto. Qed.

Lemma after_handlers_keep_storage {T} (handlers : EventHandlers U T) payload view e :
  keep_storage handlers ->
  localStorage (after_handlers handlers payload view e) = localStorage e.
Proof.
  unfold keep_storage. revert e.
  induction handlers as [|h handlers IH]; intros e Hkeep; [reflexivity|].
  apply Forall_cons in Hkeep as [Hh Hkeep]. cbn.
  rewrite IH by exact Hkeep. apply Hh.
Qed.

Lemma connect_resume_run response st :
  connect_resume response st
  = (set_env
       (after_handlers (onConnected st) tt (view_with response)
          {| localStorage :=
               <[storage_key (scope st) := id response]> (localStorage (env st));
             user := user (env st) |})
       (set_session (Some response)
          (set_trace
             (trace st
                ++ [SessionAssigned (Some response);
                    StorageSet (storage_key (scope st)) (id response)]
                ++ dispatch_effects OnConnected NoPayload (view_with response)
                     (onConnected st))
             st)),
     Normal tt).
Proof.
  unfold connect_resume, bind, gets, assign_session, localStorage_setItem,
    log, modify.
  cbn. rewrite dispatch_run. destruct st; cbn. now rewrite <- !app_assoc.
Qed.

Lemma connect_run st dappMetadata required optional ch :
  rpc st = Some ch ->
  connect dappMetadata required optional st
  = let st1 :=
      set_wallet (fst (request_connect ch dappMetadata required optional (wallet st)))
        (set_trace
           (trace st ++ [Requested (ReqConnect dappMetadata required optional)])
           st) in
    match snd (request_connect ch dappMetadata required optional (wallet st)) with
    | Fulfilled response => connect_resume response st1
    | RejectedWith reason => (st1, Throw (Rejected reason))
    end.
Proof.
  intros Hrpc. unfold connect, connect_request. unfold bind at 1 2, gets at 1.
  rewrite Hrpc, request_run.
  now destruct (snd (request_connect ch dappMetadata required optional (wallet st))).
Qed.

Lemma connect_not_installed st dappMetadata required optional :
  rpc st = None ->
  connect dappMetadata required optional st
  = (st, Throw (Error "Azguard Wallet is not installed")).
Proof.
  intros Hrpc. unfold connect, connect_request. unfold bind at 1 2, gets at 1.
  now rewrite Hrpc.
Qed.

End ConnectFacts.

(** X1.  [connect] on a client without a channel throws "not installed"
    and changes nothing.  With a channel it issues one [connect] request
    carrying the three arguments.  When the channel rejects, the rejection
    is what [connect] throws, and the stored session, the environment (the
    storage with it) and the subscribers are as before: nothing is
    persisted and no event is dispatched.  When the channel answers with a
    session, that session replaces whatever was stored before, its
    identifier is written under the scope's key, and the connected event is
    then dispatched to subscribers that already read the new session. *)
Theorem connect_outcomes :
  forall (W U : Type) (st : Runtime.State W U)
         (dappMetadata : Types.DappMetadata)
         (required : list Types.DappPermissions)
         (optional : option (list Types.DappPermissions)),
    (Runtime.rpc st = None ->
     AzguardClient.connect dappMetadata required optional st
     = (st, Js.Throw (Js.Error "Azguard Wallet is not installed")))
    /\ (forall ch reason,
          Runtime.rpc st = Some ch ->
          snd (Types.request_connect ch dappMetadata required optional
                 (Runtime.wallet st)) = Types.RejectedWith reason ->
          exists st',
            AzguardClient.connect dappMetadata required optional st
            = (st', Js.Throw (Js.Rejected reason))
            /\ Runtime.session st' = Runtime.session st
            /\ Runtime.env st' = Runtime.env st
            /\ Runtime.trace st'
               = Runtime.trace st
                   ++ [Runtime.Requested
                         (Runtime.ReqConnect dappMetadata required optional)])
    /\ (forall ch response,
          Runtime.rpc st = Some ch ->
          snd (Types.request_connect ch dappMetadata required optional
                 (Runtime.wallet st)) = Types.Fulfilled response ->
          exists st',
            AzguardClient.connect dappMetadata required optional st
            = (st', Js.Normal tt)
            /\ Runtime.session st' = Some response
            /\ Runtime.view_of st' = Runtime.view_with response
            /\ Runtime.trace st'
               = Runtime.trace st
                   ++ [Runtime.Requested
                         (Runtime.ReqConnect dappMetadata required optional);
                       Runtime.SessionAssigned (Some response);
                       Runtime.StorageSet
                         (AzguardClient.storage_key (Runtime.scope st))
                         (Types.id response)]
                   ++ Handlers.dispatch_effects Runtime.OnConnected
                        Runtime.NoPayload (Runtime.view_with response)
                        (Runtime.onConnected st)
            /\ Runtime.env st'
               = Handlers.after_handlers (Runtime.onConnected st) tt
                   (Runtime.view_with response)
                   {| Runtime.localStorage :=
                        <[AzguardClient.storage_key (Runtime.scope st)
                          := Types.id response]>
                          (Runtime.localStorage (Runtime.env st));
                      Runtime.user := Runtime.user (Runtime.env st) |}).
Proof.
  intros W U st dappMetadata required optional. split; [|split].
  - apply connect_not_installed.
  - intros ch reason Hrpc Hresp. eexists.
    rewrite (connect_run st _ _ _ ch Hrpc). cbn zeta. rewrite Hresp.
    split; [reflexivity|]. destruct st; repeat split.
  - intros ch response Hrpc Hresp. eexists.
    rewrite (connect_run st _ _ _ ch Hrpc). cbn zeta. rewrite Hresp.
    rewrite connect_resume_run. split; [reflexivity|].
    destruct st; cbn. repeat split. now rewrite <- app_assoc.
Qed.

Lemma connect_outcomes_witness :
  exists st',
    AzguardClient.connect {| Types.name := "dapp" |} [Demo.grant] None
      (Lifecycle.client Demo.ready_1)
    = (st', Js.Normal tt)
    /\ Runtime.session st' = Some Demo.session1
    /\ Runtime.localStorage (Runtime.env st') !! "azguard:session:default"
       = Some "session-1".
Proof.
  destruct (proj2 (proj2 (connect_outcomes nat (list bool)
                            (Lifecycle.client Demo.ready_1)
                            {| Types.name := "dapp" |} [Demo.grant] None))
              Demo.channel Demo.session1 eq_refl eq_refl)
    as (st' & Hrun & Hsession & _ & _ & Henv).
  exists st'. split; [exact Hrun|]. split; [exact Hsession|].
  rewrite Henv. reflexivity.
Defined.

Section InitFacts.
Import Js Types Runtime Handlers AzguardClient Observations.
Context {W U : Type}.
Implicit Types (st : State W U).
Local Arguments dispatch : simpl never.
Local Arguments storage_key : simpl never.

Lemma init_fresh packageVersion azguard st :
  falsy (localStorage (env st) !! storage_key (scope st)) = true ->
  init packageVersion (Some azguard) st
  = (set_session None
       (set_trace (trace (subscribed packageVersion azguard st)
                     ++ [SessionAssigned None])
          (set_rpc (Some (createClient azguard))
             (subscribed packageVersion azguard st))),
     Normal tt).
Proof.
  intros Hfalsy. unfold subscribed, init, init_detected, init_finish, bind,
    gets, localStorage_getItem, assign_session, modify, log, ret.
  destruct st; cbn in *.
  destruct (Version.isCompatible packageVersion (version azguard)); cbn;
    (match goal with |- context [?m !! ?k] => destruct (m !! k) as [sid|] end;
     cbn in *; [rewrite Hfalsy|]; cbn; rewrite ?app_nil_r; reflexivity).
Qed.

Lemma init_stored packageVersion azguard st sid :
  localStorage (env st) !! storage_key (scope st) = Some sid ->
  sid <> "" ->
  init packageVersion (Some azguard) st
  = let st1 :=
      set_wallet
        (fst (request_get_session (createClient azguard) sid (wallet st)))
        (set_trace (trace (subscribed packageVersion azguard st)
                      ++ [Requested (ReqGetSession sid)])
           (subscribed packageVersion azguard st)) in
    match snd (request_get_session (createClient azguard) sid (wallet st)) with
    | Fulfilled r =>
        (set_session r
           (set_trace (trace st1 ++ [SessionAssigned r])
              (set_rpc (Some (createClient azguard)) st1)),
         Normal tt)
    | RejectedWith reason => (st1, Throw (Rejected reason))
    end.
Proof.
  intros Hsid Hne. apply String.eqb_neq in Hne.
  unfold subscribed, init, init_detected, init_finish, bind,
    gets, localStorage_getItem, assign_session, modify, log, ret, request.
  destruct st; cbn in *.
  destruct (Version.isCompatible packageVersion (version azguard)); cbn;
    rewrite Hsid; cbn; rewrite Hne; cbn;
    (match goal with |- context [request_get_session ?c ?i ?w] =>
       destruct (request_get_session c i w) as [w' [r|reason]] end;
     cbn; rewrite ?app_nil_r; reflexivity).
Qed.

End InitFacts.

(** X2.  [#init] with the wallet found.  (1) With no identifier stored
    under the scope's key, or the empty string stored, it issues no request
    and leaves a client that is bound to the channel and holds no session.
    (2) With an identifier stored it issues exactly one [get_session]
    request, for that identifier.  When the wallet answers, the client is
    bound to the channel and holds what the wallet returned: a session, or
    none when the identifier no longer resolves, in which case nothing is
    thrown.  When the wallet rejects, [#init] throws the rejection and the
    channel stays unbound.  In no case does [#init] write to the
    environment. *)
Theorem init_restores_stored_session :
  forall (W U : Type) (packageVersion : string)
         (azguard : Types.AzguardObject W) (st : Runtime.State W U),
    (Js.falsy (Runtime.localStorage (Runtime.env st)
                 !! AzguardClient.storage_key (Runtime.scope st)) = true ->
     exists st',
       AzguardClient.init packageVersion (Some azguard) st = (st', Js.Normal tt)
       /\ Runtime.rpc st' = Some (Types.createClient azguard)
       /\ Runtime.session st' = None
       /\ Runtime.listening st' = true
       /\ Observations.requests_of (Runtime.trace st')
          = Observations.requests_of (Runtime.trace st)
       /\ Runtime.env st' = Runtime.env st
       /\ Runtime.wallet st' = Runtime.wallet st)
    /\ (forall sid,
          Runtime.localStorage (Runtime.env st)
            !! AzguardClient.storage_key (Runtime.scope st) = Some sid ->
          sid <> "" ->
          Observations.requests_of
            (Runtime.trace
               (fst (AzguardClient.init packageVersion (Some azguard) st)))
          = Observations.requests_of (Runtime.trace st)
              ++ [Runtime.ReqGetSession sid]
          /\ Runtime.env (fst (AzguardClient.init packageVersion (Some azguard) st))
             = Runtime.env st
          /\ Runtime.listening
               (fst (AzguardClient.init packageVersion (Some azguard) st)) = true
          /\ (forall restored,
                snd (Types.request_get_session (Types.createClient azguard) sid
                       (Runtime.wallet st)) = Types.Fulfilled restored ->
                snd (AzguardClient.init packageVersion (Some azguard) st)
                  = Js.Normal tt
                /\ Runtime.rpc
                     (fst (AzguardClient.init packageVersion (Some azguard) st))
                   = Some (Types.createClient azguard)
                /\ Runtime.session
                     (fst (AzguardClient.init packageVersion (Some azguard) st))
                   = restored)
          /\ (forall reason,
                snd (Types.request_get_session (Types.createClient azguard) sid
                       (Runtime.wallet st)) = Types.RejectedWith reason ->
                snd (AzguardClient.init packageVersion (Some azguard) st)
                  = Js.Throw (Js.Rejected reason)
                /\ Runtime.rpc
                     (fst (AzguardClient.init packageVersion (Some azguard) st))
                   = Runtime.rpc st
                /\ Runtime.session
                     (fst (AzguardClient.init packageVersion (Some azguard) st))
                   = Runtime.session st)).
Proof.
  intros W U packageVersion azguard st. split.
  - intros Hfalsy. eexists. split; [now apply init_fresh|].
    destruct st; cbn. repeat split.
    rewrite !requests_of_app. cbn.
    destruct (Version.isCompatible packageVersion (Types.version azguard));
      cbn; now rewrite ?app_nil_r.
  - intros sid Hsid Hne. rewrite (init_stored _ _ _ sid Hsid Hne). cbn zeta.
    destruct (snd (Types.request_get_session (Types.createClient azguard) sid
                     (Runtime.wallet st))) as [r|reason];
      (split; [|split; [|split; [|split]]]);
      try (intros ? [= <-]); try discriminate;
      destruct st; cbn; repeat split;
      rewrite ?requests_of_app; cbn; rewrite ?requests_of_app;
      destruct (Version.isCompatible packageVersion (Types.version azguard));
      cbn; rewrite ?app_nil_r; reflexivity.
Qed.

(** A stored identifier that the wallet no longer knows: the client comes
    up bound to the channel and disconnected. *)
Lemma init_restores_stored_session_witness :
  snd (AzguardClient.init "1.2.0" (Some Demo.azguard)
         (AzguardClient.constructor "default" Demo.page_with_stale_session 0))
    = Js.Normal tt
  /\ Runtime.connected
       (fst (AzguardClient.init "1.2.0" (Some Demo.azguard)
               (AzguardClient.constructor "default"
                  Demo.page_with_stale_session 0))) = false.
Proof.
  destruct (proj2 (init_restores_stored_session nat (list bool) "1.2.0"
                     Demo.azguard
                     (AzguardClient.constructor "default"
                        Demo.page_with_stale_session 0))
              "session-0" eq_refl ltac:(discriminate))
    as (_ & _ & _ & Hok & _).
  destruct (Hok None eq_refl) as (Hsnd & _ & Hsession).
  split; [exact Hsnd|]. unfold Runtime.connected. now rewrite Hsession.
Defined.

(** X3.  The version of the wallet does not steer [#init]: for two wallet
    objects with the same channel, [#init] completes alike and leaves the
    same session, channel, environment, wallet state and requests; what
    differs is the warning, written once exactly when [isCompatible]
    fails. *)
Theorem init_version_only_warns :
  forall (W U : Type) (packageVersion : string)
         (azguard : Types.AzguardObject W) (st : Runtime.State W U),
    Observations.warnings_of
      (Runtime.trace (fst (AzguardClient.init packageVersion (Some azguard) st)))
    = Observations.warnings_of (Runtime.trace st)
        ++ (if Version.isCompatible packageVersion (Types.version azguard)
            then []
            else ["Client version is not compatible with the wallet version"])
    /\ (forall other : Types.AzguardObject W,
          Types.createClient other = Types.createClient azguard ->
          let a := AzguardClient.init packageVersion (Some azguard) st in
          let b := AzguardClient.init packageVersion (Some other) st in
          snd a = snd b
          /\ Runtime.session (fst a) = Runtime.session (fst b)
          /\ Runtime.rpc (fst a) = Runtime.rpc (fst b)
          /\ Runtime.env (fst a) = Runtime.env (fst b)
          /\ Runtime.wallet (fst a) = Runtime.wallet (fst b)
          /\ Observations.requests_of (Runtime.trace (fst a))
             = Observations.requests_of (Runtime.trace (fst b))).
Proof.
  intros W U packageVersion azguard st.
  destruct (Js.falsy (Runtime.localStorage (Runtime.env st)
                        !! AzguardClient.storage_key (Runtime.scope st)))
    eqn:Hfalsy.
  - split.
    + rewrite init_fresh by exact Hfalsy. destruct st; cbn.
      rewrite !warnings_of_app.
      destruct (Version.isCompatible packageVersion (Types.version azguard));
        cbn; now rewrite ?app_nil_r.
    + intros other Hsame. cbn zeta. rewrite !init_fresh by exact Hfalsy.
      rewrite Hsame. destruct st; cbn. repeat split.
      rewrite !requests_of_app.
      destruct (Version.isCompatible packageVersion (Types.version azguard)),
        (Version.isCompatible packageVersion (Types.version other)); reflexivity.
  - destruct (Runtime.localStorage (Runtime.env st)
                !! AzguardClient.storage_key (Runtime.scope st)) as [sid|] eqn:Hsid;
      [|discriminate].
    assert (Hne : sid <> "") by (cbn in Hfalsy; now apply String.eqb_neq).
    split.
    + rewrite (init_stored _ _ _ sid Hsid Hne). cbn zeta.
      destruct (snd (Types.request_get_session _ _ _)); destruct st; cbn;
        rewrite !warnings_of_app; cbn; rewrite ?warnings_of_app;
        destruct (Version.isCompatible packageVersion (Types.version azguard));
        cbn; now rewrite ?app_nil_r.
    + intros other Hsame. cbn zeta.
      rewrite !(init_stored _ _ _ sid Hsid Hne). cbn zeta. rewrite Hsame.
      destruct (snd (Types.request_get_session _ _ _)); destruct st; cbn;
        repeat split; rewrite !requests_of_app; cbn; rewrite ?requests_of_app;
        destruct (Version.isCompatible packageVersion (Types.version azguard)),
          (Version.isCompatible packageVersion (Types.version other));
        reflexivity.
Qed.

(** *** What a call or a push leaves alone *)

Section FrameFacts.
Import Js Types Runtime Handlers AzguardClient Observations.
Context {W U : Type}.
Implicit Types (st : State W U).
Local Arguments dispatch : simpl never.
Local Arguments storage_key : simpl never.

(** A dispatch reaches the subscribers and nothing else: no request is
    issued, and the storage is as the subscribers leave it. *)
Lemma dispatch_frame {T} ev (inj : T -> Payload) (handlers : EventHandlers U T)
    payload st :
  let st' := fst (dispatch ev inj handlers payload st) in
  session st' = session st /\ rpc st' = rpc st /\ wallet st' = wallet st
  /\ scope st' = scope st
  /\ requests_of (trace st') = requests_of (trace st)
  /\ (keep_storage handlers ->
      localStorage (env st') = localStorage (env st)).
Proof.
  cbn zeta. rewrite dispatch_run. destruct st; cbn. repeat split.
  - now rewrite requests_of_app, requests_of_dispatch_effects, app_nil_r.
  - apply after_handlers_keep_storage.
Qed.

Lemma onSessionUpdated_frame new st :
  let st' := fst (onSessionUpdated new st) in
  session st' = Some new /\ rpc st' = rpc st /\ wallet st' = wallet st
  /\ scope st' = scope st
  /\ requests_of (trace st') = requests_of (trace st)
  /\ (keep_storage (onPermissionsChanged st) ->
      keep_storage (onAccountsChanged st) ->
      localStorage (env st') = localStorage (env st)).
Proof.
  cbn zeta. rewrite onSessionUpdated_run. cbn zeta.
  set (kept := keep_storage (onPermissionsChanged st)
               /\ keep_storage (onAccountsChanged st)).
  set (P := fun s : State W U =>
              session s = Some new /\ rpc s = rpc st /\ wallet s = wallet st
              /\ scope s = scope st
              /\ requests_of (trace s) = requests_of (trace st)
              /\ (kept -> localStorage (env s) = localStorage (env st))).
  assert (Hstep : forall T ev (inj : T -> Payload) (h : EventHandlers U T) p s,
             (kept -> keep_storage h) -> P s ->
             P (fst (dispatch ev inj h p s))).
  { intros T ev inj h p s Hh (Hs & Hr & Hw & Hsc & Hq & He).
    destruct (dispatch_frame ev inj h p s) as (Hs' & Hr' & Hw' & Hsc' & Hq' & He').
    cbn zeta in *. unfold P. repeat split; try congruence.
    intros Hkept. rewrite He' by auto. auto. }
  assert (H1 : P (set_session (Some new)
                    (set_trace (trace st ++ [SessionAssigned (Some new)]) st))).
  { unfold P. destruct st; cbn. repeat split.
    now rewrite requests_of_app, app_nil_r. }
  assert (H3 : P (fst (onSessionUpdated new st))).
  { rewrite onSessionUpdated_run. cbn zeta.
    destruct (Spec.permissions_differb _ _), (negb _); cbn [fst];
      repeat (apply Hstep; [unfold kept; tauto|]); exact H1. }
  rewrite onSessionUpdated_run in H3. cbn zeta in H3.
  destruct H3 as (Hs & Hr & Hw & Hsc & Hq & He).
  repeat split; try assumption. intros Hp Ha. apply He. now split.
Qed.

Lemma onSessionClosed_frame st :
  let st' := fst (onSessionClosed st) in
  session st' = None /\ rpc st' = rpc st /\ wallet st' = wallet st
  /\ scope st' = scope st
  /\ requests_of (trace st') = requests_of (trace st)
  /\ localStorage (env st') !! storage_key (scope st) = None
  /\ (keep_storage (onDisconnected st) ->
      localStorage (env st')
      = delete (storage_key (scope st)) (localStorage (env st))).
Proof.
  cbn zeta. rewrite onSessionClosed_run. cbn [fst].
  split; [destruct st; reflexivity|]. split; [destruct st; reflexivity|].
  split; [destruct st; reflexivity|]. split; [destruct st; reflexivity|].
  split; [|split].
  - replace (trace (set_env _ _))
      with (trace st
              ++ dispatch_effects OnDisconnected NoPayload (view_of st)
                   (onDisconnected st)
              ++ [SessionAssigned None; StorageRemoved (storage_key (scope st))])
      by (destruct st; reflexivity).
    rewrite !requests_of_app, requests_of_dispatch_effects. cbn.
    now rewrite app_nil_r.
  - destruct st; cbn. apply lookup_delete_eq.
  - intros Hkeep. destruct st; cbn in *.
    now rewrite after_handlers_keep_storage.
Qed.

(** [`azguard:session:${scope}`] tells the scopes apart. *)
Lemma storage_key_inj a b : storage_key a = storage_key b -> a = b.
Proof.
  unfold storage_key.
  change ("azguard:session:" +:+ a) with
    (String "a" (String "z" (String "g" (String "u" (String "a" (String "r"
    (String "d" (String ":" (String "s" (String "e" (String "s" (String "s"
    (String "i" (String "o" (String "n" (String ":" a)))))))))))))))).
  change ("azguard:session:" +:+ b) with
    (String "a" (String "z" (String "g" (String "u" (String "a" (String "r"
    (String "d" (String ":" (String "s" (String "e" (String "s" (String "s"
    (String "i" (String "o" (String "n" (String ":" b)))))))))))))))).
  congruence.
Qed.

Lemma execute_run st ch s operations :
  rpc st = Some ch -> session st = Some s ->
  execute operations st
  = (set_wallet (fst (request_execute ch (id s) operations (wallet st)))
       (set_trace (trace st ++ [Requested (ReqExecute (id s) operations)]) st),
     settle (snd (request_execute ch (id s) operations (wallet st)))).
Proof.
  intros Hrpc Hs. unfold execute, bind, gets. rewrite Hrpc, Hs.
  apply request_run.
Qed.

Lemma getWalletInfo_run st ch :
  rpc st = Some ch ->
  getWalletInfo st
  = (set_wallet (fst (request_get_wallet_info ch (wallet st)))
       (set_trace (trace st ++ [Requested ReqGetWalletInfo]) st),
     settle (snd (request_get_wallet_info ch (wallet st)))).
Proof.
  intros Hrpc. unfold getWalletInfo, bind, gets. rewrite Hrpc.
  apply request_run.
Qed.

Lemma connect_requests st dappMetadata required optional ch :
  rpc st = Some ch ->
  requests_of (trace (fst (connect dappMetadata required optional st)))
  = requests_of (trace st) ++ [ReqConnect dappMetadata required optional].
Proof.
  intros Hrpc. rewrite (connect_run st _ _ _ ch Hrpc). cbn zeta.
  destruct (snd (request_connect _ _ _ _ _)) as [response|reason].
  - rewrite connect_resume_run.
    cbn [fst trace set_env set_session set_trace set_wallet].
    rewrite !requests_of_app, requests_of_dispatch_effects. cbn.
    now rewrite app_nil_r.
  - cbn [fst trace set_env set_session set_trace set_wallet].
    now rewrite requests_of_app.
Qed.

End FrameFacts.

(** X4.  A client that [#init] leaves with the wallet found and no usable
    identifier in the storage is bound and disconnected, and the four
    public calls behave accordingly: [getWalletInfo] needs no session and
    reaches the wallet, completing with the channel's response;
    [execute] is refused with "not connected" before any request;
    [disconnect] returns at once without a request; [connect] reaches the
    wallet. *)
Theorem fresh_client_is_bound_and_disconnected :
  forall (W U : Type) (packageVersion : string)
         (azguard : Types.AzguardObject W) (start : Runtime.State W U),
    Js.falsy (Runtime.localStorage (Runtime.env start)
                !! AzguardClient.storage_key (Runtime.scope start)) = true ->
    let st := fst (AzguardClient.init packageVersion (Some azguard) start) in
    Runtime.connected st = false
    /\ Runtime.accounts st = []
    /\ (snd (AzguardClient.getWalletInfo st)
        = Types.settle
            (snd (Types.request_get_wallet_info (Types.createClient azguard)
                    (Runtime.wallet start)))
        /\ Observations.requests_of
             (Runtime.trace (fst (AzguardClient.getWalletInfo st)))
           = Observations.requests_of (Runtime.trace start)
               ++ [Runtime.ReqGetWalletInfo]
        /\ Runtime.session (fst (AzguardClient.getWalletInfo st)) = None)
    /\ (forall operations,
          AzguardClient.execute operations st
          = (st, Js.Throw (Js.Error "Azguard Wallet is not connected")))
    /\ AzguardClient.disconnect st = (st, Js.Normal tt)
    /\ (forall dappMetadata required optional,
          Observations.requests_of
            (Runtime.trace
               (fst (AzguardClient.connect dappMetadata required optional st)))
          = Observations.requests_of (Runtime.trace start)
              ++ [Runtime.ReqConnect dappMetadata required optional]).
Proof.
  intros W U packageVersion azguard start Hfalsy st.
  assert (Hst : exists t,
             st = Runtime.set_session None
                    (Runtime.set_trace t
                       (Runtime.set_rpc (Some (Types.createClient azguard))
                          (Observations.subscribed packageVersion azguard start)))
             /\ Observations.requests_of t
                = Observations.requests_of (Runtime.trace start)).
  { eexists. subst st. rewrite init_fresh by exact Hfalsy. split; [reflexivity|].
    destruct start; cbn. rewrite !requests_of_app. cbn.
    destruct (Version.isCompatible packageVersion (Types.version azguard));
      cbn; now rewrite ?app_nil_r. }
  destruct Hst as (t & Hst & Ht). clearbody st. subst st.
  split; [reflexivity|]. split; [reflexivity|].
  split; [|split; [|split]].
  - rewrite (getWalletInfo_run _ (Types.createClient azguard)) by reflexivity.
    destruct start; cbn. repeat split.
    rewrite requests_of_app. cbn in *. now rewrite Ht.
  - intros operations. reflexivity.
  - reflexivity.
  - intros dappMetadata required optional.
    rewrite (connect_requests _ _ _ _ (Types.createClient azguard))
      by reflexivity.
    cbn. now rewrite Ht.
Qed.

Lemma fresh_client_is_bound_and_disconnected_witness :
  AzguardClient.disconnect
    (fst (AzguardClient.init "1.2.0" (Some Demo.azguard)
            (AzguardClient.constructor "default" Demo.page 0)))
  = (fst (AzguardClient.init "1.2.0" (Some Demo.azguard)
            (AzguardClient.constructor "default" Demo.page 0)),
     Js.Normal tt)
  /\ snd (AzguardClient.getWalletInfo
            (fst (AzguardClient.init "1.2.0" (Some Demo.azguard)
                    (AzguardClient.constructor "default" Demo.page 0))))
     = Js.Normal {| Types.info := "azguard" |}.
Proof.
  destruct (fresh_client_is_bound_and_disconnected nat (list bool) "1.2.0"
              Demo.azguard (AzguardClient.constructor "default" Demo.page 0)
              eq_refl)
    as (_ & _ & (Hinfo & _) & _ & Hdisconnect & _).
  split; [exact Hdisconnect|exact Hinfo].
Defined.

(** X5.  What [connect] writes is what the next page load reads.  After a
    [connect] that the wallet answered with a session, the storage holds
    the session's identifier under the scope's key (the subscribers of the
    connected event leaving the storage alone).  A client then created for
    the same scope over that storage asks the wallet for exactly that
    session and holds what the wallet returns.  The edge: a session whose
    identifier is the empty string is written all the same, and is not
    asked for on the next load, which starts disconnected. *)
Theorem connect_then_reload_restores :
  forall (W U : Type) (st : Runtime.State W U)
         (dappMetadata : Types.DappMetadata)
         (required : list Types.DappPermissions)
         (optional : option (list Types.DappPermissions))
         (ch : Types.AzguardRpcClient W) (response : Types.DappSession),
    Runtime.rpc st = Some ch ->
    snd (Types.request_connect ch dappMetadata required optional
           (Runtime.wallet st)) = Types.Fulfilled response ->
    Observations.keep_storage (Runtime.onConnected st) ->
    forall (packageVersion : string) (azguard : Types.AzguardObject W)
           (u : U) (w : W),
      let stored :=
        Runtime.localStorage
          (Runtime.env
             (fst (AzguardClient.connect dappMetadata required optional st))) in
      let reloaded :=
        Observations.reload packageVersion azguard (Runtime.scope st) stored u w in
      stored !! AzguardClient.storage_key (Runtime.scope st)
        = Some (Types.id response)
      /\ (Types.id response <> "" ->
          Observations.requests_of (Runtime.trace (fst reloaded))
            = [Runtime.ReqGetSession (Types.id response)]
          /\ forall restored,
               snd (Types.request_get_session (Types.createClient azguard)
                      (Types.id response) w) = Types.Fulfilled restored ->
               snd reloaded = Js.Normal tt
               /\ Runtime.session (fst reloaded) = restored)
      /\ (Types.id response = "" ->
          reloaded
          = (fst reloaded, Js.Normal tt)
          /\ Observations.requests_of (Runtime.trace (fst reloaded)) = []
          /\ Runtime.session (fst reloaded) = None).
Proof.
  intros W U st dappMetadata required optional ch response Hrpc Hresp Hkeep
    packageVersion azguard u w stored reloaded.
  assert (Hstored : stored !! AzguardClient.storage_key (Runtime.scope st)
                    = Some (Types.id response)).
  { subst stored. rewrite (connect_run st _ _ _ ch Hrpc). cbn zeta.
    rewrite Hresp, connect_resume_run. cbn.
    rewrite after_handlers_keep_storage by (destruct st; exact Hkeep).
    destruct st; cbn. apply lookup_insert_eq. }
  clearbody stored. subst reloaded. unfold Observations.reload.
  split; [exact Hstored|]. split.
  - intros Hne.
    rewrite (init_stored _ _ _ (Types.id response)) by (cbn; assumption).
    cbn zeta. cbn [Runtime.wallet AzguardClient.constructor].
    destruct (snd (Types.request_get_session _ _ _)) as [r|reason].
    + cbn. destruct (Version.isCompatible _ _); cbn;
        (split; [reflexivity|]); intros restored [= <-]; now split.
    + cbn. destruct (Version.isCompatible _ _); cbn;
        (split; [reflexivity|]); intros restored [=].
  - intros Hempty.
    rewrite init_fresh by (cbn; rewrite Hstored, Hempty; reflexivity).
    cbn. destruct (Version.isCompatible _ _); cbn; repeat split.
Qed.

Lemma connect_then_reload_restores_witness :
  Observations.requests_of
    (Runtime.trace
       (fst (Observations.reload "1.2.0" Demo.azguard "default"
               (Runtime.localStorage
                  (Runtime.env
                     (fst (AzguardClient.connect {| Types.name := "dapp" |}
                             [Demo.grant] None (Lifecycle.client Demo.ready_1)))))
               (@nil bool) 7)))
  = [Runtime.ReqGetSession "session-1"]
  /\ Runtime.session
       (fst (Observations.reload "1.2.0" Demo.azguard "default"
               (Runtime.localStorage
                  (Runtime.env
                     (fst (AzguardClient.connect {| Types.name := "dapp" |}
                             [Demo.grant] None (Lifecycle.client Demo.ready_1)))))
               (@nil bool) 7))
     = Some Demo.session1.
Proof.
  destruct (connect_then_reload_restores nat (list bool)
              (Lifecycle.client Demo.ready_1) {| Types.name := "dapp" |}
              [Demo.grant] None Demo.channel Demo.session1 eq_refl eq_refl
              (Forall_nil_2 _) "1.2.0" Demo.azguard [] 7)
    as (_ & Hrestore & _).
  destruct (Hrestore ltac:(discriminate)) as (Hrequests & Hsession).
  split; [exact Hrequests|]. exact (proj2 (Hsession (Some Demo.session1) eq_refl)).
Defined.

(** X6.  What a [session_closed] push removes is not read back.  Whatever
    the subscribers of the disconnected event did, a client created
    afterwards for the same scope over the storage the push left finds no
    identifier: it issues no request, completes, is bound to the channel
    and holds no session. *)
Theorem closed_then_reload_starts_disconnected :
  forall (W U : Type) (st : Runtime.State W U) (packageVersion : string)
         (azguard : Types.AzguardObject W) (u : U) (w : W),
    let reloaded :=
      Observations.reload packageVersion azguard (Runtime.scope st)
        (Runtime.localStorage
           (Runtime.env (fst (AzguardClient.onSessionClosed st)))) u w in
    snd reloaded = Js.Normal tt
    /\ Observations.requests_of (Runtime.trace (fst reloaded)) = []
    /\ Runtime.session (fst reloaded) = None
    /\ Runtime.rpc (fst reloaded) = Some (Types.createClient azguard)
    /\ Runtime.wallet (fst reloaded) = w.
Proof.
  intros W U st packageVersion azguard u w reloaded. subst reloaded.
  unfold Observations.reload.
  destruct (onSessionClosed_frame st) as (_ & _ & _ & _ & _ & Hgone & _).
  cbn zeta in Hgone.
  generalize dependent
    (Runtime.localStorage (Runtime.env (fst (AzguardClient.onSessionClosed st)))).
  intros stored Hgone.
  rewrite init_fresh by (cbn; rewrite Hgone; reflexivity).
  cbn. destruct (Version.isCompatible _ _); cbn; repeat split.
Qed.

(** X7.  Clients of different scopes keep their identifiers apart: the
    storage keys of two scopes differ, and neither a [connect] (whether it
    is refused, rejected or answered) nor a [session_closed] push of a
    client touches the entry of another scope, the subscribers leaving the
    storage alone. *)
Theorem scopes_do_not_interfere :
  forall (W U : Type) (st : Runtime.State W U) (other : string),
    other <> Runtime.scope st ->
    Observations.keep_storage (Runtime.onConnected st) ->
    Observations.keep_storage (Runtime.onDisconnected st) ->
    AzguardClient.storage_key other
      <> AzguardClient.storage_key (Runtime.scope st)
    /\ (forall dappMetadata required optional,
          Runtime.localStorage
            (Runtime.env
               (fst (AzguardClient.connect dappMetadata required optional st)))
            !! AzguardClient.storage_key other
          = Runtime.localStorage (Runtime.env st)
              !! AzguardClient.storage_key other)
    /\ Runtime.localStorage
         (Runtime.env (fst (AzguardClient.onSessionClosed st)))
         !! AzguardClient.storage_key other
       = Runtime.localStorage (Runtime.env st)
           !! AzguardClient.storage_key other.
Proof.
  intros W U st other Hother Hconnected Hdisconnected.
  assert (Hkey : AzguardClient.storage_key other
                 <> AzguardClient.storage_key (Runtime.scope st)).
  { intros Heq. now apply storage_key_inj in Heq. }
  split; [exact Hkey|]. split.
  - intros dappMetadata required optional.
    destruct (Runtime.rpc st) as [ch|] eqn:Hrpc.
    + rewrite (connect_run st _ _ _ ch Hrpc). cbn zeta.
      destruct (snd (Types.request_connect _ _ _ _ _)) as [response|reason].
      * rewrite connect_resume_run.
        cbn [fst Runtime.env Runtime.set_env].
        rewrite after_handlers_keep_storage by (destruct st; exact Hconnected).
        destruct st; cbn in *. now apply lookup_insert_ne.
      * destruct st; reflexivity.
    + now rewrite connect_not_installed.
  - destruct (onSessionClosed_frame st) as (_ & _ & _ & _ & _ & _ & Hdel).
    cbn zeta in Hdel. rewrite (Hdel Hdisconnected).
    now apply lookup_delete_ne.
Qed.

Lemma scopes_do_not_interfere_witness :
  Runtime.localStorage
    (Runtime.env
       (fst (AzguardClient.connect {| Types.name := "dapp" |} [Demo.grant] None
               (Lifecycle.client Demo.ready_1))))
    !! AzguardClient.storage_key "second"
  = None.
Proof.
  exact (proj1 (proj2 (scopes_do_not_interfere nat (list bool)
                         (Lifecycle.client Demo.ready_1) "second"
                         ltac:(discriminate) (Forall_nil_2 _) (Forall_nil_2 _)))
           {| Types.name := "dapp" |} [Demo.grant] None).
Defined.

(** X8.  A [session_updated] push tells the wallet nothing and redirects
    the calls that follow: it issues no request and leaves the wallet's
    state alone; the identifier in the storage is not rewritten (the
    subscribers leaving the storage alone), also when the pushed session
    carries another identifier; and the next [execute] and the next
    [disconnect] name the pushed session's identifier. *)
Theorem session_updated_redirects_calls :
  forall (W U : Type) (st : Runtime.State W U) (new : Types.DappSession)
         (ch : Types.AzguardRpcClient W),
    Runtime.rpc st = Some ch ->
    let st' := fst (AzguardClient.onSessionUpdated new st) in
    Observations.requests_of (Runtime.trace st')
      = Observations.requests_of (Runtime.trace st)
    /\ Runtime.wallet st' = Runtime.wallet st
    /\ (Observations.keep_storage (Runtime.onPermissionsChanged st) ->
        Observations.keep_storage (Runtime.onAccountsChanged st) ->
        Runtime.localStorage (Runtime.env st')
        = Runtime.localStorage (Runtime.env st))
    /\ (forall operations,
          Observations.requests_of
            (Runtime.trace (fst (AzguardClient.execute operations st')))
          = Observations.requests_of (Runtime.trace st)
              ++ [Runtime.ReqExecute (Types.id new) operations]
          /\ snd (AzguardClient.execute operations st')
             = Types.settle
                 (snd (Types.request_execute ch (Types.id new) operations
                         (Runtime.wallet st))))
    /\ Observations.requests_of
         (Runtime.trace (fst (AzguardClient.disconnect st')))
       = Observations.requests_of (Runtime.trace st)
           ++ [Runtime.ReqCloseSession (Types.id new)].
Proof.
  intros W U st new ch Hrpc st'.
  destruct (onSessionUpdated_frame new st) as (Hs & Hr & Hw & _ & Hq & He).
  fold st' in Hs, Hr, Hw, Hq, He. clearbody st'. rewrite Hrpc in Hr.
  split; [exact Hq|]. split; [exact Hw|]. split; [exact He|]. split.
  - intros operations. rewrite (execute_run st' ch new operations Hr Hs).
    cbn [fst snd]. rewrite Hw. split; [|reflexivity].
    destruct st'; cbn in *. now rewrite requests_of_app, Hq.
  - rewrite (disconnect_run st' new ch Hs Hr).
    destruct st'; cbn in *. now rewrite requests_of_app, Hq.
Qed.

Lemma session_updated_redirects_calls_witness :
  Observations.requests_of
    (Runtime.trace
       (fst (AzguardClient.disconnect
               (fst (AzguardClient.onSessionUpdated
                       {| Types.id := "session-2"; Types.accounts := [Demo.alice];
                          Types.permissions := [] |}
                       Demo.connected_client)))))
  = Observations.requests_of (Runtime.trace Demo.connected_client)
      ++ [Runtime.ReqCloseSession "session-2"].
Proof.
  exact (proj2 (proj2 (proj2 (proj2
           (session_updated_redirects_calls nat (list bool)
              Demo.connected_client
              {| Types.id := "session-2"; Types.accounts := [Demo.alice];
                 Types.permissions := [] |}
              Demo.channel eq_refl))))).
Defined.

(** X9.  A [session_closed] push tells the wallet nothing and leaves a
    client that is still bound: it issues no request; afterwards [execute]
    is refused with "not connected" and [disconnect] returns at once, both
    without a request, while [getWalletInfo] and [connect] still reach the
    wallet through the same channel. *)
Theorem session_closed_disconnects_but_stays_bound :
  forall (W U : Type) (st : Runtime.State W U)
         (ch : Types.AzguardRpcClient W),
    Runtime.rpc st = Some ch ->
    let st' := fst (AzguardClient.onSessionClosed st) in
    Observations.requests_of (Runtime.trace st')
      = Observations.requests_of (Runtime.trace st)
    /\ Runtime.wallet st' = Runtime.wallet st
    /\ Runtime.rpc st' = Some ch
    /\ (forall operations,
          AzguardClient.execute operations st'
          = (st', Js.Throw (Js.Error "Azguard Wallet is not connected")))
    /\ AzguardClient.disconnect st' = (st', Js.Normal tt)
    /\ snd (AzguardClient.getWalletInfo st')
       = Types.settle (snd (Types.request_get_wallet_info ch (Runtime.wallet st)))
    /\ (forall dappMetadata required optional,
          Observations.requests_of
            (Runtime.trace
               (fst (AzguardClient.connect dappMetadata required optional st')))
          = Observations.requests_of (Runtime.trace st)
              ++ [Runtime.ReqConnect dappMetadata required optional]).
Proof.
  intros W U st ch Hrpc st'.
  destruct (onSessionClosed_frame st) as (Hs & Hr & Hw & _ & Hq & _).
  fold st' in Hs, Hr, Hw, Hq. clearbody st'. rewrite Hrpc in Hr.
  split; [exact Hq|]. split; [exact Hw|]. split; [exact Hr|].
  split; [|split; [|split]].
  - intros operations.
    unfold AzguardClient.execute, Runtime.bind, Runtime.gets.
    now rewrite Hr, Hs.
  - unfold AzguardClient.disconnect, Runtime.bind, Runtime.gets. now rewrite Hs.
  - rewrite (getWalletInfo_run st' ch Hr). cbn [snd]. now rewrite Hw.
  - intros dappMetadata required optional.
    rewrite (connect_requests st' _ _ _ ch Hr). now rewrite Hq.
Qed.

Lemma session_closed_disconnects_but_stays_bound_witness :
  snd (AzguardClient.execute [Types.OtherOperation "register_contract"]
         (fst (AzguardClient.onSessionClosed Demo.connected_client)))
  = Js.Throw (Js.Error "Azguard Wallet is not connected")
  /\ snd (AzguardClient.getWalletInfo
            (fst (AzguardClient.onSessionClosed Demo.connected_client)))
     = Js.Normal {| Types.info := "azguard" |}.
Proof.
  destruct (session_closed_disconnects_but_stays_bound nat (list bool)
              Demo.connected_client Demo.channel eq_refl)
    as (_ & _ & _ & Hexecute & _ & Hinfo & _).
  split; [now rewrite Hexecute|exact Hinfo].
Defined.

(** *** Runs of a client *)

Section RunFacts.
Import Js Types Runtime Handlers AzguardClient Lifecycle Observations.
Context {W U : Type}.
Implicit Types (st : State W U) (sys : System W U).
Local Arguments dispatch : simpl never.

Lemma connect_request_rpc dappMetadata required optional st :
  rpc (fst (connect_request dappMetadata required optional st)) = rpc st.
Proof.
  unfold connect_request, bind, gets, throw.
  destruct (rpc st) as [ch|] eqn:Hrpc; [|now rewrite ?Hrpc].
  rewrite request_run. destruct st; cbn in *. now rewrite Hrpc.
Qed.

Lemma connect_resume_rpc response st :
  rpc (fst (connect_resume response st)) = rpc st.
Proof. rewrite connect_resume_run. destruct st; reflexivity. Qed.

Lemma disconnect_rpc st : rpc (fst (disconnect st)) = rpc st.
Proof.
  unfold disconnect, bind, gets, throw, ret.
  destruct (session st) as [s|] eqn:Hs; [|reflexivity].
  destruct (rpc st) as [ch|] eqn:Hrpc; [|now rewrite ?Hrpc].
  rewrite request_run. destruct st; cbn in *. now rewrite Hrpc.
Qed.

Lemma execute_rpc operations st : rpc (fst (execute operations st)) = rpc st.
Proof.
  unfold execute, bind, gets, throw.
  destruct (rpc st) as [ch|] eqn:Hrpc; [|now rewrite ?Hrpc].
  destruct (session st) as [s|] eqn:Hs; [|now rewrite ?Hrpc].
  rewrite request_run. destruct st; cbn in *. now rewrite Hrpc.
Qed.

Lemma getWalletInfo_rpc st : rpc (fst (getWalletInfo st)) = rpc st.
Proof.
  unfold getWalletInfo, bind, gets, throw.
  destruct (rpc st) as [ch|] eqn:Hrpc; [|now rewrite ?Hrpc].
  rewrite request_run. destruct st; cbn in *. now rewrite Hrpc.
Qed.

(** A bound channel belongs to a client that [create] has finished with. *)
Lemma bound_after_create packageVersion sys :
  reachable packageVersion sys -> is_Some (rpc (client sys)) ->
  phase sys = Ready \/ phase sys = Failed.
Proof.
  intros Hreach Hbound. apply reachable_invariant in Hreach.
  unfold invariant, core, invariant_core in Hreach.
  rewrite (bool_decide_eq_true_2 _ Hbound) in Hreach.
  destruct Hreach as (_ & _ & _ & Hl & Hdetecting & Hrestoring).
  specialize (Hl eq_refl).
  destruct (phase sys) as [|c r| |]; [| |now left|now right].
  - specialize (Hdetecting eq_refl). congruence.
  - destruct (Hrestoring c r eq_refl). discriminate.
Qed.

Lemma step_keeps_channel packageVersion sys sys' ch :
  reachable packageVersion sys -> rpc (client sys) = Some ch ->
  step packageVersion sys sys' -> rpc (client sys') = Some ch.
Proof.
  intros Hreach Hrpc Hstep.
  destruct (bound_after_create packageVersion sys Hreach ltac:(eauto)) as [Hph|Hph];
    destruct Hstep; cbn [client]; try congruence;
    rewrite ?connect_resume_rpc, ?disconnect_rpc, ?execute_rpc,
      ?getWalletInfo_rpc;
    try exact Hrpc;
    try (match goal with
         | |- rpc (fst (onSessionUpdated ?n ?s)) = _ =>
             rewrite (proj1 (proj2 (onSessionUpdated_frame n s))); exact Hrpc
         | |- rpc (fst (onSessionClosed ?s)) = _ =>
             rewrite (proj1 (proj2 (onSessionClosed_frame s))); exact Hrpc
         | H : connect_request ?m ?r ?o _ = (?s', _) |- rpc ?s' = _ =>
             pose proof (connect_request_rpc m r o (client sys)) as Hc;
             rewrite H in Hc; cbn [fst] in Hc; congruence
         end);
    try (destruct (client sys); exact Hrpc).
Qed.

Lemma reachable_rtc packageVersion sys sys' :
  reachable packageVersion sys -> rtc (step packageVersion) sys sys' ->
  reachable packageVersion sys'.
Proof.
  intros Hreach Hrun. induction Hrun as [|sys mid sys' Hstep _ IH]; [exact Hreach|].
  apply IH. exact (reachable_step _ _ _ Hreach Hstep).
Qed.

Lemma idle_step packageVersion sys sys' :
  step packageVersion sys sys' ->
  phase sys = Ready -> connecting sys = [] -> idle (client sys) ->
  phase sys' = Ready /\ connecting sys' = [] /\ idle (client sys').
Proof.
  unfold idle. intros Hstep Hph Hconnecting (Hrpc & Hs & Hl & Ht).
  destruct Hstep; cbn [client phase connecting]; try congruence.
  - (* connect, up to its await *)
    match goal with H : connect_request _ _ _ _ = _ |- _ =>
      unfold connect_request, bind, gets, throw in H; rewrite Hrpc in H;
      injection H as <- <- end.
    repeat split; assumption.
  - (* connect, from the response on *)
    match goal with H : Permutation _ _ |- _ =>
      rewrite Hconnecting in H; now apply Permutation_nil_l in H end.
  - unfold disconnect, bind, gets, ret. rewrite Hs. repeat split; assumption.
  - unfold execute, bind, gets, throw. rewrite Hrpc. repeat split; assumption.
  - unfold getWalletInfo, bind, gets, throw. rewrite Hrpc.
    repeat split; assumption.
  - destruct (client sys); cbn in *; repeat split; assumption.
  - destruct (client sys); cbn in *; repeat split; assumption.
  - destruct (client sys); cbn in *; repeat split; assumption.
  - destruct (client sys); cbn in *; repeat split; assumption.
  - destruct (client sys); cbn in *; repeat split; assumption.
Qed.

End RunFacts.

(** X10.  The channel is bound once and for good: in a run of the client,
    from the moment a channel is bound on, every later system holds that
    same channel, whatever calls, responses and pushes follow; and a bound
    channel belongs to a client that [create] is done with. *)
Theorem channel_is_bound_for_good :
  forall (W U : Type) (packageVersion : string)
         (sys sys' : Lifecycle.System W U) (ch : Types.AzguardRpcClient W),
    Lifecycle.reachable packageVersion sys ->
    Runtime.rpc (Lifecycle.client sys) = Some ch ->
    rtc (Lifecycle.step packageVersion) sys sys' ->
    Runtime.rpc (Lifecycle.client sys') = Some ch
    /\ Runtime.listening (Lifecycle.client sys') = true
    /\ (Lifecycle.phase sys' = Lifecycle.Ready
        \/ Lifecycle.phase sys' = Lifecycle.Failed).
Proof.
  intros W U packageVersion sys sys' ch Hreach Hrpc Hrun.
  assert (H : Lifecycle.reachable packageVersion sys'
              /\ Runtime.rpc (Lifecycle.client sys') = Some ch).
  { induction Hrun as [|sys mid sys' Hstep _ IH]; [now split|].
    apply IH.
    - exact (Lifecycle.reachable_step _ _ _ Hreach Hstep).
    - exact (step_keeps_channel packageVersion sys mid ch Hreach Hrpc Hstep). }
  destruct H as [Hreach' Hrpc']. split; [exact Hrpc'|]. split.
  - pose proof (reachable_invariant _ _ Hreach') as Hinv.
    unfold Lifecycle.invariant, Lifecycle.core, Lifecycle.invariant_core in Hinv.
    rewrite Hrpc' in Hinv.
    rewrite (bool_decide_eq_true_2 _ (mk_is_Some _ _ eq_refl)) in Hinv.
    now apply Hinv.
  - apply (bound_after_create packageVersion); [exact Hreach'|eauto].
Qed.

Lemma channel_is_bound_for_good_witness :
  Runtime.rpc (Lifecycle.client Demo.closed_system) = Some Demo.channel
  /\ Runtime.listening (Lifecycle.client Demo.closed_system) = true
  /\ (Lifecycle.phase Demo.closed_system = Lifecycle.Ready
      \/ Lifecycle.phase Demo.closed_system = Lifecycle.Failed).
Proof.
  apply (channel_is_bound_for_good nat (list bool) "1.2.0" Demo.ready_system
           Demo.closed_system Demo.channel demo_ready_reachable eq_refl).
  apply rtc_once.
  exact (Lifecycle.step_session_closed "1.2.0" Demo.ready_system eq_refl).
Defined.

(** X11.  A client created where no wallet was found never gets in touch
    with one.  The poll resolving with [undefined] takes a fresh client to
    a system from which every run (calls of the four public methods,
    subscribers coming and going, the page and the world moving on) leaves
    it idle: no channel, no session, nothing requested or dispatched.
    There [connect], [execute] and [getWalletInfo] are refused with "not
    installed" and [disconnect] returns at once, none changing the state.
    A wallet that is injected later is not picked up: that takes a new
    client. *)
Theorem client_without_wallet_stays_idle :
  forall (W U : Type) (packageVersion scope : string)
         (e : Runtime.Env U) (w : W) (sys : Lifecycle.System W U),
    rtc (Lifecycle.step packageVersion)
      {| Lifecycle.client :=
           fst (AzguardClient.init packageVersion None
                  (AzguardClient.constructor scope e w));
         Lifecycle.phase := Lifecycle.Ready;
         Lifecycle.connecting := [] |}
      sys ->
    Lifecycle.step packageVersion (Lifecycle.initial scope e w)
      {| Lifecycle.client :=
           fst (AzguardClient.init packageVersion None
                  (AzguardClient.constructor scope e w));
         Lifecycle.phase := Lifecycle.Ready;
         Lifecycle.connecting := [] |}
    /\ Lifecycle.phase sys = Lifecycle.Ready
    /\ Observations.idle (Lifecycle.client sys)
    /\ Runtime.connected (Lifecycle.client sys) = false
    /\ (forall dappMetadata required optional,
          AzguardClient.connect dappMetadata required optional
            (Lifecycle.client sys)
          = (Lifecycle.client sys,
             Js.Throw (Js.Error "Azguard Wallet is not installed")))
    /\ (forall operations,
          AzguardClient.execute operations (Lifecycle.client sys)
          = (Lifecycle.client sys,
             Js.Throw (Js.Error "Azguard Wallet is not installed")))
    /\ AzguardClient.getWalletInfo (Lifecycle.client sys)
       = (Lifecycle.client sys,
          Js.Throw (Js.Error "Azguard Wallet is not installed"))
    /\ AzguardClient.disconnect (Lifecycle.client sys)
       = (Lifecycle.client sys, Js.Normal tt).
Proof.
  intros W U packageVersion scope e w sys Hrun.
  split; [exact (Lifecycle.step_not_found packageVersion
                   (Lifecycle.initial scope e w) eq_refl)|].
  assert (H : Lifecycle.phase sys = Lifecycle.Ready
              /\ Lifecycle.connecting sys = []
              /\ Observations.idle (Lifecycle.client sys)).
  { remember {| Lifecycle.client := _ |} as start eqn:Hstart.
    assert (Hidle : Lifecycle.phase start = Lifecycle.Ready
                    /\ Lifecycle.connecting start = []
                    /\ Observations.idle (Lifecycle.client start))
      by (subst start; repeat split).
    clear Hstart.
    induction Hrun as [|sys mid sys' Hstep _ IH]; [exact Hidle|].
    apply IH. destruct Hidle as (Hph & Hc & Hi).
    exact (idle_step packageVersion sys mid Hstep Hph Hc Hi). }
  destruct H as (Hph & _ & Hidle). split; [exact Hph|]. split; [exact Hidle|].
  destruct Hidle as (Hrpc & Hs & _ & _).
  split; [unfold Runtime.connected; now rewrite Hs|].
  split; [intros; now apply connect_not_installed|].
  split; [intros operations;
          unfold AzguardClient.execute, Runtime.bind, Runtime.gets;
          now rewrite Hrpc|].
  split.
  - unfold AzguardClient.getWalletInfo, Runtime.bind, Runtime.gets.
    now rewrite Hrpc.
  - unfold AzguardClient.disconnect, Runtime.bind, Runtime.gets. now rewrite Hs.
Qed.

(** After a refused [execute] and the arrival of a subscriber the client
    is as idle as before. *)
Lemma client_without_wallet_stays_idle_witness :
  Observations.idle (Lifecycle.client Demo.idle_2)
  /\ AzguardClient.disconnect (Lifecycle.client Demo.idle_2)
     = (Lifecycle.client Demo.idle_2, Js.Normal tt).
Proof.
  destruct (client_without_wallet_stays_idle nat (list bool) "1.2.0" "default"
              Demo.page 0 Demo.idle_2)
    as (_ & _ & Hidle & _ & _ & _ & _ & Hdisconnect).
  - apply (rtc_l _ _ Demo.idle_1).
    + exact (Lifecycle.step_execute "1.2.0" Demo.idle_0
               [Types.OtherOperation "register_contract"] eq_refl).
    + apply rtc_once.
      exact (Lifecycle.step_onConnected "1.2.0" Demo.idle_1
               (Handlers.Add (Demo.snapshot 1)) eq_refl).
  - split; [exact Hidle|exact Hdisconnect].
Defined.

(** *** Subscribing and unsubscribing *)

Section SubscriptionFacts.
Import Js Types Runtime Handlers.
Context {U T : Type}.
Implicit Types (h : Handler U T) (handlers : EventHandlers U T).

Lemma has_app h handlers handlers' :
  has h (handlers ++ handlers') = has h handlers || has h handlers'.
Proof. unfold has. apply existsb_app. Qed.

Lemma has_addHandler h h' handlers :
  has h' (addHandler h handlers)
  = has h' handlers || (handler_id h =? handler_id h').
Proof.
  unfold addHandler. destruct (has h handlers) eqn:Hhas.
  - destruct (Nat.eqb_spec (handler_id h) (handler_id h')) as [Heq|Hne];
      [|now rewrite orb_false_r].
    rewrite orb_true_r. unfold has in *. now rewrite <- Heq.
  - rewrite has_app. cbn. now rewrite orb_false_r.
Qed.

Lemma has_removeHandler h h' handlers :
  has h' (removeHandler h handlers)
  = has h' handlers && negb (handler_id h =? handler_id h').
Proof.
  unfold has, removeHandler.
  induction handlers as [|x handlers IH]; [reflexivity|]. cbn.
  destruct (Nat.eqb_spec (handler_id x) (handler_id h)) as [Hx|Hx]; cbn.
  - rewrite IH, Hx.
    destruct (Nat.eqb_spec (handler_id h) (handler_id h')) as [_|_]; cbn;
      [now rewrite andb_false_r|now rewrite andb_true_r].
  - rewrite IH.
    destruct (Nat.eqb_spec (handler_id x) (handler_id h')) as [Hx'|_]; cbn;
      [|reflexivity].
    destruct (Nat.eqb_spec (handler_id h) (handler_id h')) as [Hh|_]; cbn;
      [congruence|reflexivity].
Qed.

Lemma removeHandler_absent h handlers :
  has h handlers = false -> removeHandler h handlers = handlers.
Proof.
  unfold has, removeHandler.
  induction handlers as [|x handlers IH]; [reflexivity|]. cbn.
  intros Habsent. apply orb_false_iff in Habsent as [Hx Hrest].
  rewrite Hx. cbn. now rewrite IH.
Qed.

Lemma removeHandler_app h handlers handlers' :
  removeHandler h (handlers ++ handlers')
  = removeHandler h handlers ++ removeHandler h handlers'.
Proof. unfold removeHandler. apply List.filter_app. Qed.

End SubscriptionFacts.

(** X12.  Subscribing and unsubscribing act on a set of callbacks told
    apart by identity.  After [addHandler] the set holds the callback and
    whatever it held before; a callback that is subscribed already stays
    where it is in the order, and a new one goes to the end.  After
    [removeHandler] the set holds what it held before but for that
    callback, the others keeping their order; removing a callback that is
    not subscribed changes nothing, so that subscribing a new callback
    and unsubscribing it gives the set back.  A dispatch after
    [removeHandler] does not invoke the callback. *)
Theorem subscriptions_form_a_set :
  forall (U T : Type) (h : Runtime.Handler U T)
         (handlers : Runtime.EventHandlers U T),
    (forall h' : Runtime.Handler U T,
        Handlers.has h' (Handlers.addHandler h handlers)
        = Handlers.has h' handlers
          || (Runtime.handler_id h =? Runtime.handler_id h'))
    /\ (forall h' : Runtime.Handler U T,
          Handlers.has h' (Handlers.removeHandler h handlers)
          = Handlers.has h' handlers
            && negb (Runtime.handler_id h =? Runtime.handler_id h'))
    /\ (Handlers.has h handlers = true -> Handlers.addHandler h handlers = handlers)
    /\ (Handlers.has h handlers = false ->
        Handlers.addHandler h handlers = handlers ++ [h]
        /\ Handlers.removeHandler h handlers = handlers
        /\ Handlers.removeHandler h (Handlers.addHandler h handlers) = handlers)
    /\ sublist (Handlers.removeHandler h handlers) handlers
    /\ (forall ev payload view,
          Handlers.invocations ev (Runtime.handler_id h)
            (Handlers.dispatch_effects ev payload view
               (Handlers.removeHandler h handlers)) = 0).
Proof.
  intros U T h handlers.
  split; [intros h'; apply has_addHandler|].
  split; [intros h'; apply has_removeHandler|].
  split; [intros Hhas; unfold Handlers.addHandler; now rewrite Hhas|].
  split; [|split].
  - intros Habsent. unfold Handlers.addHandler. rewrite Habsent.
    split; [reflexivity|]. split; [now apply removeHandler_absent|].
    rewrite removeHandler_app, removeHandler_absent by exact Habsent.
    cbn. rewrite Nat.eqb_refl. cbn. apply app_nil_r.
  - unfold Handlers.removeHandler.
    induction handlers as [|x handlers IH]; cbn; [constructor|].
    destruct (negb _); [now apply sublist_skip|now apply sublist_cons].
  - intros ev payload view. rewrite invocations_dispatch_effects.
    apply count_occ_not_In. intros Hin.
    apply (has_spec h) in Hin. rewrite has_removeHandler in Hin.
    rewrite Nat.eqb_refl in Hin. cbn in Hin. now rewrite andb_false_r in Hin.
Qed.

(** *** Callbacks that reach back into the set during a dispatch *)

Section LiveSetRuns.
Import Js LiveSet.
Context {S T : Type}.
Implicit Types (c : Callback S T) (it : Iteration S T)
  (handlers : list (Callback S T)).

Lemma filter_absent i handlers :
  ~ In i (map identity handlers) ->
  List.filter (fun c => negb (Nat.eqb (identity c) i)) handlers = handlers.
Proof.
  induction handlers as [|c handlers IH]; cbn; intros Habsent; [reflexivity|].
  destruct (Nat.eqb_spec (identity c) i) as [Heq|Hne]; cbn.
  - exfalso. apply Habsent. now left.
  - rewrite IH; [reflexivity|]. intros Hin. apply Habsent. now right.
Qed.

(** Calls that remove a callback the iterator has passed leave the entries
    ahead as they are, and add nothing to the entries passed. *)
Lemma fold_remove_passed i (calls : list (RegistryCall S T)) : forall it,
  Forall (fun call => call = RemoveHandler i) calls ->
  ~ In i (map identity (ahead it)) ->
  ahead (fold_left apply_call calls it) = ahead it
  /\ incl (passed (fold_left apply_call calls it)) (passed it).
Proof.
  induction calls as [|call calls IH]; intros it Hcalls Habsent.
  - split; [reflexivity|apply incl_refl].
  - apply Forall_cons in Hcalls as [-> Hcalls]. cbn [fold_left apply_call].
    assert (Hahead : ahead (delete i it) = ahead it)
      by (cbn; now apply filter_absent).
    destruct (IH (delete i it) Hcalls) as [Ha Hp].
    + now rewrite Hahead.
    + split; [now rewrite Ha|].
      intros c Hc. apply Hp in Hc. cbn in Hc. now apply filter_In in Hc.
Qed.

Lemma iterate_self_removing payload : forall handlers fuel before s invoked,
  Forall (removes_only_itself payload) handlers ->
  NoDup (map identity handlers) ->
  length handlers < fuel ->
  exists remaining,
    iterate fuel {| passed := before; ahead := handlers |} payload s invoked
    = Some ({| passed := remaining; ahead := [] |},
            after handlers payload s,
            invoked ++ map identity handlers)
    /\ incl remaining (before ++ handlers).
Proof.
  induction handlers as [|c handlers IH];
    intros fuel before s invoked Hself Hnd Hfuel;
    (destruct fuel as [|fuel]; [cbn in Hfuel; lia|]).
  - exists before. cbn. rewrite !app_nil_r. split; [reflexivity|apply incl_refl].
  - apply Forall_cons in Hself as [Hc Hself].
    cbn [map] in Hnd. apply NoDup_cons in Hnd as [Hfresh Hnd].
    cbn [iterate ahead passed after map].
    specialize (Hc s).
    destruct (body c payload s) as [[s' completion] calls]. cbn [snd fst] in *.
    destruct (fold_remove_passed (identity c) calls
                {| passed := before ++ [c]; ahead := handlers |} Hc)
      as [Ha Hp].
    { cbn. intros Hin. apply Hfresh. now apply list_elem_of_In. }
    destruct (fold_left apply_call calls _) as [passed' ahead'].
    cbn in Ha, Hp. subst ahead'.
    destruct (IH fuel passed' s' (invoked ++ [identity c]) Hself Hnd
                ltac:(cbn in Hfuel; lia)) as (remaining & Hrun & Hincl).
    exists remaining. split.
    + destruct completion; rewrite Hrun; now rewrite <- !app_assoc.
    + intros x Hx. apply Hincl in Hx. apply in_app_or in Hx as [Hx|Hx].
      * apply Hp in Hx. apply in_app_or in Hx as [Hx|[<-|[]]];
          apply in_or_app; [now left|right; now left].
      * apply in_or_app. right. now right.
Qed.

End LiveSetRuns.

(** X13.  Callbacks that unsubscribe themselves while they run do not
    disturb a dispatch: when each callback of the set calls, at most,
    [removeHandler] on itself, the loop ends, every callback that was in
    the set is invoked once, in the set's order, whichever of them throw,
    and the set holds afterwards no callback that it did not hold
    before. *)
Theorem dispatch_with_self_removing_callbacks :
  forall (S T : Type) (calls : list (LiveSet.RegistryCall S T))
         (payload : T) (s : S) (fuel : nat),
    Forall (LiveSet.removes_only_itself payload) (LiveSet.registry_of calls) ->
    length (LiveSet.registry_of calls) < fuel ->
    exists remaining,
      LiveSet.dispatch fuel (LiveSet.registry_of calls) payload s
      = Some ({| LiveSet.passed := remaining; LiveSet.ahead := [] |},
              LiveSet.after (LiveSet.registry_of calls) payload s,
              map LiveSet.identity (LiveSet.registry_of calls))
      /\ incl remaining (LiveSet.registry_of calls)
      /\ NoDup (map LiveSet.identity (LiveSet.registry_of calls)).
Proof.
  intros S T calls payload s fuel Hself Hfuel.
  destruct (iterate_self_removing payload (LiveSet.registry_of calls) fuel [] s []
              Hself (registry_of_live_NoDup calls) Hfuel)
    as (remaining & Hrun & Hincl).
  exists remaining. split; [exact Hrun|]. split; [exact Hincl|].
  apply registry_of_live_NoDup.
Qed.

(** A callback that unsubscribes itself, then a counting callback: both
    are called, and only the second is still subscribed. *)
Lemma dispatch_with_self_removing_callbacks_witness :
  exists remaining,
    LiveSet.dispatch 3
      (LiveSet.registry_of
         [LiveSet.AddHandler Demo.once; LiveSet.AddHandler Demo.counter])
      tt 0
    = Some ({| LiveSet.passed := remaining; LiveSet.ahead := [] |}, 2, [4; 2]).
Proof.
  destruct (dispatch_with_self_removing_callbacks nat unit
              [LiveSet.AddHandler Demo.once; LiveSet.AddHandler Demo.counter]
              tt 0 3)
    as (remaining & Hrun & _).
  - repeat constructor.
  - cbn. lia.
  - exists remaining. exact Hrun.
Defined.

(** X14.  The loop of [dispatch] runs over the set as it is when the
    iterator moves on, not as it was when [dispatch] was called: a
    callback subscribed by the first callback of the set while that one
    runs is invoked in the same dispatch, after the callbacks that were
    subscribed before it, and the dispatch takes one turn more than the
    set had entries. *)
Theorem dispatch_reaches_callback_added_meanwhile :
  forall (S T : Type) (c d : LiveSet.Callback S T)
         (handlers : list (LiveSet.Callback S T))
         (payload : T) (s : S) (fuel : nat),
    (forall s, snd (LiveSet.body c payload s) = [LiveSet.AddHandler d]) ->
    ~ In (LiveSet.identity d) (map LiveSet.identity (c :: handlers)) ->
    Forall (LiveSet.quiet payload) handlers ->
    LiveSet.quiet payload d ->
    length handlers + 2 < fuel ->
    LiveSet.dispatch fuel (c :: handlers) payload s
    = Some ({| LiveSet.passed := c :: handlers ++ [d]; LiveSet.ahead := [] |},
            LiveSet.after (c :: handlers ++ [d]) payload s,
            LiveSet.identity c :: map LiveSet.identity handlers
              ++ [LiveSet.identity d])
    /\ LiveSet.dispatch (length (c :: handlers) + 1) (c :: handlers) payload s
       = None.
Proof.
  intros S T c d handlers payload s fuel Hadds Hfresh Hquiet Hd Hfuel.
  assert (Hturn : forall fuel',
             LiveSet.dispatch (Datatypes.S fuel') (c :: handlers) payload s
             = LiveSet.iterate fuel'
                 {| LiveSet.passed := [c]; LiveSet.ahead := handlers ++ [d] |}
                 payload (fst (fst (LiveSet.body c payload s)))
                 [LiveSet.identity c]).
  { intros fuel'. unfold LiveSet.dispatch.
    cbn [LiveSet.iterate LiveSet.ahead LiveSet.passed].
    specialize (Hadds s).
    destruct (LiveSet.body c payload s) as [[s' completion] calls].
    cbn [snd fst] in *. subst calls.
    cbn [fold_left LiveSet.apply_call app].
    assert (Hhas : LiveSet.has (LiveSet.identity d)
                     {| LiveSet.passed := [c]; LiveSet.ahead := handlers |}
                   = false).
    { destruct (LiveSet.has _ _) eqn:Hhas; [|reflexivity].
      apply live_has_spec in Hhas. contradiction. }
    unfold LiveSet.add. rewrite Hhas. cbn [LiveSet.passed LiveSet.ahead].
    now destruct completion. }
  split.
  - destruct fuel as [|fuel]; [lia|]. rewrite Hturn.
    rewrite iterate_quiet.
    + cbn [LiveSet.after app map]. rewrite map_app. reflexivity.
    + apply Forall_app. split; [exact Hquiet|]. now apply Forall_singleton.
    + rewrite length_app. cbn. lia.
  - replace (length (c :: handlers) + 1)
      with (Datatypes.S (Datatypes.S (length handlers))) by (cbn; lia).
    rewrite Hturn.
    generalize (fst (fst (LiveSet.body c payload s))) as s'.
    generalize [LiveSet.identity c] as invoked.
    generalize [c] as before.
    clear Hturn Hfresh Hadds Hfuel.
    induction handlers as [|x handlers IH]; intros before invoked s'.
    + cbn. now destruct (LiveSet.body d payload s') as [[? []] ?].
    + apply Forall_cons in Hquiet as [Hx Hquiet].
      cbn [length LiveSet.iterate LiveSet.ahead LiveSet.passed app].
      specialize (Hx s').
      destruct (LiveSet.body x payload s') as [[s'' completion] calls].
      cbn [snd] in Hx. subst calls. cbn [fold_left].
      destruct completion; now apply IH.
Qed.

(** The counting callback, subscribed by the only callback of the set
    during the dispatch, is called in that dispatch. *)
Lemma dispatch_reaches_callback_added_meanwhile_witness :
  LiveSet.dispatch 3 [Demo.adder] tt 0
  = Some ({| LiveSet.passed := [Demo.adder; Demo.counter];
             LiveSet.ahead := [] |}, 1, [5; 2]).
Proof.
  refine (proj1 (dispatch_reaches_callback_added_meanwhile nat unit
                   Demo.adder Demo.counter [] tt 0 3 _ _ _ _ _)).
  - reflexivity.
  - cbn. intros [H|[]]. discriminate H.
  - constructor.
  - intros s. reflexivity.
  - cbn. lia.
Defined.

(** *** The adapter's view of the accounts *)

Section SegmentFacts.
Import Js.

Lemma string_app_assoc a b c : (a +:+ b) +:+ c = a +:+ (b +:+ c).
Proof.
  induction a as [|x a IH]; [reflexivity|].
  change (String x ((a +:+ b) +:+ c) = String x (a +:+ (b +:+ c))).
  now rewrite IH.
Qed.

Lemma split_nonempty sep s : split sep s <> [].
Proof.
  destruct s as [|c rest]; cbn; [discriminate|].
  destruct (Ascii.eqb c sep); [discriminate|].
  destruct (split sep rest); discriminate.
Qed.

Lemma split_segments_free sep s :
  Forall (fun a => free_of sep a = true) (split sep s).
Proof.
  induction s as [|c rest IH]; cbn; [now repeat constructor|].
  destruct (Ascii.eqb c sep) eqn:Hc; [now constructor|].
  destruct (split sep rest) as [|seg segs]; [now repeat constructor; cbn; rewrite Hc|].
  apply Forall_cons in IH as [Hseg Hsegs].
  constructor; [|exact Hsegs]. cbn. now rewrite Hc, Hseg.
Qed.

(** [split] loses nothing: joining the segments gives the string back. *)
Lemma join_split sep s : join sep (split sep s) = s.
Proof.
  induction s as [|c rest IH]; [reflexivity|]. cbn [split].
  destruct (Ascii.eqb_spec c sep) as [->|Hc].
  - pose proof (split_nonempty sep rest) as Hne.
    destruct (split sep rest) as [|seg segs]; [contradiction|].
    change (join sep ("" :: seg :: segs))
      with (String sep (join sep (seg :: segs))).
    now rewrite IH.
  - pose proof (split_nonempty sep rest) as Hne.
    destruct (split sep rest) as [|seg segs]; [contradiction|].
    destruct segs as [|seg' segs].
    + cbn in *. now rewrite IH.
    + change (join sep (String c seg :: seg' :: segs))
        with (String c (join sep (seg :: seg' :: segs))).
      now rewrite IH.
Qed.

(** A joined string ends with its last segment, after a separator unless
    that segment is all there is. *)
Lemma join_ends_with_last sep segs :
  segs <> [] ->
  join sep segs = List.last segs ""
  \/ exists p, join sep segs = p +:+ String sep (List.last segs "").
Proof.
  induction segs as [|a segs IH]; [congruence|]. intros _.
  destruct segs as [|b segs]; [now left|]. right.
  change (join sep (a :: b :: segs))
    with (a +:+ String sep (join sep (b :: segs))).
  change (List.last (a :: b :: segs) "") with (List.last (b :: segs) "").
  destruct (IH ltac:(discriminate)) as [Heq|[p Heq]]; rewrite Heq.
  - now exists a.
  - exists (a +:+ String sep p).
    rewrite string_app_assoc. reflexivity.
Qed.

(** After the last separator comes the last segment. *)
Lemma split_app_last sep p a :
  free_of sep a = true ->
  split sep (p +:+ String sep a) = split sep p ++ [a].
Proof.
  intros Hfree. induction p as [|c p IH].
  - change (split sep (String sep a) = [""; a]).
    cbn [split]. rewrite Ascii.eqb_refl. now rewrite split_free.
  - change (split sep (String c (p +:+ String sep a))
            = split sep (String c p) ++ [a]).
    cbn [split]. rewrite IH.
    destruct (Ascii.eqb c sep); [reflexivity|].
    pose proof (split_nonempty sep p) as Hne.
    destruct (split sep p) as [|seg segs]; [contradiction|reflexivity].
Qed.

(** [x.split(":").at(-1)]: the part of [x] after its last colon, or all of
    [x] when it has none. *)
Lemma last_segment sep x :
  free_of sep (List.last (split sep x) "") = true
  /\ (x = List.last (split sep x) ""
      \/ exists p, x = p +:+ String sep (List.last (split sep x) ""))
  /\ endsWith x (List.last (split sep x) "") = true.
Proof.
  pose proof (split_nonempty sep x) as Hne.
  pose proof (split_segments_free sep x) as Hfree.
  pose proof (join_ends_with_last sep _ Hne) as Hends.
  rewrite join_split in Hends.
  split; [|split; [exact Hends|]].
  - destruct (exists_last Hne) as (init & l & Heq). rewrite Heq in *.
    rewrite last_last. apply Forall_app in Hfree as [_ Hl].
    now apply Forall_inv in Hl.
  - apply endsWith_spec. destruct Hends as [Heq|[p Heq]].
    + now exists "".
    + exists (p +:+ String sep ""). rewrite string_app_assoc. exact Heq.
Qed.

Lemma last_segment_of_suffix sep p a :
  free_of sep a = true ->
  List.last (split sep (p +:+ String sep a)) "" = a.
Proof. intros Hfree. rewrite split_app_last by exact Hfree. apply last_last. Qed.

End SegmentFacts.

Section AccountFacts.
Import Js Types Runtime Handlers AzguardClient ShieldSwapAzguardProvider
  Observations.
Context {W U : Type}.
Implicit Types (st : State W U).

Lemma aztec_accounts_run st :
  aztec_accounts st
  = (st, Normal (map (fun x => List.last (split ":" x) "") (accounts st))).
Proof. reflexivity. Qed.

(** The position of the first element that satisfies the test is not
    after the position of any element that does. *)
Lemma find_not_after {A} (f : A -> bool) (l : list A) i x :
  l !! i = Some x -> f x = true ->
  exists k a, k <= i /\ l !! k = Some a /\ List.find f l = Some a
              /\ forall j b, j < k -> l !! j = Some b -> f b = false.
Proof.
  revert i. induction l as [|y l IH]; intros i Hi Hx; [discriminate|].
  cbn [List.find]. destruct (f y) eqn:Hy.
  - exists 0, y. repeat split; [lia|]. intros j b Hj. lia.
  - destruct i as [|i]; [cbn in Hi; congruence|].
    destruct (IH i Hi Hx) as (k & a & Hk & Ha & Hfind & Hbefore).
    exists (Datatypes.S k), a. repeat split; [lia|exact Ha|exact Hfind|].
    intros [|j] b Hj Hb; cbn in Hb; [congruence|].
    apply (Hbefore j); [lia|exact Hb].
Qed.

(** Once the account is resolved, neither method reports it as
    unauthorized. *)
Lemma resolved_is_authorized st from calls authWitnesses account :
  ~ In "" (accounts st) ->
  List.find (fun x => endsWith x from) (accounts st) = Some account ->
  snd (aztec_call from calls st) <> Throw (Error "Unauthorized account")
  /\ snd (aztec_sendTransaction from calls authWitnesses st)
     <> Throw (Error "Unauthorized account").
Proof.
  intros Hne Hfind.
  rewrite (aztec_call_resolved st from calls account Hne Hfind).
  rewrite (aztec_sendTransaction_resolved st from calls authWitnesses
             account Hne Hfind).
  split.
  - apply after_resolution.
    + intros [|r results] st'; cbn; try discriminate.
      destruct r as [[h|v|]| |]; cbn; try discriminate;
        intros [= H]; discriminate H.
    + intros [|r results] st'; cbn; try reflexivity.
      destruct r as [[h|v|]| |]; reflexivity.
  - apply after_resolution.
    + intros [|r results] st'; cbn; try discriminate.
      destruct r as [[h|v|]| |]; cbn; try discriminate;
        intros [= H]; discriminate H.
    + intros [|r results] st'; cbn; try reflexivity.
      destruct r as [[h|v|]| |]; reflexivity.
Qed.

End AccountFacts.

(** X15.  [aztec_accounts] never fails, reaches no wallet and changes
    nothing.  It returns one address per account of the client, in order:
    the part of the account after its last colon (all of it when it has
    none), which holds no colon and which the account ends with.  For a
    chain-qualified account, namespace, chain reference and address joined
    by colons, that part is the address, whatever the namespace and the
    reference are. *)
Theorem aztec_accounts_strips_the_chain :
  forall (W U : Type) (st : Runtime.State W U),
  exists addresses,
    ShieldSwapAzguardProvider.aztec_accounts st = (st, Js.Normal addresses)
    /\ length addresses = length (Runtime.accounts st)
    /\ (forall i account,
          Runtime.accounts st !! i = Some account ->
          exists address,
            addresses !! i = Some address
            /\ Js.free_of ":" address = true
            /\ (account = address \/ exists p, account = p +:+ ":" +:+ address)
            /\ Js.endsWith account address = true)
    /\ (forall i namespace reference address,
          Js.free_of ":" address = true ->
          Runtime.accounts st !! i
            = Some (Observations.qualified namespace reference address) ->
          addresses !! i = Some address).
Proof.
  intros W U st. eexists. split; [apply aztec_accounts_run|].
  split; [apply length_map|]. split.
  - intros i account Hi. eexists.
    split; [rewrite list_lookup_fmap, Hi; reflexivity|].
    destruct (last_segment ":" account) as (Hfree & Hparts & Hends).
    repeat split; assumption.
  - intros i namespace reference address Hfree Hi.
    rewrite list_lookup_fmap, Hi. cbn [fmap option_fmap option_map].
    f_equal. unfold Observations.qualified.
    replace (namespace +:+ ":" +:+ reference +:+ ":" +:+ address)
      with ((namespace +:+ ":" +:+ reference) +:+ String ":" address)
      by (now rewrite !string_app_assoc).
    now apply last_segment_of_suffix.
Qed.

(** X16.  What [aztec_accounts] returns is accepted as [from].  For a
    client none of whose accounts is the empty string, the address
    returned for the account at position [i] resolves, in
    [aztec_sendTransaction] and in [aztec_call], to an account that ends
    with it: the first such account of the list, which stands at position
    [i] or before it, so that of two accounts with one address on two
    chains the earlier is the one acted for.  Neither method then throws
    "Unauthorized account". *)
Theorem returned_addresses_are_accepted :
  forall (W U : Type) (st : Runtime.State W U) (i : nat) (account : string)
         (calls : list Types.SerializedFunctionCall)
         (authWitnesses : list Types.AuthWitness),
    ~ In "" (Runtime.accounts st) ->
    Runtime.accounts st !! i = Some account ->
    let address := List.last (Js.split ":" account) "" in
    exists k resolved,
      k <= i
      /\ Runtime.accounts st !! k = Some resolved
      /\ List.find (fun x => Js.endsWith x address) (Runtime.accounts st)
         = Some resolved
      /\ Js.endsWith resolved address = true
      /\ (forall j other, j < k -> Runtime.accounts st !! j = Some other ->
            Js.endsWith other address = false)
      /\ snd (ShieldSwapAzguardProvider.aztec_call address calls st)
         <> Js.Throw (Js.Error "Unauthorized account")
      /\ snd (ShieldSwapAzguardProvider.aztec_sendTransaction address calls
                authWitnesses st)
         <> Js.Throw (Js.Error "Unauthorized account").
Proof.
  intros W U st i account calls authWitnesses Hne Hi address.
  destruct (last_segment ":" account) as (_ & _ & Hends). fold address in Hends.
  destruct (find_not_after (fun x => Js.endsWith x address) _ i account Hi Hends)
    as (k & resolved & Hk & Hresolved & Hfind & Hbefore).
  exists k, resolved. split; [exact Hk|]. split; [exact Hresolved|].
  split; [exact Hfind|].
  split; [now apply find_some in Hfind|]. split; [exact Hbefore|].
  now apply resolved_is_authorized with (account := resolved).
Qed.

(** The second account of the connected client: its address resolves to
    it. *)
Lemma returned_addresses_are_accepted_witness :
  exists k resolved,
    k <= 1
    /\ List.find (fun x => Js.endsWith x "0xdef")
         (Runtime.accounts Demo.connected_client) = Some resolved
    /\ snd (ShieldSwapAzguardProvider.aztec_call "0xdef" [] Demo.connected_client)
       <> Js.Throw (Js.Error "Unauthorized account").
Proof.
  destruct (returned_addresses_are_accepted nat (list bool)
              Demo.connected_client 1 Demo.bob [] [])
    as (k & resolved & Hk & _ & Hfind & _ & _ & Hcall & _).
  - cbn. intros [H|[H|[]]]; discriminate H.
  - reflexivity.
  - exists k, resolved. split; [exact Hk|]. split; [exact Hfind|exact Hcall].
Defined.

(** *** The adapter's requests *)

Section AdapterFacts.
Import Js Types Runtime Handlers AzguardClient ShieldSwapAzguardProvider
  Observations.
Context {W U : Type}.
Implicit Types (st : State W U).

Lemma unresolved_is_unauthorized st from calls authWitnesses :
  List.find (fun x => endsWith x from) (accounts st) = None ->
  aztec_call from calls st = (st, Throw (Error "Unauthorized account"))
  /\ aztec_sendTransaction from calls authWitnesses st
     = (st, Throw (Error "Unauthorized account")).
Proof.
  intros Hfind. unfold aztec_call, aztec_sendTransaction, bind, gets.
  now rewrite Hfind.
Qed.

Lemma find_no_suffix from (l : list string) :
  (forall x, In x l -> ~ exists p, x = p +:+ from) ->
  List.find (fun x => endsWith x from) l = None.
Proof.
  intros Hnone.
  destruct (List.find (fun x => endsWith x from) l) as [a|] eqn:Hfind;
    [|reflexivity].
  apply find_some in Hfind as [Hin Hends]. apply endsWith_spec in Hends.
  now destruct (Hnone a Hin).
Qed.

Lemma aztec_sendTransaction_run st from calls authWitnesses account ch s :
  ~ In "" (accounts st) ->
  List.find (fun x => endsWith x from) (accounts st) = Some account ->
  rpc st = Some ch -> session st = Some s ->
  let operation :=
    SendTransaction account
      (map add_private_authwit authWitnesses
         ++ map (fun x => EncodedCall (encoded_call x)) calls) in
  aztec_sendTransaction from calls authWitnesses st
  = (fst (execute [operation] st),
     match snd (request_execute ch (id s) [operation] (wallet st)) with
     | RejectedWith reason => Throw (Rejected reason)
     | Fulfilled [] => Throw TypeError
     | Fulfilled (OkResult value :: _) => Normal value
     | Fulfilled (FailedResult error :: _) =>
         Throw (Error ("Operation failed: " +:+ error))
     | Fulfilled (SkippedResult :: _) =>
         Throw (Error "Operation failed: undefined")
     end).
Proof.
  intros Hne Hfind Hrpc Hs operation.
  rewrite (aztec_sendTransaction_resolved st from calls authWitnesses account
             Hne Hfind).
  fold operation. unfold bind.
  rewrite (execute_run st ch s [operation] Hrpc Hs). cbn [fst].
  destruct (snd (request_execute ch (id s) [operation] (wallet st)))
    as [[|[value| error|] results]|reason]; reflexivity.
Qed.

Lemma aztec_call_run st from calls account ch s :
  ~ In "" (accounts st) ->
  List.find (fun x => endsWith x from) (accounts st) = Some account ->
  rpc st = Some ch -> session st = Some s ->
  let operation := SimulateViews account (map encoded_call calls) in
  aztec_call from calls st
  = (fst (execute [operation] st),
     match snd (request_execute ch (id s) [operation] (wallet st)) with
     | RejectedWith reason => Throw (Rejected reason)
     | Fulfilled [] => Throw TypeError
     | Fulfilled (OkResult (SimulatedViews views) :: _) =>
         Normal (Some (encoded views))
     | Fulfilled (OkResult (TxHash _) :: _) => Normal None
     | Fulfilled (OkResult NoValue :: _) => Throw TypeError
     | Fulfilled (FailedResult error :: _) =>
         Throw (Error ("Simulation failed: " +:+ error))
     | Fulfilled (SkippedResult :: _) =>
         Throw (Error "Simulation failed: undefined")
     end).
Proof.
  intros Hne Hfind Hrpc Hs operation.
  rewrite (aztec_call_resolved st from calls account Hne Hfind).
  fold operation. unfold bind.
  rewrite (execute_run st ch s [operation] Hrpc Hs). cbn [fst].
  destruct (snd (request_execute ch (id s) [operation] (wallet st)))
    as [[|[[hash|views|]| error|] results]|reason]; reflexivity.
Qed.

Lemma execute_requests st ch s operations :
  rpc st = Some ch -> session st = Some s ->
  requests_of (trace (fst (execute operations st)))
  = requests_of (trace st) ++ [ReqExecute (id s) operations].
Proof.
  intros Hrpc Hs. rewrite (execute_run st ch s operations Hrpc Hs).
  cbn [fst trace set_wallet set_trace]. now rewrite requests_of_app.
Qed.

End AdapterFacts.

(** X17.  A [from] that no account of the client ends with is refused
    before anything else happens: [aztec_call] and [aztec_sendTransaction]
    throw "Unauthorized account", no request is issued and the state is as
    before.  A client that holds no session has no accounts, so that on it
    every [from], the empty string too, is refused in this way, whether a
    channel is bound or not: what the caller of a disconnected adapter
    sees is "Unauthorized account", not "not connected". *)
Theorem unmatched_from_is_refused_first :
  forall (W U : Type) (st : Runtime.State W U) (from : string)
         (calls : list Types.SerializedFunctionCall)
         (authWitnesses : list Types.AuthWitness),
    ((forall x, In x (Runtime.accounts st) -> ~ exists p, x = p +:+ from) ->
     ShieldSwapAzguardProvider.aztec_call from calls st
     = (st, Js.Throw (Js.Error "Unauthorized account"))
     /\ ShieldSwapAzguardProvider.aztec_sendTransaction from calls
          authWitnesses st
        = (st, Js.Throw (Js.Error "Unauthorized account")))
    /\ (Runtime.session st = None ->
        ShieldSwapAzguardProvider.aztec_call from calls st
        = (st, Js.Throw (Js.Error "Unauthorized account"))
        /\ ShieldSwapAzguardProvider.aztec_sendTransaction from calls
             authWitnesses st
           = (st, Js.Throw (Js.Error "Unauthorized account"))).
Proof.
  intros W U st from calls authWitnesses. split.
  - intros Hnone. apply unresolved_is_unauthorized.
    now apply find_no_suffix.
  - intros Hs. apply unresolved_is_unauthorized.
    unfold Runtime.accounts. now rewrite Hs.
Qed.

(** X18.  [aztec_sendTransaction], once [from] is resolved on a connected
    client: it leaves the state that the core's [execute] of the one
    [send_transaction] operation leaves, having issued that one request,
    and it completes by the first result of the batch alone: the result's
    value when its status is "ok"; an error "Operation failed: " followed
    by the result's error text when it failed, and by "undefined" when it
    was skipped; a [TypeError] when the batch is empty; and the rejection
    when the channel rejects. *)
Theorem aztec_sendTransaction_outcomes :
  forall (W U : Type) (st : Runtime.State W U) (from : string)
         (calls : list Types.SerializedFunctionCall)
         (authWitnesses : list Types.AuthWitness) (account : string)
         (ch : Types.AzguardRpcClient W) (s : Types.DappSession),
    ~ In "" (Runtime.accounts st) ->
    List.find (fun x => Js.endsWith x from) (Runtime.accounts st) = Some account ->
    Runtime.rpc st = Some ch ->
    Runtime.session st = Some s ->
    let operation :=
      Types.SendTransaction account
        (map ShieldSwapAzguardProvider.add_private_authwit authWitnesses
           ++ map (fun x => Types.EncodedCall
                              (ShieldSwapAzguardProvider.encoded_call x))
                calls) in
    snd (ShieldSwapAzguardProvider.aztec_sendTransaction from calls
           authWitnesses st)
    = match snd (Types.request_execute ch (Types.id s) [operation]
                   (Runtime.wallet st)) with
      | Types.RejectedWith reason => Js.Throw (Js.Rejected reason)
      | Types.Fulfilled [] => Js.Throw Js.TypeError
      | Types.Fulfilled (Types.OkResult value :: _) => Js.Normal value
      | Types.Fulfilled (Types.FailedResult error :: _) =>
          Js.Throw (Js.Error ("Operation failed: " +:+ error))
      | Types.Fulfilled (Types.SkippedResult :: _) =>
          Js.Throw (Js.Error "Operation failed: undefined")
      end
    /\ fst (ShieldSwapAzguardProvider.aztec_sendTransaction from calls
              authWitnesses st)
       = fst (AzguardClient.execute [operation] st)
    /\ Observations.requests_of
         (Runtime.trace
            (fst (ShieldSwapAzguardProvider.aztec_sendTransaction from calls
                    authWitnesses st)))
       = Observations.requests_of (Runtime.trace st)
           ++ [Runtime.ReqExecute (Types.id s) [operation]].
Proof.
  intros W U st from calls authWitnesses account ch s Hne Hfind Hrpc Hs
    operation.
  rewrite (aztec_sendTransaction_run st from calls authWitnesses account ch s
             Hne Hfind Hrpc Hs).
  fold operation. cbn [fst snd]. split; [reflexivity|]. split; [reflexivity|].
  now apply (execute_requests st ch).
Qed.

Lemma aztec_sendTransaction_outcomes_witness :
  snd (ShieldSwapAzguardProvider.aztec_sendTransaction "0xabc" [] []
         Demo.connected_client)
  = Js.Normal (Types.TxHash "0xhash").
Proof.
  assert (Hne : ~ In "" (Runtime.accounts Demo.connected_client)).
  { cbn. intros [H|[H|[]]]; discriminate H. }
  exact (proj1 (aztec_sendTransaction_outcomes nat (list bool)
                  Demo.connected_client "0xabc" [] [] Demo.alice Demo.channel
                  Demo.session1 Hne eq_refl eq_refl eq_refl)).
Defined.

(** X19.  [aztec_call], once [from] is resolved on a connected client: it
    leaves the state that the core's [execute] of the one [simulate_views]
    operation leaves, having issued that one request, and it completes by
    the first result of the batch alone: the [encoded] array of a
    simulate-views result whose status is "ok"; [undefined] when the "ok"
    result holds a string, which has no such property, and a [TypeError]
    when it holds nothing; an error "Simulation failed: " followed by the
    result's error text when it failed, and by "undefined" when it was
    skipped; a [TypeError] when the batch is empty; and the rejection when
    the channel rejects. *)
Theorem aztec_call_outcomes :
  forall (W U : Type) (st : Runtime.State W U) (from : string)
         (calls : list Types.SerializedFunctionCall) (account : string)
         (ch : Types.AzguardRpcClient W) (s : Types.DappSession),
    ~ In "" (Runtime.accounts st) ->
    List.find (fun x => Js.endsWith x from) (Runtime.accounts st) = Some account ->
    Runtime.rpc st = Some ch ->
    Runtime.session st = Some s ->
    let operation :=
      Types.SimulateViews account
        (map ShieldSwapAzguardProvider.encoded_call calls) in
    snd (ShieldSwapAzguardProvider.aztec_call from calls st)
    = match snd (Types.request_execute ch (Types.id s) [operation]
                   (Runtime.wallet st)) with
      | Types.RejectedWith reason => Js.Throw (Js.Rejected reason)
      | Types.Fulfilled [] => Js.Throw Js.TypeError
      | Types.Fulfilled (Types.OkResult (Types.SimulatedViews views) :: _) =>
          Js.Normal (Some (Types.encoded views))
      | Types.Fulfilled (Types.OkResult (Types.TxHash _) :: _) => Js.Normal None
      | Types.Fulfilled (Types.OkResult Types.NoValue :: _) =>
          Js.Throw Js.TypeError
      | Types.Fulfilled (Types.FailedResult error :: _) =>
          Js.Throw (Js.Error ("Simulation failed: " +:+ error))
      | Types.Fulfilled (Types.SkippedResult :: _) =>
          Js.Throw (Js.Error "Simulation failed: undefined")
      end
    /\ fst (ShieldSwapAzguardProvider.aztec_call from calls st)
       = fst (AzguardClient.execute [operation] st)
    /\ Observations.requests_of
         (Runtime.trace (fst (ShieldSwapAzguardProvider.aztec_call from calls st)))
       = Observations.requests_of (Runtime.trace st)
           ++ [Runtime.ReqExecute (Types.id s) [operation]].
Proof.
  intros W U st from calls account ch s Hne Hfind Hrpc Hs operation.
  rewrite (aztec_call_run st from calls account ch s Hne Hfind Hrpc Hs).
  fold operation. cbn [fst snd]. split; [reflexivity|]. split; [reflexivity|].
  now apply (execute_requests st ch).
Qed.

(** A wallet that fails every simulation. *)
Lemma aztec_call_outcomes_witness :
  snd (ShieldSwapAzguardProvider.aztec_call "0xabc" []
         (Runtime.set_rpc (Some Demo.failing_channel) Demo.connected_client))
  = Js.Throw (Js.Error "Simulation failed: reverted").
Proof.
  assert (Hne : ~ In "" (Runtime.accounts
                           (Runtime.set_rpc (Some Demo.failing_channel)
                              Demo.connected_client))).
  { cbn. intros [H|[H|[]]]; discriminate H. }
  exact (proj1 (aztec_call_outcomes nat (list bool)
                  (Runtime.set_rpc (Some Demo.failing_channel)
                     Demo.connected_client)
                  "0xabc" [] Demo.alice Demo.failing_channel
                  Demo.session1 Hne eq_refl eq_refl eq_refl)).
Defined.

Section DispatcherFacts.
Import Js Types Runtime Handlers AzguardClient ShieldSwapAzguardProvider
  Observations.
Context {W U : Type}.
Implicit Types (st : State W U).
Local Arguments dispatch : simpl never.

Lemma aztec_requestAccounts_run st host ch :
  rpc st = Some ch ->
  aztec_requestAccounts host st
  = match snd (request_connect ch {| name := host |} []
                 (Some optionalPermissions) (wallet st)) with
    | Fulfilled response =>
        (fst (connect {| name := host |} [] (Some optionalPermissions) st),
         Normal (map (fun x => List.last (split ":" x) "")
                   (Types.accounts response)))
    | RejectedWith reason =>
        (fst (connect {| name := host |} [] (Some optionalPermissions) st),
         Throw (Rejected reason))
    end.
Proof.
  intros Hrpc. unfold aztec_requestAccounts. unfold bind at 1.
  rewrite (connect_run st _ _ _ ch Hrpc). cbn zeta.
  destruct (snd (request_connect ch _ _ _ (wallet st))) as [response|reason];
    [|reflexivity].
  rewrite connect_resume_run. cbn [fst]. rewrite aztec_accounts_run.
  destruct st; reflexivity.
Qed.

Lemma adapter_error_known e :
  adapter_error e ->
  e <> Error "Unsupported method"
  /\ e <> Error "Azguard Wallet is not connected".
Proof.
  destruct e as [message| |reason]; cbn; [|split; discriminate..].
  intros [->|[->|[[detail ->]|[detail ->]]]]; split;
    try discriminate; intros [= H]; discriminate H.
Qed.

Lemma aztec_sendTransaction_errors st from calls authWitnesses e :
  snd (aztec_sendTransaction from calls authWitnesses st) = Throw e ->
  adapter_error e.
Proof.
  unfold aztec_sendTransaction. unfold bind at 1, gets at 1.
  destruct (List.find _ (accounts st)) as [account|] eqn:Hfind;
    [|intros [= <-]; cbn; auto].
  destruct (falsy (Some account)); [intros [= <-]; cbn; auto|].
  unfold bind.
  destruct (execute_completions
              [SendTransaction account
                 (map add_private_authwit authWitnesses
                    ++ map (fun x => EncodedCall (encoded_call x)) calls)] st)
    as [[_ Hex]|[[Hs Hex]|(ch & s & _ & _ & Hex)]]; rewrite Hex.
  - intros [= <-]. cbn. auto.
  - unfold accounts in Hfind. rewrite Hs in Hfind. discriminate.
  - destruct (snd (request_execute ch (id s) _ (wallet st)))
      as [[|[value| error|] results]|reason]; cbn; intros [= <-]; cbn; auto.
    + right; right; left. now exists error.
    + right; right; left. now exists "undefined".
Qed.

Lemma aztec_call_errors st from calls e :
  snd (aztec_call from calls st) = Throw e -> adapter_error e.
Proof.
  unfold aztec_call. unfold bind at 1, gets at 1.
  destruct (List.find _ (accounts st)) as [account|] eqn:Hfind;
    [|intros [= <-]; cbn; auto].
  destruct (falsy (Some account)); [intros [= <-]; cbn; auto|].
  unfold bind.
  destruct (execute_completions
              [SimulateViews account (map encoded_call calls)] st)
    as [[_ Hex]|[[Hs Hex]|(ch & s & _ & _ & Hex)]]; rewrite Hex.
  - intros [= <-]. cbn. auto.
  - unfold accounts in Hfind. rewrite Hs in Hfind. discriminate.
  - destruct (snd (request_execute ch (id s) _ (wallet st)))
      as [[|[[hash|views|]| error|] results]|reason]; cbn; intros [= <-];
      cbn; auto.
    + right; right; right. now exists error.
    + right; right; right. now exists "undefined".
Qed.

Lemma aztec_requestAccounts_errors st host e :
  snd (aztec_requestAccounts host st) = Throw e -> adapter_error e.
Proof.
  destruct (rpc st) as [ch|] eqn:Hrpc.
  - rewrite (aztec_requestAccounts_run st host ch Hrpc).
    destruct (snd (request_connect ch _ _ _ (wallet st))); cbn;
      intros [= <-]; exact I.
  - unfold aztec_requestAccounts. unfold bind at 1.
    rewrite connect_not_installed by exact Hrpc.
    intros [= <-]. cbn. auto.
Qed.

End DispatcherFacts.

(** X20.  [aztec_requestAccounts] is a [connect] for the page's host, with
    no required permission and the adapter's one optional grant, followed
    by [aztec_accounts]: with no channel bound it throws "not installed"
    and changes nothing; with a channel it leaves the state that this
    [connect] leaves, and when the wallet answers with a session it
    returns the addresses of that session's accounts, those a later
    [aztec_accounts] returns again; when the wallet rejects, it throws the
    rejection. *)
Theorem aztec_requestAccounts_connects_and_lists :
  forall (W U : Type) (st : Runtime.State W U) (host : string),
    let connected :=
      fst (AzguardClient.connect {| Types.name := host |} []
             (Some ShieldSwapAzguardProvider.optionalPermissions) st) in
    (Runtime.rpc st = None ->
     ShieldSwapAzguardProvider.aztec_requestAccounts host st
     = (st, Js.Throw (Js.Error "Azguard Wallet is not installed")))
    /\ (forall ch, Runtime.rpc st = Some ch ->
          fst (ShieldSwapAzguardProvider.aztec_requestAccounts host st)
            = connected
          /\ Observations.requests_of (Runtime.trace connected)
             = Observations.requests_of (Runtime.trace st)
                 ++ [Runtime.ReqConnect {| Types.name := host |} []
                       (Some ShieldSwapAzguardProvider.optionalPermissions)]
          /\ (forall response,
                snd (Types.request_connect ch {| Types.name := host |} []
                       (Some ShieldSwapAzguardProvider.optionalPermissions)
                       (Runtime.wallet st)) = Types.Fulfilled response ->
                snd (ShieldSwapAzguardProvider.aztec_requestAccounts host st)
                  = Js.Normal
                      (map (fun x => List.last (Js.split ":" x) "")
                         (Types.accounts response))
                /\ snd (ShieldSwapAzguardProvider.aztec_accounts connected)
                   = snd (ShieldSwapAzguardProvider.aztec_requestAccounts
                            host st))
          /\ (forall reason,
                snd (Types.request_connect ch {| Types.name := host |} []
                       (Some ShieldSwapAzguardProvider.optionalPermissions)
                       (Runtime.wallet st)) = Types.RejectedWith reason ->
                snd (ShieldSwapAzguardProvider.aztec_requestAccounts host st)
                  = Js.Throw (Js.Rejected reason))).
Proof.
  intros W U st host connected. split.
  - intros Hrpc. unfold ShieldSwapAzguardProvider.aztec_requestAccounts.
    unfold Runtime.bind at 1. now rewrite connect_not_installed.
  - intros ch Hrpc.
    pose proof (aztec_requestAccounts_run st host ch Hrpc) as Hrun.
    fold connected in Hrun.
    split; [|split; [|split]].
    + rewrite Hrun. now destruct (snd (Types.request_connect _ _ _ _ _)).
    + apply (connect_requests st _ _ _ ch Hrpc).
    + intros response Hresp. rewrite Hrun, Hresp. split; [reflexivity|].
      rewrite aztec_accounts_run. cbn [snd]. do 2 f_equal.
      subst connected. rewrite (connect_run st _ _ _ ch Hrpc). cbn zeta.
      rewrite Hresp, connect_resume_run. reflexivity.
    + intros reason Hresp. now rewrite Hrun, Hresp.
Qed.

Lemma aztec_requestAccounts_connects_and_lists_witness :
  snd (ShieldSwapAzguardProvider.aztec_requestAccounts "dapp.example"
         (Lifecycle.client Demo.ready_1))
  = Js.Normal ["0xabc"; "0xdef"].
Proof.
  exact (proj1 (proj1 (proj2 (proj2
           (proj2 (aztec_requestAccounts_connects_and_lists nat (list bool)
                     (Lifecycle.client Demo.ready_1) "dapp.example")
              Demo.channel eq_refl)))
           Demo.session1 eq_refl)).
Defined.

(** X21.  How a request through [request] can fail.  A method name that
    the [in] operator does not find (it is no key of the table and not
    inherited from [Object.prototype]) is refused with "Unsupported
    method", the state unchanged.  A request typed by [RpcRequestMap] is
    never refused: whatever [in] finds besides, each of the five names is a
    key, and when such a request throws, the exception is the adapter's
    "Unauthorized account", "Operation failed: ..." or "Simulation failed:
    ...", the core's "not installed", a [TypeError], or a rejection by the
    channel; it is neither "Unsupported method" nor the core's "not
    connected".  [wallet_watchAssets] and [aztec_accounts] do not throw
    and change nothing. *)
Theorem request_fails_in_known_ways :
  forall (W U : Type) (host : string) (inherited : string -> bool)
         (beyond : string -> Runtime.M (W := W) (U := U)
                               ShieldSwapAzguardProvider.RpcResult)
         (r : ShieldSwapAzguardProvider.RpcRequest) (st : Runtime.State W U),
    (ShieldSwapAzguardProvider.in_methods inherited
       (ShieldSwapAzguardProvider.method_of r) = false ->
     ShieldSwapAzguardProvider.request host inherited beyond r st
     = (st, Js.Throw (Js.Error "Unsupported method")))
    /\ ((forall method, r <> ShieldSwapAzguardProvider.Request_other method) ->
        ShieldSwapAzguardProvider.in_methods inherited
          (ShieldSwapAzguardProvider.method_of r) = true
        /\ forall e,
             snd (ShieldSwapAzguardProvider.request host inherited beyond r st)
               = Js.Throw e ->
             Observations.adapter_error e
             /\ e <> Js.Error "Unsupported method"
             /\ e <> Js.Error "Azguard Wallet is not connected")
    /\ ShieldSwapAzguardProvider.request host inherited beyond
         ShieldSwapAzguardProvider.Request_wallet_watchAssets st
       = (st, Js.Normal ShieldSwapAzguardProvider.ResultVoid)
    /\ ShieldSwapAzguardProvider.request host inherited beyond
         ShieldSwapAzguardProvider.Request_aztec_accounts st
       = (st, Js.Normal
                (ShieldSwapAzguardProvider.ResultAccounts
                   (map (fun x => List.last (Js.split ":" x) "")
                      (Runtime.accounts st)))).
Proof.
  intros W U host inherited beyond r st.
  split; [|split; [|split; reflexivity]].
  - intros Hin. unfold ShieldSwapAzguardProvider.request. now rewrite Hin.
  - intros Htyped.
    assert (Hin : ShieldSwapAzguardProvider.in_methods inherited
                    (ShieldSwapAzguardProvider.method_of r) = true).
    { destruct r; try reflexivity. now destruct (Htyped method). }
    split; [exact Hin|]. intros e He.
    assert (Herr : Observations.adapter_error e);
      [|split; [exact Herr|now apply adapter_error_known]].
    unfold ShieldSwapAzguardProvider.request in He. rewrite Hin in He.
    cbn [negb] in He. unfold Runtime.bind in He.
    destruct r as [| |from calls authWitnesses|from calls| |method].
    + destruct (ShieldSwapAzguardProvider.aztec_requestAccounts host st)
        as [st' [accounts|x]] eqn:Hrun; [discriminate|].
      injection He as ->.
      apply (aztec_requestAccounts_errors st host). now rewrite Hrun.
    + discriminate.
    + destruct (ShieldSwapAzguardProvider.aztec_sendTransaction _ _ _ st)
        as [st' [hash|x]] eqn:Hrun; [discriminate|].
      injection He as ->.
      apply (aztec_sendTransaction_errors st from calls authWitnesses).
      now rewrite Hrun.
    + destruct (ShieldSwapAzguardProvider.aztec_call _ _ st)
        as [st' [encoded|x]] eqn:Hrun; [discriminate|].
      injection He as ->.
      apply (aztec_call_errors st from calls). now rewrite Hrun.
    + discriminate.
    + now destruct (Htyped method).
Qed.

(** X22.  An adapter created where no wallet shows up.  With the default
    timeout of 300 ms the promise of [create] is pending through 29
    firings of the poll and resolves at the 30th, with an adapter over a
    client that is idle, for the scope "default", and subscribed with its
    one callback to the disconnected and the accounts-changed events only.
    On that adapter [aztec_accounts] returns no account,
    [aztec_requestAccounts] throws "not installed", and [aztec_call] and
    [aztec_sendTransaction] throw "Unauthorized account" for every [from];
    none of them changes the state. *)
Theorem adapter_without_wallet :
  forall (W U : Type) (packageVersion : string) (fn : nat) (fuel : nat)
         (e : Runtime.Env U) (w : W),
    let adapter :=
      ShieldSwapAzguardProvider.constructor fn
        (AzguardClient.constructor "default" e w) in
    ShieldSwapAzguardProvider.create packageVersion fn (fun _ => None) fuel e w
    = (if 30 <=? fuel then Some (adapter, Js.Normal tt) else None)
    /\ Observations.idle adapter
    /\ map Runtime.handler_id (Runtime.onDisconnected adapter) = [fn]
    /\ map Runtime.handler_id (Runtime.onAccountsChanged adapter) = [fn]
    /\ Runtime.onConnected adapter = []
    /\ Runtime.onPermissionsChanged adapter = []
    /\ ShieldSwapAzguardProvider.aztec_accounts adapter
       = (adapter, Js.Normal [])
    /\ (forall host,
          ShieldSwapAzguardProvider.aztec_requestAccounts host adapter
          = (adapter, Js.Throw (Js.Error "Azguard Wallet is not installed")))
    /\ (forall from calls authWitnesses,
          ShieldSwapAzguardProvider.aztec_call from calls adapter
          = (adapter, Js.Throw (Js.Error "Unauthorized account"))
          /\ ShieldSwapAzguardProvider.aztec_sendTransaction from calls
               authWitnesses adapter
             = (adapter, Js.Throw (Js.Error "Unauthorized account"))).
Proof.
  intros W U packageVersion fn fuel e w adapter.
  split; [|repeat split].
  unfold ShieldSwapAzguardProvider.create, AzguardClient.create,
    ShieldSwapAzguardProvider.default_timeout, Detection.getAzguardObject.
  pose proof (firings_absent (Obj := Types.AzguardObject W) (fun _ => None)
                (Detection.Number 300) 30
                (gives_up_at_Number 300 ltac:(reflexivity)) fuel 0
                ltac:(lia) ltac:(reflexivity)) as Hpoll.
  cbn [Detection.rest_after Nat.add] in Hpoll. rewrite Hpoll.
  now destruct (30 <=? fuel).
Qed.

(** *** The poll and a wallet that shows up late *)

(** X23.  When the poll finds a wallet that shows up late.  The deadline
    of a timeout is the first firing at which [rest], from which every
    firing takes 10 in double arithmetic, is zero or less; a timeout for
    which no firing gets there has none.  (1) Let [window.azguard] be
    missing at the firings before the [k]-th and there at the [k]-th.
    The poll resolves with the object, at that firing, exactly when the
    firing is not after the deadline; when the wallet shows up after the
    deadline the poll resolves at the deadline as absent, and what is
    injected later is not seen; without a deadline the poll waits as long
    as it takes.  (2) The deadline of a positive double below 2^53 is the
    firing [ticks_covering], the timeout rounded up to a multiple of the
    tick; for a whole number that is the firing [ticks_rounded_up];
    (3) that of a timeout of zero or less is the first firing; (4) a
    timeout that [rest -= 10] leaves as it is and that is above zero has
    none, and [Infinity], [NaN] and the finite 1e18 are such timeouts. *)
Theorem poll_finds_what_shows_up_by_the_deadline :
  (forall (Obj : Type) (timeout : Detection.JsNumber) (last : option nat)
          (window : nat -> option Obj) (k : nat) (azguard : Obj) (fuel : nat),
      Observations.deadline timeout last ->
      1 <= k ->
      window k = Some azguard ->
      (forall i, 1 <= i < k -> window i = None) ->
      Detection.getAzguardObject timeout window fuel
      = match last with
        | Some last =>
            if last <? k
            then (if last <=? fuel then Some (last, None) else None)
            else (if k <=? fuel then Some (k, Some azguard) else None)
        | None => if k <=? fuel then Some (k, Some azguard) else None
        end)
  /\ (forall M E,
        SpecFloat.valid_binary Detection.prec Detection.emax
          (SpecFloat.S754_finite false M E) = true ->
        (E <= 0)%Z ->
        Observations.deadline (SpecFloat.S754_finite false M E)
          (Some (Detection.ticks_covering (Zpos M) E)))
  /\ (forall t, (t < 2 ^ 53)%Z ->
        Observations.deadline (Detection.Number t)
          (Some (Detection.ticks_rounded_up t)))
  /\ (forall timeout,
        Detection.le_zero timeout = true ->
        Observations.deadline timeout (Some 1))
  /\ (forall timeout,
        Detection.minus10 timeout = timeout ->
        Detection.le_zero timeout = false ->
        Observations.deadline timeout None)
  /\ Observations.deadline Detection.PosInfinity None
  /\ Observations.deadline Detection.NaN None
  /\ Observations.deadline (Detection.Number (10 ^ 18)) None.
Proof.
  split; [|split; [|split; [|split; [|split; [|repeat split]]]]].
  - intros Obj timeout last window k azguard fuel Hlast Hk Hthere Hbefore.
    unfold Detection.getAzguardObject.
    destruct last as [n|]; cbn [Observations.deadline] in Hlast.
    + destruct (Nat.ltb_spec n k) as [Hlate|Hintime].
      * apply (firings_absent window timeout n Hlast fuel 0);
          [destruct Hlast; lia|].
        intros j Hj. apply Hbefore. lia.
      * apply (firings_sighting window timeout k azguard Hthere fuel 0);
          [lia|intros i Hi; apply Hbefore; lia|].
        intros i Hi. destruct Hlast as (_ & _ & Hrest). apply Hrest. lia.
    + apply (firings_sighting window timeout k azguard Hthere fuel 0);
        [lia|intros i Hi; apply Hbefore; lia|].
      intros i Hi. apply Hlast. lia.
  - exact gives_up_at_finite.
  - exact gives_up_at_Number.
  - exact gives_up_at_nonpositive.
  - exact never_gives_up_fixed.
  - apply never_gives_up_unbounded. now left.
  - apply never_gives_up_unbounded. now right; left.
  - apply never_gives_up_unbounded. now right; right.
Qed.

(** With a timeout of 25 ms a wallet that is there from 30 ms on is found,
    at the third firing; with a timeout of 20 ms it is not. *)
Lemma poll_finds_what_shows_up_by_the_deadline_witness :
  Detection.getAzguardObject (Detection.Number 25) Demo.late_window 5
    = Some (3, Some Demo.azguard)
  /\ Detection.getAzguardObject (Detection.Number 20) Demo.late_window 5
     = Some (2, None).
Proof.
  split.
  - apply (proj1 poll_finds_what_shows_up_by_the_deadline
             _ (Detection.Number 25) (Some 3) Demo.late_window 3 Demo.azguard 5);
      [|lia|reflexivity|].
    + apply (proj1 (proj2 (proj2 poll_finds_what_shows_up_by_the_deadline))
               25%Z).
      reflexivity.
    + intros [|[|[|i]]] Hi; (reflexivity || lia).
  - apply (proj1 poll_finds_what_shows_up_by_the_deadline
             _ (Detection.Number 20) (Some 2) Demo.late_window 3 Demo.azguard 5);
      [|lia|reflexivity|].
    + apply (proj1 (proj2 (proj2 poll_finds_what_shows_up_by_the_deadline))
               20%Z).
      reflexivity.
    + intros [|[|[|i]]] Hi; (reflexivity || lia).
Defined.

(** X24.  Compatibility of versions is an equivalence: every version is
    compatible with itself, it does not matter which of two versions is
    the client's and which the wallet's, and versions compatible with one
    version are compatible with each other. *)
Theorem isCompatible_is_an_equivalence :
  (forall v, Version.isCompatible v v = true)
  /\ (forall a b, Version.isCompatible a b = Version.isCompatible b a)
  /\ (forall a b c,
        Version.isCompatible a b = true ->
        Version.isCompatible b c = true ->
        Version.isCompatible a c = true)
  /\ (forall a b c,
        Version.isCompatible a b = true ->
        Version.isCompatible a c = Version.isCompatible b c).
Proof.
  assert (Hiff : forall own remote,
      Version.isCompatible own remote = true <->
      Js.split "." remote !! 0 = Js.split "." own !! 0
      /\ Js.split "." remote !! 1 = Js.split "." own !! 1).
  { intros own remote. unfold Version.isCompatible.
    rewrite andb_true_iff, !strict_eq_true. reflexivity. }
  assert (Hsym : forall a b,
             Version.isCompatible a b = Version.isCompatible b a).
  { intros a b. apply eq_true_iff_eq. rewrite !Hiff. intuition congruence. }
  assert (Htrans : forall a b c,
             Version.isCompatible a b = true ->
             Version.isCompatible b c = true ->
             Version.isCompatible a c = true).
  { intros a b c. rewrite !Hiff. intuition congruence. }
  split; [|split; [exact Hsym|split; [exact Htrans|]]].
  - intros v. now apply Hiff.
  - intros a b c Hab. apply eq_true_iff_eq. split; intros H.
    + apply (Htrans b a c); [now rewrite Hsym|exact H].
    + exact (Htrans a b c Hab H).
Qed.

(** *** A push that changes nothing *)

Section UnchangedFacts.
Import Js Types Runtime Handlers AzguardClient Spec.

Lemma grants_differb_same p : grants_differb p p = false.
Proof.
  unfold grants_differb. now rewrite !bool_decide_eq_true_2 by reflexivity.
Qed.

Lemma permissions_differb_same l : permissions_differb l l = false.
Proof.
  unfold permissions_differb. rewrite Nat.eqb_refl. cbn [negb orb].
  induction l as [|p l IH]; [reflexivity|].
  cbn [combine existsb fst snd]. now rewrite grants_differb_same, IH.
Qed.

End UnchangedFacts.

(** X25.  A [session_updated] push whose session has the permission list
    and the account list that the client's getters return already (the
    session stored, pushed again; the same session under another
    identifier; or, on a disconnected client, a session with no accounts
    and no permissions) stores the session and dispatches nothing: no
    subscriber is called and the environment is as before. *)
Theorem push_without_change_dispatches_nothing :
  forall (W U : Type) (st : Runtime.State W U) (new : Types.DappSession),
    Runtime.permissions st = Types.permissions new ->
    Runtime.accounts st = Types.accounts new ->
    AzguardClient.onSessionUpdated new st
    = (Runtime.set_session (Some new)
         (Runtime.set_trace
            (Runtime.trace st ++ [Runtime.SessionAssigned (Some new)]) st),
       Js.Normal tt).
Proof.
  intros W U st new Hpermissions Haccounts.
  rewrite onSessionUpdated_run. cbn zeta.
  rewrite Hpermissions, permissions_differb_same.
  now rewrite (bool_decide_eq_true_2 _ Haccounts).
Qed.

(** The wallet pushes the session of the connected client under a new
    identifier. *)
Lemma push_without_change_dispatches_nothing_witness :
  Runtime.trace
    (fst (AzguardClient.onSessionUpdated
            {| Types.id := "session-2";
               Types.accounts := [Demo.alice; Demo.bob];
               Types.permissions := [Demo.grant] |}
            Demo.watched_client))
  = Runtime.trace Demo.watched_client
      ++ [Runtime.SessionAssigned
            (Some {| Types.id := "session-2";
                     Types.accounts := [Demo.alice; Demo.bob];
                     Types.permissions := [Demo.grant] |})].
Proof.
  rewrite (push_without_change_dispatches_nothing nat (list bool)
             Demo.watched_client
             {| Types.id := "session-2";
                Types.accounts := [Demo.alice; Demo.bob];
                Types.permissions := [Demo.grant] |}
             eq_refl eq_refl).
  reflexivity.
Defined.

(** *** The adapter's own subscriptions *)

Section InertFacts.
Import Js Types Runtime Handlers AzguardClient ShieldSwapAzguardProvider.
Context {W U : Type}.
Implicit Types (st : State W U).
Local Arguments dispatch : simpl never.

Lemma after_handlers_app {T} (handlers handlers' : EventHandlers U T) payload
    view e :
  after_handlers (handlers ++ handlers') payload view e
  = after_handlers handlers' payload view
      (after_handlers handlers payload view e).
Proof.
  revert e. induction handlers as [|h handlers IH]; intros e; [reflexivity|].
  cbn. apply IH.
Qed.

(** [#accountsChanged] does nothing: with it or without it, the
    subscribers leave the same environment. *)
Lemma after_accountsChanged_handler {T} fn (handlers : EventHandlers U T)
    payload view e :
  after_handlers (addHandler (accountsChanged_handler T fn) handlers)
    payload view e
  = after_handlers handlers payload view e.
Proof.
  unfold addHandler. destruct (has _ handlers); [reflexivity|].
  now rewrite after_handlers_app.
Qed.

Lemma onSessionUpdated_env new st :
  env (fst (onSessionUpdated new st))
  = let e1 :=
      if Spec.permissions_differb (permissions st) (Types.permissions new)
      then after_handlers (onPermissionsChanged st) (Types.permissions new)
             (view_with new) (env st)
      else env st in
    if negb (bool_decide (accounts st = Types.accounts new))
    then after_handlers (onAccountsChanged st) (Types.accounts new)
           (view_with new) e1
    else e1.
Proof.
  rewrite onSessionUpdated_run. cbn zeta.
  destruct (Spec.permissions_differb _ _), (negb _); cbn [fst];
    rewrite ?dispatch_run; cbn [fst]; destruct st; cbn;
    rewrite ?dispatch_run; reflexivity.
Qed.

Lemma onSessionClosed_env st :
  env (fst (onSessionClosed st))
  = {| localStorage :=
         delete (storage_key (scope st))
           (localStorage (after_handlers (onDisconnected st) tt
                            (view_of st) (env st)));
       user := user (after_handlers (onDisconnected st) tt
                       (view_of st) (env st)) |}.
Proof. rewrite onSessionClosed_run. destruct st; reflexivity. Qed.

End InertFacts.

(** X26.  The adapter's own subscriptions change nothing that can be
    seen.  Constructing the adapter subscribes its one callback to the
    disconnected and the accounts-changed events of the client, where it
    is then held, and leaves the client's session, channel and environment
    and the two other registries alone; and since that callback does
    nothing, a [session_updated] or a [session_closed] push on the client
    with the adapter leaves the session and the environment that the same
    push leaves on the client without it. *)
Theorem adapter_subscriptions_are_inert :
  forall (W U : Type) (fn : nat) (st : Runtime.State W U),
    let adapter := ShieldSwapAzguardProvider.constructor fn st in
    Handlers.has (ShieldSwapAzguardProvider.accountsChanged_handler unit fn)
      (Runtime.onDisconnected adapter) = true
    /\ Handlers.has
         (ShieldSwapAzguardProvider.accountsChanged_handler (list string) fn)
         (Runtime.onAccountsChanged adapter) = true
    /\ Runtime.onConnected adapter = Runtime.onConnected st
    /\ Runtime.onPermissionsChanged adapter = Runtime.onPermissionsChanged st
    /\ Runtime.session adapter = Runtime.session st
    /\ Runtime.rpc adapter = Runtime.rpc st
    /\ Runtime.env adapter = Runtime.env st
    /\ (forall new,
          Runtime.env (fst (AzguardClient.onSessionUpdated new adapter))
          = Runtime.env (fst (AzguardClient.onSessionUpdated new st))
          /\ Runtime.session (fst (AzguardClient.onSessionUpdated new adapter))
             = Runtime.session (fst (AzguardClient.onSessionUpdated new st)))
    /\ Runtime.env (fst (AzguardClient.onSessionClosed adapter))
       = Runtime.env (fst (AzguardClient.onSessionClosed st))
    /\ Runtime.session (fst (AzguardClient.onSessionClosed adapter))
       = Runtime.session (fst (AzguardClient.onSessionClosed st)).
Proof.
  intros W U fn st adapter.
  assert (Hadded : forall T (h : Runtime.Handler U T) handlers,
             Handlers.has h (Handlers.addHandler h handlers) = true).
  { intros T h handlers. rewrite has_addHandler, Nat.eqb_refl.
    apply orb_true_r. }
  split; [destruct st; apply Hadded|]. split; [destruct st; apply Hadded|].
  split; [destruct st; reflexivity|]. split; [destruct st; reflexivity|].
  split; [destruct st; reflexivity|]. split; [destruct st; reflexivity|].
  split; [destruct st; reflexivity|]. split; [|split].
  - intros new. split.
    + rewrite !onSessionUpdated_env. subst adapter. destruct st; cbn.
      now rewrite after_accountsChanged_handler.
    + rewrite (proj1 (onSessionUpdated_frame new adapter)).
      now rewrite (proj1 (onSessionUpdated_frame new st)).
  - rewrite !onSessionClosed_env. subst adapter. destruct st; cbn.
    now rewrite after_accountsChanged_handler.
  - rewrite (proj1 (onSessionClosed_frame adapter)).
    now rewrite (proj1 (onSessionClosed_frame st)).
Qed.

(** *** Pushes that arrive while the stored session is awaited *)

(** X27.  The response to [get_session] overrides what was pushed in the
    meantime.  While [#init] awaits the stored session the client is
    subscribed already: a [session_updated] or [session_closed] push is
    handled, storing or clearing a session and dispatching its events, and
    does not end the wait.  When the response arrives, [#init] binds the
    channel and assigns the session of the response, whatever the pushes
    left: the one step that makes the client ready stores the awaited
    session, dispatches no event and leaves the environment alone. *)
Theorem restored_session_overrides_pushes :
  forall (W U : Type) (packageVersion : string)
         (sys : Lifecycle.System W U) (ch : Types.AzguardRpcClient W)
         (restored : option Types.DappSession),
    Lifecycle.reachable packageVersion sys ->
    Lifecycle.phase sys = Lifecycle.Restoring ch (Js.Normal restored) ->
    (forall new,
        Lifecycle.step packageVersion sys
          {| Lifecycle.client :=
               fst (AzguardClient.onSessionUpdated new (Lifecycle.client sys));
             Lifecycle.phase := Lifecycle.phase sys;
             Lifecycle.connecting := Lifecycle.connecting sys |})
    /\ Lifecycle.step packageVersion sys
         {| Lifecycle.client :=
              fst (AzguardClient.onSessionClosed (Lifecycle.client sys));
            Lifecycle.phase := Lifecycle.phase sys;
            Lifecycle.connecting := Lifecycle.connecting sys |}
    /\ (forall sys',
          Lifecycle.step packageVersion sys sys' ->
          Lifecycle.phase sys' = Lifecycle.phase sys
          \/ (Lifecycle.phase sys' = Lifecycle.Ready
              /\ Runtime.session (Lifecycle.client sys') = restored
              /\ Runtime.rpc (Lifecycle.client sys') = Some ch
              /\ Runtime.trace (Lifecycle.client sys')
                 = Runtime.trace (Lifecycle.client sys)
                     ++ [Runtime.SessionAssigned restored]
              /\ Runtime.env (Lifecycle.client sys')
                 = Runtime.env (Lifecycle.client sys))).
Proof.
  intros W U packageVersion sys ch restored Hreach Hph.
  assert (Hl : Runtime.listening (Lifecycle.client sys) = true).
  { apply reachable_invariant in Hreach.
    unfold Lifecycle.invariant, Lifecycle.core, Lifecycle.invariant_core in Hreach.
    destruct Hreach as (_ & _ & _ & _ & _ & Hrestoring).
    now destruct (Hrestoring _ _ Hph). }
  split; [|split].
  - intros new.
    exact (Lifecycle.step_session_updated packageVersion sys new Hl).
  - exact (Lifecycle.step_session_closed packageVersion sys Hl).
  - intros sys' Hstep.
    destruct Hstep; cbn [Lifecycle.client Lifecycle.phase];
      try (left; reflexivity); try congruence.
    right.
    match goal with H : Lifecycle.phase _ = Lifecycle.Restoring _ (Js.Normal _) |- _ =>
      rewrite Hph in H; injection H as <- <- end.
    destruct (Lifecycle.client sys); repeat split.
Qed.

(** The push stored the session with one account; the response that
    arrives afterwards puts the session with two accounts back. *)
Lemma restored_session_overrides_pushes_witness :
  Runtime.session (Lifecycle.client Demo.pushed_system) = Some Demo.session2
  /\ (Lifecycle.phase Demo.restored_system = Lifecycle.phase Demo.pushed_system
      \/ (Lifecycle.phase Demo.restored_system = Lifecycle.Ready
          /\ Runtime.session (Lifecycle.client Demo.restored_system)
             = Some Demo.session1
          /\ Runtime.rpc (Lifecycle.client Demo.restored_system)
             = Some Demo.channel
          /\ Runtime.trace (Lifecycle.client Demo.restored_system)
             = Runtime.trace (Lifecycle.client Demo.pushed_system)
                 ++ [Runtime.SessionAssigned (Some Demo.session1)]
          /\ Runtime.env (Lifecycle.client Demo.restored_system)
             = Runtime.env (Lifecycle.client Demo.pushed_system))).
Proof.
  split; [reflexivity|].
  assert (Hreach : Lifecycle.reachable "1.2.0" Demo.pushed_system).
  { apply (Lifecycle.reachable_step _ Demo.restoring_1);
      [apply (Lifecycle.reachable_step _ Demo.restoring_0);
         [apply Lifecycle.reachable_initial|]|].
    - exact (Lifecycle.step_found_stored "1.2.0" Demo.restoring_0 Demo.azguard
               _ _ eq_refl eq_refl eq_refl).
    - exact (Lifecycle.step_session_updated "1.2.0" Demo.restoring_1
               Demo.session2 eq_refl). }
  apply (proj2 (proj2 (restored_session_overrides_pushes nat (list bool) "1.2.0"
                         Demo.pushed_system Demo.channel (Some Demo.session1)
                         Hreach eq_refl))
           Demo.restored_system).
  exact (Lifecycle.step_restored "1.2.0" Demo.pushed_system Demo.channel
           (Some Demo.session1) eq_refl).
Defined.
